(** * Cryptonite dashboard: favourites store, market-data client, poller, prompt

    A shallow embedding of the resilience core of the Cryptonite web client
    (store/favoritesSlice.ts, store/index.ts, services/api.ts,
    pages/Reports.tsx, utils/validation.ts, services/aiService.ts) and the
    properties its specification states about it.

    Conventions.
    - JavaScript strings are [string]; arrays are [list]; plain objects used
      as dictionaries are [gmap string _], the map of their own properties.
      Where the code assigns under a key it does not choose, the key
      [__proto__], which such an assignment does not create, is told apart.
    - Wall-clock time ([Date.now()]) is a [Z] count of milliseconds.
    - Every [await] is a point where the clock advances and due timers run. *)

From Stdlib Require Import ZArith QArith Qround Qabs Ascii Lia.
From stdpp Require Import base gmap strings list.

Local Open Scope string_scope.
Local Open Scope list_scope.
Local Open Scope Z_scope.
Local Open Scope nat_scope.

(** ** store/favoritesSlice.ts *)

Module Favorites.

Record FavoritesState := { selectedIds : list string }.

Definition MAX_FAVORITES : nat := 5.

Definition initialState : FavoritesState := {| selectedIds := [] |}.

(** [Array.prototype.includes] on an array of strings. *)
Definition includes (ids : list string) (x : string) : bool :=
  bool_decide (x ∈ ids).

(** [ids.filter((id) => id !== coinId)] *)
Definition without (coinId : string) (ids : list string) : list string :=
  filter (λ id, id ≠ coinId) ids.

Definition toggleFavorite (coinId : string) (state : FavoritesState)
  : FavoritesState :=
  if includes (selectedIds state) coinId then
    {| selectedIds := without coinId (selectedIds state) |}
  else if decide (length (selectedIds state) < MAX_FAVORITES) then
    {| selectedIds := selectedIds state ++ [coinId] |}
  else state.

Definition replaceFavorite (removeId addId : string) (state : FavoritesState)
  : FavoritesState :=
  let state1 := {| selectedIds := without removeId (selectedIds state) |} in
  if negb (includes (selectedIds state1) addId)
     && bool_decide (length (selectedIds state1) < MAX_FAVORITES)
  then {| selectedIds := selectedIds state1 ++ [addId] |}
  else state1.

(** The two actions of the slice and its reducer. *)
Inductive action :=
| ToggleFavorite (coinId : string)
| ReplaceFavorite (removeId addId : string).

Definition reducer (state : FavoritesState) (a : action) : FavoritesState :=
  match a with
  | ToggleFavorite coinId => toggleFavorite coinId state
  | ReplaceFavorite removeId addId => replaceFavorite removeId addId state
  end.

(** Dispatching a sequence of actions, oldest first. *)
Definition dispatchAll (state : FavoritesState) (acts : list action)
  : FavoritesState :=
  foldl reducer state acts.

(** The identifier an action takes out of the list (when it is there). *)
Definition evicted (a : action) : string :=
  match a with
  | ToggleFavorite coinId => coinId
  | ReplaceFavorite removeId _ => removeId
  end.

(** The invariant of the favourites list. *)
Definition wellFormed (state : FavoritesState) : Prop :=
  length (selectedIds state) ≤ MAX_FAVORITES ∧ NoDup (selectedIds state).

(** [x] occurs before [y] in [ids]. *)
Definition precedes (ids : list string) (x y : string) : Prop :=
  ∃ front mid back, ids = front ++ x :: mid ++ y :: back.

(** The list with every occurrence of [removeId] taken out, written with
    the filter and the string equality of the Standard Library. *)
Definition removed (removeId : string) (ids : list string) : list string :=
  List.filter (λ id, negb (String.eqb id removeId)) ids.

(** The words of the specification for [replace(removeId, addId)]: remove
    [removeId] if present, then append [addId] only if it is not a member
    and the size is below 5. *)
Definition replace_spec (removeId addId : string) (ids : list string)
  : list string :=
  let rest := if bool_decide (removeId ∈ ids)
              then removed removeId ids else ids in
  if bool_decide (¬ (addId ∈ rest) ∧ (length rest < 5))
  then rest ++ [addId] else rest.

End Favorites.

(** ** JavaScript values the client code relies on *)

Module JS.

(** [T | null | undefined] *)
Inductive nullable (A : Type) :=
| null
| undefined
| value (a : A).
Arguments null {A}.
Arguments undefined {A}.
Arguments value {A} a.

(** [x ?? d] *)
Definition orElse {A} (x : nullable A) (d : A) : A :=
  match x with value a => a | _ => d end.

(** A Number: the finite values are taken with their exact rational value
    (every double is one); negative zero is not told apart from zero. *)
Inductive number :=
| NaN
| NegInfinity
| PosInfinity
| Finite (q : Q).

Definition zero : number := Finite 0.

Definition isNaN (x : number) : bool :=
  match x with NaN => true | _ => false end.

Definition Qltb (a b : Q) : bool := negb (Qle_bool b a).

(** [a < b] on Numbers: false as soon as one side is NaN. *)
Definition lt (a b : number) : bool :=
  match a, b with
  | NaN, _ | _, NaN => false
  | NegInfinity, NegInfinity => false
  | NegInfinity, _ => true
  | _, NegInfinity => false
  | PosInfinity, _ => false
  | Finite _, PosInfinity => true
  | Finite x, Finite y => Qltb x y
  end.

(** [a > b] *)
Definition gt (a b : number) : bool := lt b a.

(** [Intl.NumberFormatOptions], the two fields the client sets. *)
Record NumberFormatOptions := {
  minimumFractionDigits : option nat;
  maximumFractionDigits : option nat;
}.

(** [{ ...defaults, ...options }] *)
Definition spread (defaults options : NumberFormatOptions)
  : NumberFormatOptions :=
  {| minimumFractionDigits :=
       match minimumFractionDigits options with
       | Some d => Some d | None => minimumFractionDigits defaults end;
     maximumFractionDigits :=
       match maximumFractionDigits options with
       | Some d => Some d | None => maximumFractionDigits defaults end |}.

(** The built-ins of the host that the client calls and that have no
    source in the repository. Every result below holds for any host. *)
Class Runtime := {
  toUpperCase : string → string;
  toLowerCase : string → string;
  trim : string → string;
  (** [Number::toString], used by [toFixed] for values it does not format *)
  Number_toString : number → string;
  (** [x.toLocaleString('en-US', options)] *)
  toLocaleString_enUS : number → NumberFormatOptions → string;
}.

(** *** Decimal digits *)

Fixpoint uintChars (u : Decimal.uint) : list ascii :=
  match u with
  | Decimal.Nil => []
  | Decimal.D0 u => "0"%char :: uintChars u
  | Decimal.D1 u => "1"%char :: uintChars u
  | Decimal.D2 u => "2"%char :: uintChars u
  | Decimal.D3 u => "3"%char :: uintChars u
  | Decimal.D4 u => "4"%char :: uintChars u
  | Decimal.D5 u => "5"%char :: uintChars u
  | Decimal.D6 u => "6"%char :: uintChars u
  | Decimal.D7 u => "7"%char :: uintChars u
  | Decimal.D8 u => "8"%char :: uintChars u
  | Decimal.D9 u => "9"%char :: uintChars u
  end.

(** The decimal representation of [n], most significant digit first;
    ["0"] for zero. *)
Definition decimalDigits (n : N) : list ascii :=
  uintChars (N.to_uint n).

Definition isDigit (c : ascii) : Prop :=
  c ∈ String.list_ascii_of_string "0123456789".

(** *** [Number.prototype.toFixed] (ECMA-262, 21.1.3.3) *)

Definition tenTo21 : Q := inject_Z (10 ^ 21).

(** Step 11: the integer [n] with [n / 10^f] closest to [x], the larger
    one on a tie; [x] is not negative here. *)
Definition nearestScaled (f : nat) (x : Q) : N :=
  Z.to_N (Qfloor (x * inject_Z (10 ^ Z.of_nat f) + (1 # 2))).

(** Steps 11.b to 11.d: pad with zeros to more than [f] digits and put the
    point before the last [f] of them. *)
Definition placePoint (f : nat) (m : list ascii) : list ascii :=
  let m := replicate (S f - length m) "0"%char ++ m in
  if decide (f = 0%nat) then m
  else take (length m - f) m ++ "."%char :: drop (length m - f) m.

Definition toFixed `{Runtime} (f : nat) (x : number) : string :=
  match x with
  | Finite q =>
      let s := if Qltb q 0 then ["-"%char] else [] in
      let q := Qabs q in
      if Qle_bool tenTo21 q then
        String.string_of_list_ascii s +:+ Number_toString (Finite q)
      else
        String.string_of_list_ascii
          (s ++ placePoint f (decimalDigits (nearestScaled f q)))
  | _ => Number_toString x
  end.

(** *** A host for running the examples

    ASCII case mapping and white space, and ECMA-402 decimal formatting
    (grouping by three, rounding half away from zero on the exact value).
    Its [Number::toString] prints the three values that are not finite as
    JavaScript does, and a finite value as its nearest integer in plain
    digits, which is what JavaScript prints for an integer below 10^21. *)

Definition asciiUpper (c : ascii) : ascii :=
  let n := N_of_ascii c in
  if ((97 <=? n) && (n <=? 122))%N then ascii_of_N (n - 32) else c.

Definition asciiLower (c : ascii) : ascii :=
  let n := N_of_ascii c in
  if ((65 <=? n) && (n <=? 90))%N then ascii_of_N (n + 32) else c.

Definition isSpace (c : ascii) : bool :=
  let n := N_of_ascii c in
  ((n =? 32) || (n =? 9) || (n =? 10) || (n =? 13))%N.

Definition mapString (f : ascii → ascii) (s : string) : string :=
  String.string_of_list_ascii (f <$> String.list_ascii_of_string s).

Fixpoint dropSpaces (cs : list ascii) : list ascii :=
  match cs with
  | c :: cs' => if isSpace c then dropSpaces cs' else cs
  | [] => []
  end.

Definition asciiTrim (s : string) : string :=
  String.string_of_list_ascii
    (reverse (dropSpaces (reverse
       (dropSpaces (String.list_ascii_of_string s))))).

Fixpoint groupThousands (fuel : nat) (ds : list ascii) : list ascii :=
  match fuel with
  | O => ds
  | S fuel' =>
      if decide (length ds ≤ 3) then ds
      else groupThousands fuel' (take (length ds - 3) ds)
             ++ ","%char :: drop (length ds - 3) ds
  end.

Fixpoint stripZeros (keep : nat) (rev_frac : list ascii) : list ascii :=
  match rev_frac with
  | c :: rest =>
      if decide (keep < length rev_frac) then
        if Ascii.eqb c "0" then stripZeros keep rest else rev_frac
      else rev_frac
  | [] => []
  end.

Definition formatDecimal (x : number) (o : NumberFormatOptions) : string :=
  match x with
  | NaN => "NaN"
  | PosInfinity => "∞"
  | NegInfinity => "-∞"
  | Finite q =>
      let maxFd := default 3 (maximumFractionDigits o) in
      let minFd := default 0 (minimumFractionDigits o) in
      let n := nearestScaled maxFd (Qabs q) in
      let m := decimalDigits n in
      let m := replicate (S maxFd - length m) "0"%char ++ m in
      let int := take (length m - maxFd) m in
      let frac := reverse (stripZeros minFd (reverse (drop (length m - maxFd) m))) in
      let s := if Qltb q 0 && negb (n =? 0)%N then ["-"%char] else [] in
      String.string_of_list_ascii
        (s ++ groupThousands (length int) int
           ++ match frac with [] => [] | _ => "."%char :: frac end)
  end.

Definition simpleToString (x : number) : string :=
  match x with
  | NaN => "NaN"
  | PosInfinity => "Infinity"
  | NegInfinity => "-Infinity"
  | Finite q =>
      String.string_of_list_ascii
        ((if Qltb q 0 then ["-"%char] else [])
         ++ decimalDigits (nearestScaled 0 (Qabs q)))
  end.

Definition referenceHost : Runtime := {|
  toUpperCase := mapString asciiUpper;
  toLowerCase := mapString asciiLower;
  trim := asciiTrim;
  Number_toString := simpleToString;
  toLocaleString_enUS := formatDecimal;
|}.

End JS.

(** ** utils/validation.ts *)

Module Validation.
Import JS.

Definition MAX_PRICE_DISPLAY : number := Finite 100000.

(** The parameter is typed [number], so [typeof value !== 'number'] never
    holds and only the NaN test of the first guard remains. *)
Definition clampPriceForDisplay (value : number) : number :=
  if isNaN value then zero
  else if lt value zero then zero
  else if gt value MAX_PRICE_DISPLAY then MAX_PRICE_DISPLAY
  else value.

Definition displayDefaults : NumberFormatOptions :=
  {| minimumFractionDigits := Some 0; maximumFractionDigits := Some 2 |}.

Definition noOptions : NumberFormatOptions :=
  {| minimumFractionDigits := None; maximumFractionDigits := None |}.

Definition formatPriceForDisplay `{Runtime}
    (value : number) (options : NumberFormatOptions) : string :=
  let clamped := clampPriceForDisplay value in
  toLocaleString_enUS clamped (spread displayDefaults options).

(** A Number that is finite and lies between 0 and [MAX_PRICE_DISPLAY]. *)
Definition displayable (x : number) : Prop :=
  ∃ q : Q, x = Finite q ∧ (0 <= q)%Q ∧ (q <= 100000)%Q.

(** The words of the specification for the value that is rendered for
    [v]: 0 for NaN and for a negative [v], 100,000 for a [v] above it, and
    [v] itself in between. *)
Definition clamped_spec (v c : number) : Prop :=
  ((isNaN v = true ∨ lt v zero = true) ∧ c = zero)
  ∨ (gt v (Finite 100000) = true ∧ c = Finite 100000)
  ∨ (displayable v ∧ c = v).

(** Options that every host accepts: at most 20 fraction digits, and no
    more at the least than at the most. With other options the formatter
    of the host throws a RangeError; no caller in the repository passes
    any. *)
Definition accepted (options : NumberFormatOptions) : Prop :=
  ∀ lo hi, minimumFractionDigits options = Some lo →
           maximumFractionDigits options = Some hi →
           lo ≤ hi ∧ hi ≤ 20.

End Validation.

(** ** services/aiService.ts *)

Module AiService.
Import JS Validation.

Record CoinMarketDataForAi := {
  name : string;
  symbol : string;
  currentPriceUsd : number;
  priceChange24h : nullable number;
  priceChange30d : nullable number;
  priceChange60d : nullable number;
  priceChange200d : nullable number;
  totalVolume : number;
  marketCap : number;
}.

Definition pct `{Runtime} (v : nullable number) : string :=
  match v with
  | value x => if isNaN x then "N/A" else toFixed 2 x +:+ "%"
  | _ => "N/A"
  end.

Definition newline : string := String "010"%char "".

Definition marketDataLines `{Runtime} (data : CoinMarketDataForAi)
  : list string :=
  [ "Coin: " +:+ name data +:+ " (" +:+ toUpperCase (symbol data) +:+ ")";
    "Current price (USD): $"
      +:+ formatPriceForDisplay (currentPriceUsd data) noOptions;
    "Market cap (USD): $"
      +:+ formatPriceForDisplay (marketCap data) noOptions;
    "24h volume (USD): $"
      +:+ formatPriceForDisplay (totalVolume data) noOptions;
    "24h price change: " +:+ pct (priceChange24h data);
    "30d price change: " +:+ pct (priceChange30d data);
    "60d price change: " +:+ pct (priceChange60d data);
    "200d price change: " +:+ pct (priceChange200d data) ].

(** [lines.join('\n')] *)
Definition formatMarketData `{Runtime} (data : CoinMarketDataForAi) : string :=
  String.concat newline (marketDataLines data).

(** A percentage with two decimals: an optional minus sign, at least one
    digit, a point, two digits and the percent sign. *)
Definition twoDecimalPercent (s : string) : Prop :=
  ∃ (sign int : list ascii) (d1 d2 : ascii),
    (sign = [] ∨ sign = ["-"%char]) ∧
    int ≠ [] ∧ Forall isDigit int ∧ isDigit d1 ∧ isDigit d2 ∧
    s = String.string_of_list_ascii
          (sign ++ int ++ ["."%char; d1; d2; "%"%char]).

(** A change figure that is a finite Number below 10^21 in magnitude. *)
Definition ordinary (v : nullable number) (q : Q) : Prop :=
  v = value (Finite q) ∧ (Qabs q < tenTo21)%Q.

(** *** A snapshot used as an example: every change is a Number, the 24h
    one is NaN. *)
Definition nanSnapshot : CoinMarketDataForAi :=
  {| name := "Bitcoin"; symbol := "btc";
     currentPriceUsd := Finite 64250;
     priceChange24h := value NaN;
     priceChange30d := value (Finite (-(12 # 10)));
     priceChange60d := value (Finite 4);
     priceChange200d := value (Finite (105 # 10));
     totalVolume := Finite 31000000000;
     marketCap := Finite 1270000000000 |}.

End AiService.

(** ** store/index.ts *)

Module Store.
Import Favorites.

(** What [JSON.parse] returns. *)
#[local] Unset Elimination Schemes.
Inductive json :=
| JNull
| JBool (b : bool)
| JNumber (n : JS.number)
| JString (s : string)
| JArray (items : list json)
| JObject (fields : list (string * json)).
#[local] Set Elimination Schemes.

(** [typeof item === 'string'], as a type guard *)
Definition asString (item : json) : option string :=
  match item with JString s => Some s | _ => None end.

Section Load.

(** The storage key (constants/storageKeys.ts) and the parser of the host:
    [None] when [JSON.parse] throws. *)
Variable FAVORITES_STORAGE_KEY : string.
Variable JSON_parse : string → option json.

(** [localStorage] is [None] when the browser refuses access to it (reading
    it throws), else the stored items. *)
Definition loadPersistedFavorites (localStorage : option (gmap string string))
  : list string :=
  match localStorage with
  | None => []
  | Some items =>
      match items !! FAVORITES_STORAGE_KEY with
      | None => []
      | Some raw =>
          match JSON_parse raw with
          | Some (JArray parsed) =>
              let ids := omap asString parsed in
              take MAX_FAVORITES ids
          | Some _ => []
          | None => []
          end
      end
  end.

End Load.

(** The words of the specification: entries that are not non-empty strings
    are discarded, the rest is cut to the first five. *)
Definition asNonEmptyString (item : json) : option string :=
  match item with
  | JString s => if decide (s = "") then None else Some s
  | _ => None
  end.

Definition load_spec (parsed : list json) : list string :=
  take 5 (omap asNonEmptyString parsed).

(** *** A stored value used as an example *)

(** The text [["","a"]] as it sits in the storage. *)
Definition storedText : string :=
  let q := String "034"%char "" in
  "[" +:+ q +:+ q +:+ "," +:+ q +:+ "a" +:+ q +:+ "]".

(** A parser that knows this one text. *)
Definition parseStoredText (raw : string) : option json :=
  if String.eqb raw storedText then Some (JArray [JString ""; JString "a"])
  else None.

End Store.

(** ** services/api.ts *)

Module Api.
Import JS.
Local Open Scope Z_scope.

(** *** Errors and the response interceptor *)

Record AxiosError := {
  status : option Z;     (* err.response?.status *)
  message : string;      (* err.message *)
  code : option string;  (* err.code *)
}.

(** What a [catch] clause can receive here: an error made by axios
    ([axios.isAxiosError(err)] holds) or a plain [new Error(message)]. *)
Inductive thrown :=
| Axios (e : AxiosError)
| PlainError (msg : string).

Definition thrownMessage (err : thrown) : string :=
  match err with
  | Axios e => message e
  | PlainError msg => msg
  end.

(** The requests the client sends through [api]. *)
Inductive request :=
| SimplePrice (ids vs_currencies : string)   (* /simple/price *)
| CoinsMarkets                               (* /coins/markets *)
| CoinDetail (coinId : string).              (* /coins/{id} *)

Definition isMoreInfoRequest (req : request) : bool :=
  match req with
  | SimplePrice _ vs => String.eqb vs "usd,eur,ils"
  | _ => false
  end.

Definition hasStatus (e : AxiosError) (n : Z) : bool :=
  bool_decide (status e = Some n).

Definition isNetworkError (e : AxiosError) : bool :=
  String.eqb (message e) "Network Error"
  || bool_decide (code e = Some "ERR_NETWORK").

Definition withMessage (msg : string) (e : AxiosError) : AxiosError :=
  {| status := status e; message := msg; code := code e |}.

Definition RATE_LIMIT_MESSAGE : string :=
  "Data temporarily unavailable due to high demand. Please try again in a minute.".

Definition NETWORK_MESSAGE : string :=
  "Network error. Check your connection or try again later.".

(** The rejection handler of [api.interceptors.response]. *)
Definition interceptor (req : request) (e : AxiosError) : AxiosError :=
  if negb (isMoreInfoRequest req) then e
  else if hasStatus e 429 then withMessage RATE_LIMIT_MESSAGE e
  else if isNetworkError e then withMessage NETWORK_MESSAGE e
  else e.

Definition isRetryableError (err : thrown) : bool :=
  match err with
  | Axios e => hasStatus e 429 || isNetworkError e
  | PlainError _ => false
  end.

(** [axios.isAxiosError(err) && err.response?.status === 429] *)
Definition isRateLimited (err : thrown) : bool :=
  match err with
  | Axios e => hasStatus e 429
  | PlainError _ => false
  end.

(** *** Module state, clock and network *)

Record Prices := { usd : number; eur : number; ils : number }.

Record CacheEntry := { data : Prices; fetchedAt : Z }.

(** [{ usd?: number; eur?: number; ils?: number }] *)
Record RawPrices := {
  raw_usd : nullable number;
  raw_eur : nullable number;
  raw_ils : nullable number;
}.

(** [response.data] of /simple/price. *)
Inductive responseData :=
| NotAnObject      (* null, or [typeof response.data !== 'object'] *)
| Entries (byId : gmap string (nullable RawPrices)).

Inductive reply :=
| Responded (body : responseData)
| Rejected (e : AxiosError).

Definition COIN_CACHE_TTL_MS : Z := 2 * 60 * 1000.
Definition MORE_INFO_MIN_INTERVAL_MS : Z := 2000.
Definition LOCK_DURATION_MS : Z := 10 * 1000.
Definition RETRY_WAIT_MS : Z := 3000.

Definition BUSY_MESSAGE : string :=
  "The server is busy. Please wait 10 seconds...".

(** The module-level variables of api.ts, the clock, and two logs kept for
    the statements: the requests put on the wire with their send time, and
    the listener calls with the time their timer was due. [lockTimeoutId]
    holds the due time of the pending cooldown timer. *)
Record World := {
  now : Z;
  coinCache : gmap string CacheEntry;
  lastMoreInfoRequestTime : Z;
  isApiLocked : bool;
  lockEndTime : Z;
  lockTimeoutId : option Z;
  lockListeners : list nat;
  requests : list (Z * request);
  notified : list (Z * nat);
}.

(** The state of a freshly loaded module at time [t]. *)
Definition freshWorld (t : Z) : World :=
  {| now := t; coinCache := ∅; lastMoreInfoRequestTime := 0;
     isApiLocked := false; lockEndTime := 0; lockTimeoutId := None;
     lockListeners := []; requests := []; notified := [] |}.

Definition setNow (t : Z) (w : World) : World :=
  {| now := t; coinCache := coinCache w;
     lastMoreInfoRequestTime := lastMoreInfoRequestTime w;
     isApiLocked := isApiLocked w; lockEndTime := lockEndTime w;
     lockTimeoutId := lockTimeoutId w; lockListeners := lockListeners w;
     requests := requests w; notified := notified w |}.

Definition setCoinCache (c : gmap string CacheEntry) (w : World) : World :=
  {| now := now w; coinCache := c;
     lastMoreInfoRequestTime := lastMoreInfoRequestTime w;
     isApiLocked := isApiLocked w; lockEndTime := lockEndTime w;
     lockTimeoutId := lockTimeoutId w; lockListeners := lockListeners w;
     requests := requests w; notified := notified w |}.

Definition setLastMoreInfoRequestTime (t : Z) (w : World) : World :=
  {| now := now w; coinCache := coinCache w;
     lastMoreInfoRequestTime := t;
     isApiLocked := isApiLocked w; lockEndTime := lockEndTime w;
     lockTimeoutId := lockTimeoutId w; lockListeners := lockListeners w;
     requests := requests w; notified := notified w |}.

Definition setLock (locked : bool) (until : Z) (timer : option Z) (w : World)
  : World :=
  {| now := now w; coinCache := coinCache w;
     lastMoreInfoRequestTime := lastMoreInfoRequestTime w;
     isApiLocked := locked; lockEndTime := until;
     lockTimeoutId := timer; lockListeners := lockListeners w;
     requests := requests w; notified := notified w |}.

Definition setLockListeners (ls : list nat) (w : World) : World :=
  {| now := now w; coinCache := coinCache w;
     lastMoreInfoRequestTime := lastMoreInfoRequestTime w;
     isApiLocked := isApiLocked w; lockEndTime := lockEndTime w;
     lockTimeoutId := lockTimeoutId w; lockListeners := ls;
     requests := requests w; notified := notified w |}.

Definition logRequest (req : request) (w : World) : World :=
  {| now := now w; coinCache := coinCache w;
     lastMoreInfoRequestTime := lastMoreInfoRequestTime w;
     isApiLocked := isApiLocked w; lockEndTime := lockEndTime w;
     lockTimeoutId := lockTimeoutId w; lockListeners := lockListeners w;
     requests := requests w ++ [(now w, req)]; notified := notified w |}.

Definition logNotified (calls : list (Z * nat)) (w : World) : World :=
  {| now := now w; coinCache := coinCache w;
     lastMoreInfoRequestTime := lastMoreInfoRequestTime w;
     isApiLocked := isApiLocked w; lockEndTime := lockEndTime w;
     lockTimeoutId := lockTimeoutId w; lockListeners := lockListeners w;
     requests := requests w; notified := notified w ++ calls |}.

(** The callback that [setApiLocked] hands to [setTimeout]. *)
Definition lockTimerCallback (due : Z) (w : World) : World :=
  logNotified ((λ l, (due, l)) <$> lockListeners w)
    (setLock false (lockEndTime w) None w).

(** The event loop runs the cooldown timer once its due time is reached. *)
Definition runTimers (w : World) : World :=
  match lockTimeoutId w with
  | Some due => if due <=? now w then lockTimerCallback due w else w
  | None => w
  end.

(** [ms] milliseconds pass while the caller is suspended. *)
Definition advance (ms : Z) (w : World) : World :=
  runTimers (setNow (now w + ms) w).

(** The lock stops a fetch: [isApiLocked && Date.now() < lockEndTime]. *)
Definition lockActive (w : World) : bool :=
  isApiLocked w && (now w <? lockEndTime w).

(** [cached && Date.now() - cached.fetchedAt < COIN_CACHE_TTL_MS] *)
Definition cacheLookup (normalizedId : string) (w : World) : option Prices :=
  match coinCache w !! normalizedId with
  | Some cached =>
      if now w - fetchedAt cached <? COIN_CACHE_TTL_MS
      then Some (data cached) else None
  | None => None
  end.

(** *** Asynchronous computations: state and exceptions *)

Definition M (A : Type) : Type := World → (thrown + A) * World.

Definition ret {A} (a : A) : M A := λ w, (inr a, w).

Definition throw {A} (err : thrown) : M A := λ w, (inl err, w).

Definition bind {A B} (m : M A) (k : A → M B) : M B :=
  λ w, match m w with
       | (inr a, w') => k a w'
       | (inl err, w') => (inl err, w')
       end.

Definition tryCatch {A} (m : M A) (handler : thrown → M A) : M A :=
  λ w, match m w with
       | (inl err, w') => handler err w'
       | settled => settled
       end.

Definition get : M World := λ w, (inr w, w).

Definition modify (f : World → World) : M unit := λ w, (inr tt, f w).

Notation "'let*' x := m 'in' k" := (bind m (λ x, k))
  (at level 10, x name, m at level 100, k at level 200).
Notation "m >> k" := (bind m (λ _, k))
  (at level 100, k at level 200, right associativity).

(** [await new Promise((r) => setTimeout(r, ms))] *)
Definition sleep (ms : Z) : M unit := modify (advance ms).

(** The lock is set for [LOCK_DURATION_MS] from now; a pending cooldown
    timer is cleared and a new one is started. *)
Definition engageLock (w : World) : World :=
  setLock true (now w + LOCK_DURATION_MS)
    (Some (now w + LOCK_DURATION_MS)) w.

Definition setApiLocked : M unit := modify engageLock.

Definition getMoreInfoLockState (w : World) : bool * Z :=
  if negb (isApiLocked w) then (false, 0)
  else (true, Z.max 0 (lockEndTime w - now w)).

Definition subscribeToMoreInfoLock (listener : nat) (w : World) : World :=
  setLockListeners (lockListeners w ++ [listener]) w.

Fixpoint removeFirst (listener : nat) (ls : list nat) : list nat :=
  match ls with
  | [] => []
  | l :: ls' => if decide (l = listener) then ls'
                else l :: removeFirst listener ls'
  end.

(** The function returned by [subscribeToMoreInfoLock]. *)
Definition unsubscribe (listener : nat) (w : World) : World :=
  setLockListeners (removeFirst listener (lockListeners w)) w.

Section Client.
Context `{Runtime}.

(** The server: the [n]-th request put on the wire is answered after
    [fst (network n)] milliseconds with [snd (network n)]. *)
Variable network : nat → N * reply.

(** [await api.get(...)]: the request goes out, time passes, and a
    rejection goes through the interceptor. *)
Definition apiGet (req : request) : M responseData :=
  λ w,
    let '(latency, r) := network (length (requests w)) in
    let w' := advance (Z.of_N latency) (logRequest req w) in
    match r with
    | Responded body => (inr body, w')
    | Rejected e => (inl (Axios (interceptor req e)), w')
    end.

(** [raw?.field] *)
Definition rawField (field : RawPrices → nullable number)
    (raw : option (nullable RawPrices)) : nullable number :=
  match raw with
  | Some (value r) => field r
  | _ => undefined
  end.

(** The object [doRequest] returns, read from [response.data]. *)
Definition readPrices (byId : gmap string (nullable RawPrices))
    (normalizedId : string) : Prices :=
  let raw := byId !! normalizedId in
  {| usd := orElse (rawField raw_usd raw) zero;
     eur := orElse (rawField raw_eur raw) zero;
     ils := orElse (rawField raw_ils raw) zero |}.

Definition moreInfoRequest (normalizedId : string) : request :=
  SimplePrice normalizedId "usd,eur,ils".

Definition doRequest (normalizedId : string) : M Prices :=
  let* body := apiGet (moreInfoRequest normalizedId) in
  match body with
  | NotAnObject => throw (PlainError "Invalid response from CoinGecko")
  | Entries byId => ret (readPrices byId normalizedId)
  end.

(** [coinCache[normalizedId] = { data, fetchedAt: Date.now() }] *)
Definition storeInCache (normalizedId : string) (d : Prices) : M unit :=
  modify (λ w, setCoinCache
    (<[normalizedId := {| data := d; fetchedAt := now w |}]> (coinCache w)) w).

Definition throttle : M unit :=
  let* w := get in
  let elapsed := now w - lastMoreInfoRequestTime w in
  if elapsed <? MORE_INFO_MIN_INTERVAL_MS
  then sleep (MORE_INFO_MIN_INTERVAL_MS - elapsed)
  else ret tt.

Definition requestAndStore (normalizedId : string) : M Prices :=
  let* d := doRequest normalizedId in
  storeInCache normalizedId d >>
  ret d.

(** The [catch] clause around the first request. *)
Definition retryAfterFailure (normalizedId : string) (err : thrown)
  : M Prices :=
  if isRetryableError err then
    (if isRateLimited err then setApiLocked else ret tt) >>
    sleep RETRY_WAIT_MS >>
    tryCatch (requestAndStore normalizedId) (λ retryErr, throw retryErr)
  else throw err.

Definition fetchMoreInfo (coinId : string) : M Prices :=
  let normalizedId := toLowerCase (trim coinId) in
  let* w := get in
  match cacheLookup normalizedId w with
  | Some cached => ret cached
  | None =>
      if lockActive w then throw (PlainError BUSY_MESSAGE)
      else
        throttle >>
        modify (λ w, setLastMoreInfoRequestTime (now w) w) >>
        tryCatch (requestAndStore normalizedId)
          (retryAfterFailure normalizedId)
  end.

End Client.

(** *** Names for moments of a fetch, used in the statements *)

(** [coinId.trim().toLowerCase()] *)
Definition normalize `{Runtime} (coinId : string) : string :=
  toLowerCase (trim coinId).

(** How long the throttle suspends a fetch that starts in [w]. *)
Definition throttleDelay (w : World) : Z :=
  let elapsed := now w - lastMoreInfoRequestTime w in
  if elapsed <? MORE_INFO_MIN_INTERVAL_MS
  then MORE_INFO_MIN_INTERVAL_MS - elapsed else 0.

(** The world in which the first request of a fetch goes out: the throttle
    has been served and the send time recorded. *)
Definition ready (w : World) : World :=
  let elapsed := now w - lastMoreInfoRequestTime w in
  let w' := if elapsed <? MORE_INFO_MIN_INTERVAL_MS
            then advance (MORE_INFO_MIN_INTERVAL_MS - elapsed) w else w in
  setLastMoreInfoRequestTime (now w') w'.

(** The world when the answer to a request sent in [w] has arrived. *)
Definition answered (req : request) (latency : N) (w : World) : World :=
  advance (Z.of_N latency) (logRequest req w).

(** The lock is set and its cooldown timer is pending. *)
Definition cooling (w : World) : Prop :=
  isApiLocked w = true ∧ lockTimeoutId w = Some (lockEndTime w).

(** The calls the cooldown timer of [w] makes when it runs. *)
Definition cooldownCalls (w : World) : list (Z * nat) :=
  (λ l, (lockEndTime w, l)) <$> lockListeners w.

(** A rate-limit response, and a failure to reach the server, as axios
    reports them. *)
Definition tooManyRequests (e : AxiosError) : Prop := status e = Some 429.

Definition unreachable (e : AxiosError) : Prop :=
  status e ≠ Some 429 ∧ code e = Some "ERR_NETWORK".

(** *** A session used as an example

    The module is loaded at time 1,000,000. The server answers the first
    request with the prices of bitcoin and every later one with status 429. *)

Definition bitcoinPrices : RawPrices :=
  {| raw_usd := value (Finite 64000); raw_eur := value (Finite 59000);
     raw_ils := undefined |}.

Definition status429 : AxiosError :=
  {| status := Some 429; message := "Request failed with status code 429";
     code := Some "ERR_BAD_REQUEST" |}.

Definition networkDown : AxiosError :=
  {| status := None; message := "Network Error"; code := Some "ERR_NETWORK" |}.

Definition status500 : AxiosError :=
  {| status := Some 500; message := "Request failed with status code 500";
     code := Some "ERR_BAD_RESPONSE" |}.

Definition busyServer (n : nat) : N * reply :=
  match n with
  | O => (100%N, Responded (Entries {[ "bitcoin" := value bitcoinPrices ]}))
  | _ => (200%N, Rejected status429)
  end.

(** The server is unreachable once and then answers. *)
Definition flakyServer (n : nat) : N * reply :=
  match n with
  | O => (50%N, Rejected networkDown)
  | _ => (100%N, Responded (Entries {[ "bitcoin" := value bitcoinPrices ]}))
  end.

(** The server answers with status 500. *)
Definition brokenServer (n : nat) : N * reply := (80%N, Rejected status500).

Definition afterBitcoin : World :=
  (fetchMoreInfo (H := referenceHost) busyServer "bitcoin"
     (freshWorld 1000000)).2.

(** Then ethereum is asked for: 429 twice. *)
Definition afterEthereum : World :=
  (fetchMoreInfo (H := referenceHost) busyServer "ethereum" afterBitcoin).2.

(** *** The batched quote of CryptoCompare *)

(** [{ USD?: number }] *)
Record Quote := { USD : nullable number }.

Inductive quoteReply :=
| QuoteResponded (entries : list (string * nullable Quote))
| QuoteRejected (e : AxiosError).

Definition comma : string := ",".

Section Quotes.
Context `{Runtime}.

(** The quote server answers the one request made with [fsyms]. *)
Variable quoteServer : string → quoteReply.

Definition collectQuote (out : gmap string number)
    (entry : string * nullable Quote) : gmap string number :=
  match entry with
  | (sym, value q) =>
      match USD q with
      | value p => <[toUpperCase sym := p]> out
      | _ => out
      end
  | _ => out
  end.

Definition fetchPricesUsdCryptoCompare (symbols : list string)
  : thrown + gmap string number :=
  if decide (length symbols = 0%nat) then inr ∅
  else
    let fsyms := String.concat comma (toUpperCase <$> symbols) in
    match quoteServer fsyms with
    | QuoteResponded entries => inr (foldl collectQuote ∅ entries)
    | QuoteRejected e =>
        if hasStatus e 429 then
          inl (PlainError "Too many requests (rate limit). Try again in a moment.")
        else if bool_decide (code e = Some "ERR_NETWORK")
                || String.eqb (message e) "Network Error" then
          inl (PlainError "Network error. Check your connection or try again later.")
        else inl (Axios e)
    end.

End Quotes.

End Api.

(** ** pages/Reports.tsx *)

Module Reports.
Import JS Api.

(** The fields of a coin of the list that the page reads. *)
Record Coin := {
  id : string;
  symbol : string;
  name : string;
}.

(** The values of a chart point: [string | number]. *)
Inductive cell :=
| Label (s : string)
| Price (p : number).

(** The component state the poller writes. *)
Record ReportsState := {
  priceHistory : list (gmap string cell);
  loading : bool;
  error : option string;
}.

Definition initialReports : ReportsState :=
  {| priceHistory := []; loading := true; error := None |}.

Definition MAX_DATA_POINTS : nat := 30.

(** [coins.find((item) => item.id === coinId)] *)
Definition findCoin (coins : list Coin) (coinId : string) : option Coin :=
  List.find (λ item, String.eqb (id item) coinId) coins.

(** [next.slice(-n)] for a positive [n] *)
Definition sliceLast {A} (n : nat) (l : list A) : list A :=
  drop (length l - n) l.

(** The updater handed to [setPriceHistory]. *)
Definition appendPoint (prev : list (gmap string cell))
    (point : gmap string cell) : list (gmap string cell) :=
  let next := prev ++ [point] in
  if decide (MAX_DATA_POINTS < length next)
  then sliceLast MAX_DATA_POINTS next
  else next.

Section Poller.
Context `{Runtime}.
Variable quoteServer : string → quoteReply.

(** [coin ? coin.symbol.toUpperCase() : coinId.toUpperCase()] *)
Definition symbolOf (coins : list Coin) (coinId : string) : string :=
  match findCoin coins coinId with
  | Some coin => toUpperCase (symbol coin)
  | None => toUpperCase coinId
  end.

(** One step of the [forEach] that fills the point. The point is an
    object literal: an assignment under the key [__proto__] goes to the
    setter it inherits, which ignores a Number, so the point gets no entry
    for that key. Every other key becomes a property of the point. *)
Definition recordPrice (coins : list Coin) (pricesBySymbol : gmap string number)
    (point : gmap string cell) (coinId : string) : gmap string cell :=
  if String.eqb coinId "__proto__" then point
  else
    <[coinId := Price (default zero (pricesBySymbol !! symbolOf coins coinId))]>
      point.

Definition buildPoint (time : string) (favoriteIds : list string)
    (coins : list Coin) (pricesBySymbol : gmap string number)
  : gmap string cell :=
  foldl (recordPrice coins pricesBySymbol) {[ "time" := Label time ]}
    favoriteIds.

(** One run of [fetchAndAppend]; [time] is [formatTime(new Date())] at the
    moment the answer arrives. Whatever is thrown here is an [Error], so
    the message shown is its own. *)
Definition fetchAndAppend (favoriteIds : list string) (coins : list Coin)
    (time : string) (st : ReportsState) : ReportsState :=
  if decide (length favoriteIds = 0) then st
  else
    let symbols := symbolOf coins <$> favoriteIds in
    match fetchPricesUsdCryptoCompare quoteServer symbols with
    | inr pricesBySymbol =>
        let point := buildPoint time favoriteIds coins pricesBySymbol in
        {| priceHistory := appendPoint (priceHistory st) point;
           loading := false;
           error := None |}
    | inl err =>
        {| priceHistory := priceHistory st;
           loading := false;
           error := Some (thrownMessage err) |}
    end.

End Poller.

(** A run of ticks: each tick has its own favourites, coin list, server
    answer and time label. *)
Record tick := {
  tickFavorites : list string;
  tickCoins : list Coin;
  tickServer : string → quoteReply;
  tickTime : string;
}.

Definition runTick `{Runtime} (st : ReportsState) (t : tick) : ReportsState :=
  fetchAndAppend (tickServer t) (tickFavorites t) (tickCoins t) (tickTime t) st.

Definition runTicks `{Runtime} (st : ReportsState) (ts : list tick)
  : ReportsState :=
  foldl runTick st ts.

(** A tick that has favourites and whose batched request is answered. *)
Definition succeeds `{Runtime} (t : tick) : Prop :=
  tickFavorites t ≠ [] ∧
  ∃ prices,
    fetchPricesUsdCryptoCompare (tickServer t)
      (symbolOf (tickCoins t) <$> tickFavorites t) = inr prices.

(** The point a tick adds to the history, if it adds one. *)
Definition tickPoint `{Runtime} (t : tick) : option (gmap string cell) :=
  if decide (length (tickFavorites t) = 0) then None
  else
    match fetchPricesUsdCryptoCompare (tickServer t)
            (symbolOf (tickCoins t) <$> tickFavorites t) with
    | inr prices =>
        Some (buildPoint (tickTime t) (tickFavorites t) (tickCoins t) prices)
    | inl _ => None
    end.

(** *** Ticks used as examples *)

Definition quoted (sym : string) (usd : Z) : string * nullable Quote :=
  (sym, value {| USD := value (Finite (inject_Z usd)) |}).

(** A server that answers the request for BTC and ETH with both quotes. *)
Definition bothQuoted (fsyms : string) : quoteReply :=
  if String.eqb fsyms "BTC,ETH"
  then QuoteResponded [quoted "BTC" 50000; quoted "ETH" 3000]
  else QuoteRejected {| status := Some 400%Z; message := "Bad Request";
                        code := Some "ERR_BAD_REQUEST" |}.

(** A server whose answer lacks ETH. *)
Definition onlyBtcQuoted (fsyms : string) : quoteReply :=
  QuoteResponded [quoted "BTC" 50000].

(** A server that is rate limited. *)
Definition rateLimited (fsyms : string) : quoteReply :=
  QuoteRejected {| status := Some 429%Z;
                   message := "Request failed with status code 429";
                   code := Some "ERR_BAD_REQUEST" |}.

Definition tickAt (server : string → quoteReply) (time : string) : tick :=
  {| tickFavorites := ["btc"; "eth"]; tickCoins := [];
     tickServer := server; tickTime := time |}.

End Reports.

(** ** pages/Home.tsx: the handlers around the favourites *)

Module Home.
Import Favorites.

(** The favourites of the store and the two pieces of component state the
    handlers write. *)
Record HomeState := {
  favorites : FavoritesState;
  pendingCoinId : option string;
  isModalOpen : bool;
}.

Definition withFavorites (f : FavoritesState) (st : HomeState) : HomeState :=
  {| favorites := f; pendingCoinId := pendingCoinId st;
     isModalOpen := isModalOpen st |}.

(** [confirmed] is the answer of [window.confirm], asked only when the
    coin is selected. *)
Definition handleToggle (coinId : string) (confirmed : bool) (st : HomeState)
  : HomeState :=
  if includes (selectedIds (favorites st)) coinId then
    if negb confirmed then st
    else withFavorites (toggleFavorite coinId (favorites st)) st
  else if decide (MAX_FAVORITES ≤ length (selectedIds (favorites st))) then
    {| favorites := favorites st; pendingCoinId := Some coinId;
       isModalOpen := true |}
  else withFavorites (toggleFavorite coinId (favorites st)) st.

(** [!pendingCoinId] holds for [null] and for the empty string. *)
Definition handleReplace (removeCoinId : string) (st : HomeState) : HomeState :=
  match pendingCoinId st with
  | None => st
  | Some pending =>
      if decide (pending = "") then st
      else {| favorites := replaceFavorite removeCoinId pending (favorites st);
              pendingCoinId := None; isModalOpen := false |}
  end.

Definition handleCloseModal (st : HomeState) : HomeState :=
  {| favorites := favorites st; pendingCoinId := None; isModalOpen := false |}.

Inductive event :=
| Toggle (coinId : string) (confirmed : bool)
| Replace (removeCoinId : string)
| CloseModal.

Definition handle (st : HomeState) (ev : event) : HomeState :=
  match ev with
  | Toggle coinId confirmed => handleToggle coinId confirmed st
  | Replace removeCoinId => handleReplace removeCoinId st
  | CloseModal => handleCloseModal st
  end.

Definition handleAll (st : HomeState) (evs : list event) : HomeState :=
  foldl handle st evs.

End Home.

(** ** store/index.ts: writing the favourites back *)

Module Persist.
Import Favorites Store.

Section Save.
Variable FAVORITES_STORAGE_KEY : string.

(** [JSON.stringify] on an array of strings. *)
Variable JSON_stringify : list string → string.

(** The store subscriber. [localStorage] is [None] when the browser refuses
    access; [quotaExceeded] says that [setItem] throws. Both failures are
    caught and ignored. *)
Definition saveFavorites (quotaExceeded : bool) (state : FavoritesState)
    (localStorage : option (gmap string string))
  : option (gmap string string) :=
  match localStorage with
  | None => None
  | Some items =>
      if quotaExceeded then Some items
      else Some (<[FAVORITES_STORAGE_KEY :=
                     JSON_stringify (selectedIds state)]> items)
  end.

End Save.

(** *** A serializer and a parser for one list, used as an example *)

Definition commaJoin (ids : list string) : string := String.concat "," ids.

Definition parseBtcEth (raw : string) : option json :=
  if String.eqb raw "btc,eth" then Some (JArray [JString "btc"; JString "eth"])
  else None.

End Persist.

(** ** config/env.ts *)

Module Env.
Import JS.

(** A value of [import.meta.env]: a string, or something else. *)
Inductive envValue :=
| EnvString (s : string)
| EnvOther.

Definition COINGECKO_API_URL : string := "VITE_COINGECKO_API_URL".
Definition OPENAI_API_KEY : string := "VITE_OPENAI_API_KEY".
Definition AI_MODEL : string := "VITE_AI_MODEL".

Definition PLACEHOLDER_VALUES : list string :=
  [""; "your_key"; "YOUR_API_KEY_HERE"; "your_api_key_here"].

(** [PLACEHOLDER_VALUES.has(s)] *)
Definition isPlaceholder (s : string) : bool :=
  bool_decide (s ∈ PLACEHOLDER_VALUES).

Section Config.
Context `{Runtime}.
Variable env : gmap string envValue.

Definition getEnv (key : string) : option string :=
  match env !! key with
  | Some (EnvString s) => Some s
  | _ => None
  end.

Definition getCoinGeckoApiUrl : string :=
  default "https://api.coingecko.com/api/v3" (getEnv COINGECKO_API_URL).

Definition getOpenAiApiKey : string := default "" (getEnv OPENAI_API_KEY).

Definition getAiModel : string := default "gpt-4o-mini" (getEnv AI_MODEL).

Definition isOpenAiKeyConfigured : bool :=
  let key := getOpenAiApiKey in
  (0 <? String.length key)%nat && negb (isPlaceholder (trim key)).

Definition isCoinGeckoUrlConfigured : bool :=
  match getEnv COINGECKO_API_URL with
  | Some url => (0 <? String.length (trim url))%nat
  | None => false
  end.

Definition isAiModelConfigured : bool :=
  match getEnv AI_MODEL with
  | Some model => (0 <? String.length (trim model))%nat
  | None => false
  end.

(** [!value || value.trim().length === 0] *)
Definition blank (v : option string) : bool :=
  match v with
  | None => true
  | Some s => (String.length s =? 0)%nat || (String.length (trim s) =? 0)%nat
  end.

Record EnvValidationResult := { valid : bool; missing : list string }.

Definition validateEnv : EnvValidationResult :=
  let missing0 : list string := [] in
  let missing1 :=
    if blank (getEnv COINGECKO_API_URL)
    then missing0 ++ [COINGECKO_API_URL] else missing0 in
  let openAiKey := getOpenAiApiKey in
  let missing2 :=
    if (String.length openAiKey =? 0)%nat
       || (String.length (trim openAiKey) =? 0)%nat
       || isPlaceholder (trim openAiKey)
    then missing1 ++ [OPENAI_API_KEY] else missing1 in
  let missing3 :=
    if blank (getEnv AI_MODEL) then missing2 ++ [AI_MODEL] else missing2 in
  {| valid := (length missing3 =? 0)%nat; missing := missing3 |}.

End Config.

(** *** An environment used as an example *)
Definition exampleEnv : gmap string envValue :=
  {[ COINGECKO_API_URL := EnvString "https://api.coingecko.com/api/v3";
     OPENAI_API_KEY := EnvString "your_key";
     AI_MODEL := EnvString "gpt-4o-mini" ]}.

End Env.

(** ** store/coinsSlice.ts and components/CoinCard.tsx *)

Module CoinsSlice.
Import JS Api.

(** An entry of [moreInfo]. *)
Record MoreInfo := {
  loading : bool;
  error : option string;
  data : option Prices;
}.

Record CoinsState := {
  items : list Reports.Coin;
  listLoading : bool;
  listError : option string;
  searchTerm : string;
  moreInfo : gmap string MoreInfo;
}.

Definition initialState : CoinsState :=
  {| items := []; listLoading := false; listError := None;
     searchTerm := ""; moreInfo := ∅ |}.

Definition setMoreInfo (m : gmap string MoreInfo) (st : CoinsState)
  : CoinsState :=
  {| items := items st; listLoading := listLoading st;
     listError := listError st; searchTerm := searchTerm st; moreInfo := m |}.

Definition setSearchTerm (term : string) (st : CoinsState) : CoinsState :=
  {| items := items st; listLoading := listLoading st;
     listError := listError st; searchTerm := term; moreInfo := moreInfo st |}.

(** The reducers of [fetchTopCoins]. *)
Definition topCoinsPending (st : CoinsState) : CoinsState :=
  {| items := items st; listLoading := true; listError := None;
     searchTerm := searchTerm st; moreInfo := moreInfo st |}.

Definition topCoinsFulfilled (payload : list Reports.Coin) (st : CoinsState)
  : CoinsState :=
  {| items := payload; listLoading := false; listError := listError st;
     searchTerm := searchTerm st; moreInfo := moreInfo st |}.

Definition topCoinsRejected (message : string) (st : CoinsState) : CoinsState :=
  {| items := items st; listLoading := false; listError := Some message;
     searchTerm := searchTerm st; moreInfo := moreInfo st |}.

(** [state.moreInfo[coinId] = entry] on the draft of a reducer. Under the
    key [__proto__] the assignment goes to the setter the object inherits,
    which the draft refuses: the reducer throws ([None]). Every other key
    becomes a property of [moreInfo]. *)
Definition assignMoreInfo (coinId : string) (entry : MoreInfo)
    (st : CoinsState) : option CoinsState :=
  if String.eqb coinId "__proto__" then None
  else Some (setMoreInfo (<[coinId := entry]> (moreInfo st)) st).

(** The reducers of [fetchCoinPrices]. *)
Definition coinPricesPending (coinId : string) (st : CoinsState)
  : option CoinsState :=
  assignMoreInfo coinId
    {| loading := true; error := None;
       data := moreInfo st !! coinId ≫= data |} st.

Definition coinPricesFulfilled (coinId : string) (details : Prices)
    (st : CoinsState) : option CoinsState :=
  assignMoreInfo coinId
    {| loading := false; error := None; data := Some details |} st.

Definition coinPricesRejected (coinId : string) (message : string)
    (st : CoinsState) : option CoinsState :=
  assignMoreInfo coinId
    {| loading := false; error := Some message; data := None |} st.

(** The store keeps its state when the reducer of an action throws. *)
Definition reduce (r : CoinsState → option CoinsState) (st : CoinsState)
  : CoinsState :=
  default st (r st).

(** The answer to the one request of [fetchTopCoins]. *)
Inductive listReply :=
| ListResponded (coins : list Reports.Coin)
| ListRejected (e : AxiosError).

(** Dispatching [fetchTopCoins()]: pending, the request, then fulfilled or
    rejected with the message of the error, which has gone through the
    interceptor. *)
Definition dispatchFetchTopCoins (r : listReply) (st : CoinsState)
  : CoinsState :=
  let st := topCoinsPending st in
  match r with
  | ListResponded coins => topCoinsFulfilled coins st
  | ListRejected e =>
      topCoinsRejected (message (interceptor CoinsMarkets e)) st
  end.

Section Thunk.
Context `{Runtime}.
Variable network : nat → N * reply.

(** Dispatching [fetchCoinPrices(coinId)]. Everything [fetchMoreInfo]
    throws is an [Error], so the message shown is its own. The thunk
    dispatches the pending action before it calls [fetchMoreInfo]: when the
    pending reducer throws, the call is not made, and the rejected action
    the thunk dispatches instead meets the same throw, so the store is left
    as it was. *)
Definition dispatchFetchCoinPrices (coinId : string)
    (sw : CoinsState * World) : CoinsState * World :=
  match coinPricesPending coinId sw.1 with
  | None => sw
  | Some st =>
      match fetchMoreInfo network coinId sw.2 with
      | (inr details, w') => (reduce (coinPricesFulfilled coinId details) st, w')
      | (inl err, w') =>
          (reduce (coinPricesRejected coinId (thrownMessage err)) st, w')
      end
  end.

(** [handleMoreInfo] of a card: the card flips open or shut, and the
    prices are asked for when it opens with nothing loaded or loading. *)
Definition wantsFetch (nextOpen : bool) (entry : option MoreInfo) : bool :=
  nextOpen
  && negb (bool_decide (is_Some (entry ≫= data)))
  && negb (default false (loading <$> entry)).

Definition handleMoreInfo (coinId : string) (isOpen : bool)
    (sw : CoinsState * World) : bool * (CoinsState * World) :=
  let nextOpen := negb isOpen in
  if wantsFetch nextOpen (moreInfo sw.1 !! coinId)
  then (nextOpen, dispatchFetchCoinPrices coinId sw)
  else (nextOpen, sw).

End Thunk.

End CoinsSlice.

(** ** services/api.ts: [fetchCoinMarketData], and the payload that
    pages/AIRecommendation.tsx builds from it *)

Module MarketData.
Import JS AiService.

(** [{ usd?: number }] *)
Record UsdField := { usdOf : nullable number }.

(** [number | { usd?: number } | null], or absent. *)
Inductive change :=
| ChangeNull
| ChangeUndefined
| ChangeNumber (n : number)
| ChangeNested (c : UsdField).

Record CoinDetailMarketData := {
  current_price : nullable UsdField;
  market_cap : nullable UsdField;
  total_volume : nullable UsdField;
  price_change_percentage_24h : nullable number;
  price_change_percentage_30d_in_currency : change;
  price_change_percentage_60d_in_currency : change;
  price_change_percentage_200d_in_currency : change;
}.

(** [{}] *)
Definition emptyMarketData : CoinDetailMarketData :=
  {| current_price := undefined; market_cap := undefined;
     total_volume := undefined; price_change_percentage_24h := undefined;
     price_change_percentage_30d_in_currency := ChangeUndefined;
     price_change_percentage_60d_in_currency := ChangeUndefined;
     price_change_percentage_200d_in_currency := ChangeUndefined |}.

Record CoinDetailResponse := {
  responseName : nullable string;
  responseSymbol : nullable string;
  market_data : nullable CoinDetailMarketData;
}.

Record CoinMarketDataForAiInput := {
  inName : string;
  inSymbol : string;
  inCurrentPriceUsd : number;
  inPriceChange24h : nullable number;
  inPriceChange30d : nullable number;
  inPriceChange60d : nullable number;
  inPriceChange200d : nullable number;
  inTotalVolume : number;
  inMarketCap : number;
}.

(** [x ?? null] *)
Definition orNull {A} (x : nullable A) : nullable A :=
  match x with value a => value a | _ => null end.

(** [typeof raw === 'number' ? raw : raw?.usd ?? null] *)
Definition changeOf (raw : change) : nullable number :=
  match raw with
  | ChangeNumber n => value n
  | ChangeNested c => orNull (usdOf c)
  | _ => null
  end.

(** [field?.usd ?? 0] *)
Definition usdOrZero (field : nullable UsdField) : number :=
  match field with
  | value f => orElse (usdOf f) zero
  | _ => zero
  end.

Definition fetchCoinMarketData `{Runtime} (coinId : string)
    (responseData : CoinDetailResponse) : CoinMarketDataForAiInput :=
  let marketData := orElse (market_data responseData) emptyMarketData in
  let priceChange30d :=
    changeOf (price_change_percentage_30d_in_currency marketData) in
  let priceChange60d :=
    changeOf (price_change_percentage_60d_in_currency marketData) in
  let priceChange200d :=
    changeOf (price_change_percentage_200d_in_currency marketData) in
  {| inName := orElse (responseName responseData) coinId;
     inSymbol := toUpperCase (orElse (responseSymbol responseData) "???");
     inCurrentPriceUsd := usdOrZero (current_price marketData);
     inPriceChange24h := orNull (price_change_percentage_24h marketData);
     inPriceChange30d := orNull priceChange30d;
     inPriceChange60d := orNull priceChange60d;
     inPriceChange200d := orNull priceChange200d;
     inTotalVolume := usdOrZero (total_volume marketData);
     inMarketCap := usdOrZero (market_cap marketData) |}.

(** [Number(x) || 0] on a Number: NaN and zero are falsy. *)
Definition numberOrZero (x : number) : number :=
  match x with
  | NaN => zero
  | Finite q => if Qeq_bool q 0 then zero else x
  | _ => x
  end.

(** [v != null ? Number(v) : null] *)
Definition numberOrNull (v : nullable number) : nullable number := orNull v.

(** [payloadForAi] of [handleGetRecommendation]; the name and the symbol
    of the market data are strings, so their fallbacks are not taken. *)
Definition payloadForAi (marketData : CoinMarketDataForAiInput)
  : CoinMarketDataForAi :=
  {| name := inName marketData;
     symbol := inSymbol marketData;
     currentPriceUsd := numberOrZero (inCurrentPriceUsd marketData);
     priceChange24h := numberOrNull (inPriceChange24h marketData);
     priceChange30d := numberOrNull (inPriceChange30d marketData);
     priceChange60d := numberOrNull (inPriceChange60d marketData);
     priceChange200d := numberOrNull (inPriceChange200d marketData);
     totalVolume := numberOrZero (inTotalVolume marketData);
     marketCap := numberOrZero (inMarketCap marketData) |}.

(** *** A response used as an example: the 30d change is a bare number,
    the 60d one is nested, the 200d one is missing. *)
Definition exampleDetail : CoinDetailResponse :=
  {| responseName := value "Bitcoin"; responseSymbol := value "btc";
     market_data := value
       {| current_price := value {| usdOf := value (Finite 64250) |};
          market_cap := undefined;
          total_volume := value {| usdOf := undefined |};
          price_change_percentage_24h := value (Finite (325 # 100));
          price_change_percentage_30d_in_currency :=
            ChangeNumber (Finite (-(12 # 10)));
          price_change_percentage_60d_in_currency :=
            ChangeNested {| usdOf := value (Finite 4) |};
          price_change_percentage_200d_in_currency := ChangeUndefined |} |}.

End MarketData.

(** ** services/aiService.ts: asking for the recommendation *)

Module Recommendation.
Import JS Api AiService.

(** [response.data] of the chat relay: [choices] holds, per choice, its
    [message?.content]; [errorMessage] is [error?.message]. *)
Record ChatData := {
  choices : nullable (list (nullable string));
  errorMessage : nullable string;
}.

(** How the one request ends: an answer, a rejection by axios with its
    status and [response?.data?.error?.message] when that is a string, or
    anything else thrown. *)
Inductive chatReply :=
| ChatResponded (body : nullable ChatData)
| ChatRejected (status : option Z) (apiMessage : option string)
| ChatThrown.

Record AiRecommendationResult := {
  content : string;
  error : option string;
}.

Definition UNAVAILABLE : string :=
  "Data currently unavailable. Please try again later.".

Definition NOT_CONFIGURED : string :=
  "AI API key not configured. Set VITE_OPENAI_API_KEY and VITE_AI_MODEL in your .env file (see .env.example).".

Definition promptHead : string :=
  "You are a concise crypto analyst. Based on the following market data:"
  +:+ newline +:+ newline.

Definition promptTail : string :=
  newline +:+ newline +:+ "Provide:" +:+ newline
  +:+ "1. A clear recommendation: either " +:+ String "034"%char "Buy"
  +:+ String "034"%char " or " +:+ String "034"%char "No Buy"
  +:+ String "034"%char "." +:+ newline
  +:+ "2. One detailed explanatory paragraph (2-4 sentences) justifying your recommendation based on price, market cap, volume, and the 24h, 30d, 60d, and 200d price changes.".

Definition buildRecommendationPrompt `{Runtime} (data : CoinMarketDataForAi)
  : string :=
  promptHead +:+ formatMarketData data +:+ promptTail.

(** [response.data?.choices?.[0]?.message?.content] *)
Definition firstContent (body : nullable ChatData) : nullable string :=
  match body with
  | value d =>
      match choices d with
      | value (c :: _) => c
      | _ => undefined
      end
  | _ => undefined
  end.

(** [response.data?.error?.message] *)
Definition bodyError (body : nullable ChatData) : nullable string :=
  match body with
  | value d => errorMessage d
  | _ => undefined
  end.

Section Ask.
Context `{Runtime}.

(** Whether the key is configured (config/env.ts), and the relay: the
    answer to the request that carries a prompt. *)
Variable configured : bool.
Variable relay : string → chatReply.

(** The result, and the prompts that were sent. *)
Definition getAiRecommendation (marketData : CoinMarketDataForAi)
  : AiRecommendationResult * list string :=
  if negb configured then
    ({| content := ""; error := Some NOT_CONFIGURED |}, [])
  else
    let prompt := buildRecommendationPrompt marketData in
    (match relay prompt with
     | ChatResponded body =>
         let content :=
           match firstContent body with
           | value raw => trim raw
           | _ => ""
           end in
         if negb (String.eqb content "") then
           {| content := content; error := None |}
         else
           {| content := "";
              error := Some (orElse (bodyError body) "No response from AI") |}
     | ChatRejected status apiMessage =>
         if bool_decide (status = Some 429%Z) then
           {| content := ""; error := Some UNAVAILABLE |}
         else
           match apiMessage with
           | Some msg =>
               if negb (String.eqb msg "")
               then {| content := ""; error := Some msg |}
               else {| content := ""; error := Some UNAVAILABLE |}
           | None => {| content := ""; error := Some UNAVAILABLE |}
           end
     | ChatThrown => {| content := ""; error := Some UNAVAILABLE |}
     end, [prompt]).

End Ask.

(** *** Relays used as examples *)
Definition answeringRelay (prompt : string) : chatReply :=
  ChatResponded (value {| choices := value [value "  Buy. Momentum is up.  "];
                          errorMessage := undefined |}).

Definition silentRelay (prompt : string) : chatReply :=
  ChatResponded (value {| choices := value []; errorMessage := undefined |}).

End Recommendation.

(** ** services/api.ts: the paths through [fetchMoreInfo] *)

Module FetchPaths.
Import JS Api.
Local Open Scope Z_scope.

(** The world in which the retry goes out, if there is one. *)
Definition retryWorld (err : thrown) (w : World) : World :=
  advance RETRY_WAIT_MS (if isRateLimited err then engageLock w else w).

Section Paths.
Context `{Runtime}.
Variable network : nat → N * reply.

(** The shapes a fetch can take: served from the cache, refused by the
    lock, one request, or two. *)
Inductive fetchShape (coinId : string) (w : World)
  : (thrown + Prices) * World → Prop :=
| ShapeCached cached :
    cacheLookup (normalize coinId) w = Some cached →
    fetchShape coinId w (inr cached, w)
| ShapeBusy :
    cacheLookup (normalize coinId) w = None → lockActive w = true →
    fetchShape coinId w (inl (PlainError BUSY_MESSAGE), w)
| ShapeOnce :
    cacheLookup (normalize coinId) w = None → lockActive w = false →
    (∀ err, (requestAndStore network (normalize coinId) (ready w)).1 = inl err →
            isRetryableError err = false) →
    fetchShape coinId w (requestAndStore network (normalize coinId) (ready w))
| ShapeTwice err :
    cacheLookup (normalize coinId) w = None → lockActive w = false →
    (requestAndStore network (normalize coinId) (ready w)).1 = inl err →
    isRetryableError err = true →
    fetchShape coinId w
      (requestAndStore network (normalize coinId)
         (retryWorld err (requestAndStore network (normalize coinId) (ready w)).2)).

End Paths.

End FetchPaths.

(** ** pages/Home.tsx: the coins in view; pages/AIRecommendation.tsx: the
    coins to choose from *)

Module HomeView.
Import JS Reports.

(** [s.includes(term)] *)
Fixpoint includesText (s term : string) : bool :=
  String.prefix term s
  || match s with
     | EmptyString => false
     | String _ rest => includesText rest term
     end.

(** [favorites.includes(c.id)] *)
Definition isFavorite (favorites : list string) (c : Coin) : bool :=
  bool_decide (id c ∈ favorites).

Section View.
Context `{Runtime}.

(** [(coins) => sortCoins(coins, sortBy)] for the chosen order: a sorted
    copy. *)
Variable sortCoins : list Coin → list Coin.

Definition matchesTerm (term : string) (c : Coin) : bool :=
  includesText (toLowerCase (name c)) term
  || includesText (toLowerCase (symbol c)) term.

(** [term ? items.filter(...) : items] *)
Definition filtered (items : list Coin) (searchTerm : string) : list Coin :=
  let term := toLowerCase (trim searchTerm) in
  if negb (String.eqb term "")
  then List.filter (matchesTerm term) items
  else items.

Definition pinned (items : list Coin) (searchTerm : string)
    (favorites : list string) : list Coin :=
  List.filter (isFavorite favorites) (filtered items searchTerm).

Definition rest (items : list Coin) (searchTerm : string)
    (favorites : list string) : list Coin :=
  List.filter (λ c, negb (isFavorite favorites c)) (filtered items searchTerm).

Definition filteredCoins (items : list Coin) (searchTerm : string)
    (favorites : list string) : list Coin :=
  sortCoins (pinned items searchTerm favorites)
  ++ sortCoins (rest items searchTerm favorites).

Definition hasPinnedInView (items : list Coin) (searchTerm : string)
    (favorites : list string) : bool :=
  bool_decide (0 < length (pinned items searchTerm favorites))%nat.

End View.

(** [favoriteIds.map((id) => coins.find((c) => c.id === id))
      .filter((c) => c != null)] *)
Definition selectedCoins (coins : list Coin) (favoriteIds : list string)
  : list Coin :=
  omap (findCoin coins) favoriteIds.

(** *** A list used as an example *)
Definition exampleCoins : list Coin :=
  [ {| id := "bitcoin"; symbol := "btc"; name := "Bitcoin" |};
    {| id := "ethereum"; symbol := "eth"; name := "Ethereum" |};
    {| id := "bitcoin-cash"; symbol := "bch"; name := "Bitcoin Cash" |};
    {| id := "tether"; symbol := "usdt"; name := "Tether" |} ].

End HomeView.

(** ** More sessions used as examples *)

Module Sessions.
Import JS Api.
Local Open Scope Z_scope.

(** The server answers, but knows no coin. *)
Definition sparseServer (n : nat) : N * reply :=
  (100%N, Responded (Entries ∅)).

(** The server answers with something that is no object. *)
Definition garbledServer (n : nat) : N * reply :=
  (100%N, Responded NotAnObject).

(** A network error that carries the message only, as older versions of
    axios report it. *)
Definition messageOnlyNetworkError : AxiosError :=
  {| status := None; message := "Network Error"; code := None |}.

(** A freshly loaded module with one listener, the lock just set. *)
Definition lockedWithListener : World :=
  engageLock (subscribeToMoreInfoLock 1 (freshWorld 1000000)).

End Sessions.

(** * Properties *)

(** ** The favourites store *)

Section FavoritesFacts.
Import Favorites.

Lemma without_app coinId (l1 l2 : list string) :
  without coinId (l1 ++ l2) = without coinId l1 ++ without coinId l2.
Proof. unfold without. apply filter_app. Qed.

Lemma without_cons_keep coinId x (ids : list string) :
  x ≠ coinId → without coinId (x :: ids) = x :: without coinId ids.
Proof. intros Hne. unfold without. by rewrite filter_cons_True. Qed.

Lemma without_absent coinId (ids : list string) :
  coinId ∉ ids → without coinId ids = ids.
Proof.
  intros Hnot. unfold without. induction ids as [|x ids IH]; [done|].
  apply not_elem_of_cons in Hnot as [Hne Hnot].
  rewrite filter_cons_True by congruence. by rewrite IH.
Qed.

Lemma without_length coinId (ids : list string) :
  length (without coinId ids) ≤ length ids.
Proof. unfold without. apply length_filter. Qed.

Lemma without_NoDup coinId (ids : list string) :
  NoDup ids → NoDup (without coinId ids).
Proof. unfold without. apply NoDup_filter. Qed.

Lemma elem_of_without coinId x (ids : list string) :
  x ∈ without coinId ids ↔ x ≠ coinId ∧ x ∈ ids.
Proof. unfold without. by rewrite list_elem_of_filter. Qed.

Lemma includes_true ids x : includes ids x = true ↔ x ∈ ids.
Proof. unfold includes. apply bool_decide_eq_true. Qed.

Lemma includes_false ids x : includes ids x = false ↔ x ∉ ids.
Proof. unfold includes. apply bool_decide_eq_false. Qed.

(** Every action keeps the members it does not take out, in their order,
    as the front of the new list, and puts at most one identifier, which
    is not among them, behind them. *)
Lemma reducer_shape (s : FavoritesState) (a : action) :
  ∃ added,
    selectedIds (reducer s a) = without (evicted a) (selectedIds s) ++ added
    ∧ (added = [] ∨
       ∃ x, added = [x] ∧ ¬ (x ∈ without (evicted a) (selectedIds s))
            ∧ (length (without (evicted a) (selectedIds s)) < MAX_FAVORITES)).
Proof.
  destruct a as [coinId | removeId addId]; simpl.
  - unfold toggleFavorite.
    destruct (includes (selectedIds s) coinId) eqn:Hin; simpl.
    + exists []. rewrite app_nil_r. auto.
    + apply includes_false in Hin.
      rewrite (without_absent _ _ Hin).
      case_decide; simpl.
      * exists [coinId]. split; [done|]. right. eauto.
      * exists []. rewrite app_nil_r. auto.
  - unfold replaceFavorite; simpl.
    destruct (includes (without removeId (selectedIds s)) addId) eqn:Hin; simpl.
    + exists []. rewrite app_nil_r. auto.
    + apply includes_false in Hin.
      case_bool_decide; simpl.
      * exists [addId]. split; [done|]. right. eauto.
      * exists []. rewrite app_nil_r. auto.
Qed.

Lemma reducer_wellFormed (s : FavoritesState) (a : action) :
  wellFormed s → wellFormed (reducer s a).
Proof.
  intros [Hlen Hnd]. unfold wellFormed.
  destruct (reducer_shape s a) as (added & -> & Hadded).
  pose proof (without_length (evicted a) (selectedIds s)) as Hle.
  pose proof (without_NoDup (evicted a) _ Hnd) as Hnd'.
  destruct Hadded as [-> | (x & -> & Hx & Hlt)].
  - rewrite app_nil_r. split; [lia | done].
  - rewrite length_app. simpl. split; [unfold MAX_FAVORITES in *; lia|].
    apply NoDup_app. split; [done|]. split; [|apply NoDup_singleton].
    intros y Hy Hy'. apply list_elem_of_singleton in Hy'. by subst.
Qed.

Lemma dispatchAll_wellFormed (acts : list action) (s : FavoritesState) :
  wellFormed s → wellFormed (dispatchAll s acts).
Proof.
  revert s. induction acts as [|a acts IH]; intros s Hs; [done|].
  simpl. apply IH. by apply reducer_wellFormed.
Qed.

Lemma precedes_kept (ids added : list string) (gone x y : string) :
  x ≠ gone → y ≠ gone → precedes ids x y →
  precedes (without gone ids ++ added) x y.
Proof.
  intros Hx Hy (front & mid & back & ->).
  exists (without gone front), (without gone mid), (without gone back ++ added).
  rewrite without_app, (without_cons_keep gone x) by done.
  rewrite without_app, (without_cons_keep gone y) by done.
  rewrite <- app_assoc. simpl. f_equal. f_equal.
  by rewrite <- app_assoc.
Qed.

(** C1. Whatever sequence of toggle and replace actions is dispatched from
    a list of at most five distinct identifiers, the list reached has at
    most five identifiers and no duplicate; and the next action leaves the
    members it does not remove in front, in the order they had, with the
    identifier it inserts, if any, behind them. *)
Theorem favorites_bounded_distinct_ordered
    (acts : list action) (s : FavoritesState) :
  wellFormed s →
  let s' := dispatchAll s acts in
  (length (selectedIds s') ≤ 5 ∧ NoDup (selectedIds s'))
  ∧ ∀ a : action,
      (∃ added, selectedIds (reducer s' a)
                = without (evicted a) (selectedIds s') ++ added
                ∧ length added ≤ 1)
      ∧ ∀ x y, x ≠ evicted a → y ≠ evicted a →
               precedes (selectedIds s') x y →
               precedes (selectedIds (reducer s' a)) x y.
Proof.
  intros Hs s'. split.
  - apply (dispatchAll_wellFormed acts s Hs).
  - intros a. destruct (reducer_shape s' a) as (added & Heq & Hadded).
    split.
    + exists added. split; [done|].
      destruct Hadded as [-> | (x & -> & _)]; simpl; lia.
    + intros x y Hx Hy Hprec. rewrite Heq. by apply precedes_kept.
Qed.

Lemma favorites_bounded_distinct_ordered_witness :
  let s := {| selectedIds := ["btc"; "eth"] |} in
  let acts := [ToggleFavorite "sol"; ReplaceFavorite "btc" "ada";
               ToggleFavorite "eth"; ToggleFavorite "xrp"] in
  wellFormed s ∧
  (length (selectedIds (dispatchAll s acts)) ≤ 5
   ∧ NoDup (selectedIds (dispatchAll s acts))) ∧
  selectedIds (dispatchAll s acts) = ["sol"; "ada"; "xrp"].
Proof.
  intros s acts.
  assert (Hwf : wellFormed s).
  { split; [simpl; unfold MAX_FAVORITES; lia|].
    apply (bool_decide_unpack _). vm_compute. exact I. }
  split; [exact Hwf|]. split.
  - exact (proj1 (favorites_bounded_distinct_ordered acts s Hwf)).
  - vm_compute. reflexivity.
Defined.

Lemma without_removed (coinId : string) (ids : list string) :
  without coinId ids = removed coinId ids.
Proof.
  unfold without, removed. induction ids as [|x ids IH]; [done|].
  simpl. destruct (String.eqb_spec x coinId) as [-> | Hne]; simpl.
  - by rewrite filter_cons_False by (by intros ?).
  - rewrite filter_cons_True by done. by rewrite IH.
Qed.

Lemma replaceFavorite_cases (removeId addId : string) (s : FavoritesState) :
  let kept := removed removeId (selectedIds s) in
  let ids' := selectedIds (replaceFavorite removeId addId s) in
  (¬ (addId ∈ kept) ∧ length kept < 5 ∧ ids' = kept ++ [addId])
  ∨ ((addId ∈ kept ∨ 5 ≤ length kept) ∧ ids' = kept).
Proof.
  intros kept ids'. unfold ids', replaceFavorite. cbn [selectedIds].
  rewrite without_removed. fold kept. unfold includes, MAX_FAVORITES.
  repeat case_bool_decide; simpl;
    solve [ left; split; [done | split; [lia | done]]
          | right; split; [by left | done]
          | right; split; [right; lia | done] ].
Qed.

Lemma elem_of_removed (coinId x : string) (ids : list string) :
  x ∈ removed coinId ids ↔ x ≠ coinId ∧ x ∈ ids.
Proof. rewrite <- without_removed. apply elem_of_without. Qed.

(** C7. [replaceFavorite] removes [removeId] if present (nothing happens
    when it is absent) and then appends [addId] only if it is not a member
    and fewer than five identifiers are left. Afterwards [removeId] is
    gone (unless it is [addId] itself), every other member is still there
    and in the order it had, and [addId] is a member exactly when it was
    one that stayed or fewer than five identifiers were left. So a list
    without duplicates stays without duplicates, an [addId] that is a
    member (and is not the one removed) is not appended, and a list of
    five that does not hold [removeId] is left as it is. *)
Theorem replaceFavorite_remove_then_append
    (removeId addId : string) (s : FavoritesState) :
  let ids := selectedIds s in
  let ids' := selectedIds (replaceFavorite removeId addId s) in
  ids' = replace_spec removeId addId ids
  ∧ (removeId ≠ addId → removeId ∉ ids')
  ∧ (∀ x, x ≠ addId → x ∈ ids' ↔ x ∈ ids ∧ x ≠ removeId)
  ∧ (∀ x y, x ≠ removeId → y ≠ removeId →
       precedes ids x y → precedes ids' x y)
  ∧ (addId ∈ ids'
     ↔ (addId ∈ ids ∧ addId ≠ removeId)
       ∨ length (removed removeId ids) < 5)
  ∧ (removeId ∉ ids →
       ids' = if bool_decide (¬ (addId ∈ ids) ∧ length ids < 5)
              then ids ++ [addId] else ids)
  ∧ (addId ∈ ids → addId ≠ removeId → ids' = removed removeId ids)
  ∧ (NoDup ids → NoDup ids')
  ∧ (removeId ∉ ids → length ids = 5 →
       replaceFavorite removeId addId s = s).
Proof.
  intros ids ids'.
  pose proof (replaceFavorite_cases removeId addId s) as Hcases.
  cbv zeta in Hcases. fold ids ids' in Hcases.
  pose proof (elem_of_removed removeId) as Hmem.
  assert (Habsent : removeId ∉ ids → removed removeId ids = ids).
  { intros Hnot. rewrite <- without_removed. by apply without_absent. }
  split; [|split; [|split; [|split; [|split; [|split; [|split; [|split]]]]]]].
  - unfold replace_spec.
    assert (Hrest : (if bool_decide (removeId ∈ ids)
                     then removed removeId ids else ids)
                    = removed removeId ids).
    { case_bool_decide; [done|]. by rewrite Habsent. }
    rewrite Hrest. clear Hrest.
    destruct Hcases as [(Hnot & Hlt & ->) | ([Hin | Hfull] & ->)];
      case_bool_decide; try done; try tauto; lia.
  - intros Hne Hin.
    destruct Hcases as [(_ & _ & Heq) | (_ & Heq)]; rewrite Heq in Hin.
    + apply elem_of_app in Hin as [Hin | Hin].
      * apply Hmem in Hin. tauto.
      * apply list_elem_of_singleton in Hin. done.
    + apply Hmem in Hin. tauto.
  - intros x Hx.
    destruct Hcases as [(_ & _ & ->) | (_ & ->)].
    + rewrite elem_of_app, list_elem_of_singleton, Hmem. tauto.
    + rewrite Hmem. tauto.
  - intros x y Hx Hy Hprec.
    destruct Hcases as [(_ & _ & ->) | (_ & ->)];
      rewrite <- without_removed.
    + by apply precedes_kept.
    + rewrite <- (app_nil_r (without removeId ids)). by apply precedes_kept.
  - destruct Hcases as [(Hnot & Hlt & ->) | ([Hin | Hfull] & ->)].
    + rewrite elem_of_app, list_elem_of_singleton. split; [by right | by right].
    + split; [|done]. intros _. left. apply Hmem in Hin. tauto.
    + rewrite Hmem. split; [tauto|]. intros [? | ?]; [tauto | lia].
  - intros Hnot. rewrite Habsent in Hcases by done.
    destruct Hcases as [(Hn & Hlt & ->) | ([Hin | Hfull] & ->)];
      case_bool_decide; try done; try tauto; lia.
  - intros Hin Hne.
    destruct Hcases as [(Hnot & _ & _) | (_ & Heq)]; [|done].
    exfalso. apply Hnot, Hmem. done.
  - intros Hnd.
    assert (Hnd' : NoDup (removed removeId ids)).
    { rewrite <- without_removed. by apply without_NoDup. }
    destruct Hcases as [(Hnot & _ & ->) | (_ & ->)]; [|done].
    apply NoDup_app. split; [done|]. split; [|apply NoDup_singleton].
    intros y Hy Hy'. apply list_elem_of_singleton in Hy'. by subst.
  - intros Hnot Hlen. rewrite Habsent in Hcases by done.
    destruct Hcases as [(_ & Hlt & _) | (_ & Heq)]; [lia|].
    unfold ids', ids in Heq. destruct s, (replaceFavorite _ _ _).
    simpl in Heq. by rewrite Heq.
Qed.

Lemma replaceFavorite_remove_then_append_witness :
  let s := {| selectedIds := ["a"; "b"; "c"; "d"; "e"] |} in
  (¬ ("z" ∈ selectedIds s) ∧ length (selectedIds s) = 5
   ∧ replaceFavorite "z" "f" s = s)
  ∧ ("b" ∈ selectedIds s ∧ "b" ≠ "d"
     ∧ selectedIds (replaceFavorite "d" "b" s) = ["a"; "b"; "c"; "e"])
  ∧ ("c" ≠ "f" ∧ ¬ ("c" ∈ selectedIds (replaceFavorite "c" "f" s)))
  ∧ (NoDup (selectedIds s)
     ∧ NoDup (selectedIds (replaceFavorite "c" "f" s))).
Proof.
  intros s.
  assert (Hz : "z" ∉ selectedIds s).
  { apply (bool_decide_unpack _). vm_compute. exact I. }
  assert (Hb : "b" ∈ selectedIds s).
  { apply (bool_decide_unpack _). vm_compute. exact I. }
  assert (Hnd : NoDup (selectedIds s)).
  { apply (bool_decide_unpack _). vm_compute. exact I. }
  assert (Hbd : "b" ≠ "d") by discriminate.
  assert (Hcf : "c" ≠ "f") by discriminate.
  split; [|split; [|split]].
  - split; [exact Hz|]. split; [reflexivity|].
    exact (proj2 (proj2 (proj2 (proj2 (proj2 (proj2 (proj2 (proj2
      (replaceFavorite_remove_then_append "z" "f" s)))))))) Hz eq_refl).
  - split; [exact Hb|]. split; [exact Hbd|].
    exact (proj1 (proj2 (proj2 (proj2 (proj2 (proj2 (proj2
      (replaceFavorite_remove_then_append "d" "b" s))))))) Hb Hbd).
  - split; [exact Hcf|].
    exact (proj1 (proj2 (replaceFavorite_remove_then_append "c" "f" s)) Hcf).
  - split; [exact Hnd|].
    exact (proj1 (proj2 (proj2 (proj2 (proj2 (proj2 (proj2 (proj2
      (replaceFavorite_remove_then_append "c" "f" s)))))))) Hnd).
Defined.

End FavoritesFacts.

(** ** Loading the persisted favourites *)

Section StoreFacts.
Import Favorites Store.

Lemma omap_asString_strings (parsed : list json) :
  Forall (λ s, JString s ∈ parsed) (omap asString parsed).
Proof.
  induction parsed as [|item parsed IH]; simpl; [constructor|].
  destruct item; simpl;
    try (eapply Forall_impl; [exact IH|]; intros; by apply list_elem_of_further).
  constructor; [apply list_elem_of_here|].
  eapply Forall_impl; [exact IH|]. intros; by apply list_elem_of_further.
Qed.

Lemma omap_asString_all_strings (ids : list string) :
  omap asString (JString <$> ids) = ids.
Proof.
  induction ids as [|x ids IH]; [done|].
  rewrite fmap_cons. simpl. by f_equal.
Qed.

(** C6, as stated, fails: an empty string is a string, and the loader keeps
    it, where the specification has it discarded. *)
Lemma load_keeps_empty_string :
  loadPersistedFavorites "favorites" parseStoredText
    (Some {[ "favorites" := storedText ]}) = [""; "a"]
  ∧ load_spec [JString ""; JString "a"] = ["a"].
Proof. split; vm_compute; reflexivity. Qed.

(** C6, amended. The loader returns the empty list when the storage cannot
    be read, holds nothing under the key, or holds text that does not parse
    to an array; from an array it drops the entries that are not strings
    (an empty string is kept) and returns the first five strings in their
    order. The array of "a" to "f" loads as "a" to "e". *)
Theorem load_first_five_strings
    (key : string) (parse : string → option json)
    (items : gmap string string) (raw : string) :
  items !! key = Some raw →
  (∀ parsed, parse raw = Some (JArray parsed) →
     let ids := loadPersistedFavorites key parse (Some items) in
     ids = take 5 (omap asString parsed)
     ∧ length ids ≤ 5
     ∧ Forall (λ s, JString s ∈ parsed) ids
     ∧ (parsed = JString <$> ["a"; "b"; "c"; "d"; "e"; "f"] →
          ids = ["a"; "b"; "c"; "d"; "e"]))
  ∧ ((∀ parsed, parse raw ≠ Some (JArray parsed)) →
       loadPersistedFavorites key parse (Some items) = [])
  ∧ loadPersistedFavorites key parse None = []
  ∧ loadPersistedFavorites key parse (Some (delete key items)) = [].
Proof.
  intros Hraw. repeat split.
  - unfold loadPersistedFavorites. by rewrite Hraw, H.
  - unfold loadPersistedFavorites. rewrite Hraw, H.
    rewrite length_take. unfold MAX_FAVORITES. lia.
  - unfold loadPersistedFavorites. rewrite Hraw, H.
    apply Forall_take, omap_asString_strings.
  - intros ->. unfold loadPersistedFavorites. rewrite Hraw, H.
    by rewrite omap_asString_all_strings.
  - intros Hnot. unfold loadPersistedFavorites. rewrite Hraw.
    destruct (parse raw) as [[| | | |parsed|]|] eqn:Hp; try done.
    by destruct (Hnot parsed).
  - unfold loadPersistedFavorites. by rewrite lookup_delete_eq.
Qed.

Lemma load_first_five_strings_witness :
  let items : gmap string string := {[ "favorites" := "stored" ]} in
  let parse := λ _ : string,
    Some (JArray (JString <$> ["a"; "b"; "c"; "d"; "e"; "f"])) in
  items !! "favorites" = Some "stored"
  ∧ loadPersistedFavorites "favorites" parse (Some items)
    = ["a"; "b"; "c"; "d"; "e"].
Proof.
  intros items parse.
  assert (Hraw : items !! "favorites" = Some "stored") by reflexivity.
  split; [exact Hraw|].
  exact (proj2 (proj2 (proj2
    (proj1 (load_first_five_strings "favorites" parse items "stored" Hraw)
       _ eq_refl))) eq_refl).
Defined.

End StoreFacts.

(** ** Display clamping and the recommendation prompt *)

Section FormatFacts.
Import JS Validation AiService.
Context `{Runtime}.

Lemma uintChars_digits (u : Decimal.uint) : Forall isDigit (uintChars u).
Proof.
  induction u; simpl; constructor; try done;
    unfold isDigit; simpl; set_solver.
Qed.

Lemma decimalDigits_digits (n : N) : Forall isDigit (decimalDigits n).
Proof. apply uintChars_digits. Qed.

Lemma string_of_list_ascii_append (cs : list ascii) (s : string) :
  String.string_of_list_ascii cs +:+ s
  = String.string_of_list_ascii (cs ++ String.list_ascii_of_string s).
Proof.
  induction cs as [|c cs IH].
  - simpl. by rewrite String.string_of_list_ascii_of_string.
  - change (String c (String.string_of_list_ascii cs +:+ s)
            = String c (String.string_of_list_ascii
                          (cs ++ String.list_ascii_of_string s))).
    by rewrite IH.
Qed.

Lemma placePoint_two (m : list ascii) :
  Forall isDigit m →
  ∃ int d1 d2,
    int ≠ [] ∧ Forall isDigit int ∧ isDigit d1 ∧ isDigit d2 ∧
    placePoint 2 m = int ++ ["."%char; d1; d2].
Proof.
  intros Hm. unfold placePoint.
  set (m' := replicate (3 - length m) "0"%char ++ m).
  assert (Hlen : 3 ≤ length m').
  { unfold m'. rewrite length_app, length_replicate. lia. }
  assert (Hdig : Forall isDigit m').
  { unfold m'. apply Forall_app. split; [|done].
    apply Forall_replicate. unfold isDigit. simpl. set_solver. }
  rewrite decide_False by done.
  assert (Hdrop : length (drop (length m' - 2) m') = 2).
  { rewrite length_drop. lia. }
  pose proof (Forall_drop _ (length m' - 2) _ Hdig) as Hdd.
  destruct (drop (length m' - 2) m') as [|d1 [|d2 [|? ?]]] eqn:Hd;
    simpl in Hdrop; try lia.
  exists (take (length m' - 2) m'), d1, d2.
  apply Forall_cons in Hdd as [Hd1 Hdd]. apply Forall_cons in Hdd as [Hd2 _].
  repeat split; try done.
  - intros Hnil. apply (f_equal length) in Hnil.
    rewrite length_take in Hnil. simpl in Hnil. lia.
  - by apply Forall_take.
Qed.

Lemma clamp_displayable (v : number) : displayable (clampPriceForDisplay v).
Proof.
  unfold clampPriceForDisplay, displayable, zero, MAX_PRICE_DISPLAY.
  destruct v as [| | |q]; simpl.
  - exists 0%Q. repeat split; [apply Qle_refl | discriminate].
  - exists 0%Q. repeat split; [apply Qle_refl | discriminate].
  - exists 100000%Q. repeat split; [discriminate | apply Qle_refl].
  - unfold gt; simpl. unfold Qltb.
    destruct (Qle_bool 0 q) eqn:H0; simpl.
    + destruct (Qle_bool q 100000) eqn:H1; simpl.
      * exists q. apply Qle_bool_iff in H0, H1. done.
      * exists 100000%Q. repeat split; [discriminate | apply Qle_refl].
    + exists 0%Q. repeat split; [apply Qle_refl | discriminate].
Qed.

Lemma clamp_low (v : number) :
  isNaN v = true ∨ lt v zero = true → clampPriceForDisplay v = zero.
Proof.
  intros [Hnan | Hneg]; unfold clampPriceForDisplay.
  - by rewrite Hnan.
  - rewrite Hneg. by destruct (isNaN v).
Qed.

Lemma clamp_high (v : number) :
  gt v (Finite 100000) = true → clampPriceForDisplay v = Finite 100000.
Proof.
  intros Hgt. unfold clampPriceForDisplay, MAX_PRICE_DISPLAY. rewrite Hgt.
  destruct v as [| | |q]; simpl in *; try done.
  unfold gt in Hgt; simpl in Hgt. unfold Qltb in *.
  destruct (Qle_bool 0 q) eqn:H0; simpl; [reflexivity|].
  exfalso. apply negb_true_iff in Hgt.
  assert (Hq : (q <= 100000)%Q).
  { apply Qlt_le_weak, Qlt_trans with 0%Q; [|reflexivity].
    apply Qnot_le_lt. intros Hle. apply Qle_bool_iff in Hle. congruence. }
  apply Qle_bool_iff in Hq. congruence.
Qed.

Lemma clamp_mid (v : number) : displayable v → clampPriceForDisplay v = v.
Proof.
  intros (q & -> & H0 & H1).
  unfold clampPriceForDisplay, gt, MAX_PRICE_DISPLAY, zero. simpl.
  unfold Qltb.
  rewrite (proj2 (Qle_bool_iff 0 q) H0), (proj2 (Qle_bool_iff q 100000) H1).
  reflexivity.
Qed.

Lemma clamp_cases (v : number) :
  displayable v
  ∨ (isNaN v = true ∨ lt v zero = true)
  ∨ gt v (Finite 100000) = true.
Proof.
  destruct v as [| | |q]; simpl; auto.
  unfold gt. simpl. unfold Qltb.
  destruct (Qle_bool 0 q) eqn:H0; simpl; [|auto].
  destruct (Qle_bool q 100000) eqn:H1; simpl; [|auto].
  left. exists q. split; [done|]. by split; apply Qle_bool_iff.
Qed.

Lemma clamped_spec_clamp (v c : number) :
  clamped_spec v c ↔ c = clampPriceForDisplay v.
Proof.
  split.
  - intros [[Hlow ->] | [[Hhigh ->] | [Hmid ->]]].
    + by rewrite clamp_low.
    + by rewrite clamp_high.
    + by rewrite clamp_mid.
  - intros ->. destruct (clamp_cases v) as [Hmid | [Hlow | Hhigh]].
    + right. right. split; [done|]. by rewrite clamp_mid.
    + left. split; [done|]. by rewrite clamp_low.
    + right. left. split; [done|]. by rewrite clamp_high.
Qed.

(** C9. [formatPriceForDisplay] renders the clamped value, with any
    options the formatter accepts: a finite value from 0 to 100,000 is
    rendered as it is, NaN and every negative input are rendered as 0, and
    every input above 100,000 as 100,000; every input is one of these. The
    price, market-cap and volume lines of the prompt's data block render
    the values of the snapshot clamped in this way, so what they show is
    never negative and never above 100,000, whatever was fetched. Negative
    zero is outside the model of Numbers. *)
Theorem formatPrice_renders_clamped
    (v : number) (options : NumberFormatOptions) :
  accepted (spread displayDefaults options) →
  let render c := toLocaleString_enUS c (spread displayDefaults options) in
  (displayable v → formatPriceForDisplay v options = render v)
  ∧ (isNaN v = true ∨ lt v zero = true →
       formatPriceForDisplay v options = render zero)
  ∧ (gt v (Finite 100000) = true →
       formatPriceForDisplay v options = render (Finite 100000))
  ∧ (displayable v
     ∨ (isNaN v = true ∨ lt v zero = true)
     ∨ gt v (Finite 100000) = true)
  ∧ ∀ data : CoinMarketDataForAi,
      ∃ price cap volume,
        clamped_spec (currentPriceUsd data) price
        ∧ clamped_spec (marketCap data) cap
        ∧ clamped_spec (totalVolume data) volume
        ∧ displayable price ∧ displayable cap ∧ displayable volume
        ∧ take 3 (drop 1 (marketDataLines data))
          = [ "Current price (USD): $"
                +:+ toLocaleString_enUS price displayDefaults;
              "Market cap (USD): $"
                +:+ toLocaleString_enUS cap displayDefaults;
              "24h volume (USD): $"
                +:+ toLocaleString_enUS volume displayDefaults ].
Proof.
  intros _ render. split; [|split; [|split; [|split]]].
  - intros Hmid. unfold formatPriceForDisplay. by rewrite clamp_mid.
  - intros Hlow. unfold formatPriceForDisplay. by rewrite clamp_low.
  - intros Hhigh. unfold formatPriceForDisplay. by rewrite clamp_high.
  - apply clamp_cases.
  - intros data.
    exists (clampPriceForDisplay (currentPriceUsd data)),
           (clampPriceForDisplay (marketCap data)),
           (clampPriceForDisplay (totalVolume data)).
    repeat split; try apply clamp_displayable;
      by apply clamped_spec_clamp.
Qed.

Lemma toFixed_two_shape (q : Q) :
  (Qabs q < tenTo21)%Q → twoDecimalPercent (toFixed 2 (Finite q) +:+ "%").
Proof.
  intros Hsmall. unfold toFixed.
  assert (Hbig : Qle_bool tenTo21 (Qabs q) = false).
  { apply not_true_is_false. intros Hle. apply Qle_bool_iff in Hle.
    by apply Qlt_not_le in Hsmall. }
  rewrite Hbig.
  destruct (placePoint_two (decimalDigits (nearestScaled 2 (Qabs q)))
              (decimalDigits_digits _)) as (int & d1 & d2 & Hne & Hint & Hd1 & Hd2 & ->).
  rewrite string_of_list_ascii_append. simpl String.list_ascii_of_string.
  exists (if Qltb q 0 then ["-"%char] else []), int, d1, d2.
  repeat split; try done.
  - destruct (Qltb q 0); auto.
  - by rewrite <- !app_assoc.
Qed.

Lemma not_available_is_no_percent : ¬ twoDecimalPercent "N/A".
Proof.
  intros (sign & int & d1 & d2 & _ & Hne & _ & _ & _ & Heq).
  apply (f_equal String.list_ascii_of_string) in Heq.
  rewrite String.list_ascii_of_string_of_list_ascii in Heq.
  apply (f_equal length) in Heq. rewrite !length_app in Heq. simpl in Heq.
  destruct int; [done|]. simpl in Heq. lia.
Qed.

(** C8, amended. The last four lines of the data block are the 24h, 30d,
    60d and 200d lines. A change that is null, undefined or NaN renders as
    N/A; a change that is a finite number below 10^21 in magnitude renders
    as a percentage with exactly two decimals, 3.25 as 3.25%. *)
Theorem prompt_change_lines (data : CoinMarketDataForAi) :
  formatMarketData data = String.concat newline (marketDataLines data)
  ∧ drop 4 (marketDataLines data)
    = [ "24h price change: " +:+ pct (priceChange24h data);
        "30d price change: " +:+ pct (priceChange30d data);
        "60d price change: " +:+ pct (priceChange60d data);
        "200d price change: " +:+ pct (priceChange200d data) ]
  ∧ (∀ v, v = null ∨ v = undefined ∨ v = value NaN → pct v = "N/A")
  ∧ (∀ v q, ordinary v q → twoDecimalPercent (pct v))
  ∧ pct (value (Finite (325 # 100))) = "3.25%".
Proof.
  repeat split.
  - intros v [-> | [-> | ->]]; reflexivity.
  - intros v q [-> Hsmall]. simpl. by apply toFixed_two_shape.
Qed.

End FormatFacts.

Module FormatExamples.
Import JS Validation AiService.

Lemma formatPrice_renders_clamped_witness :
  accepted (spread displayDefaults noOptions)
  ∧ displayable (Finite 64250)
  ∧ lt (Finite (-5)) zero = true
  ∧ gt (Finite 250000) (Finite 100000) = true
  ∧ @formatPriceForDisplay referenceHost (Finite 64250) noOptions = "64,250"
  ∧ @formatPriceForDisplay referenceHost (Finite (-5)) noOptions = "0"
  ∧ @formatPriceForDisplay referenceHost (Finite 250000) noOptions
    = "100,000".
Proof.
  assert (H0 : accepted (spread displayDefaults noOptions)).
  { intros lo hi [= <-] [= <-]. lia. }
  assert (H1 : displayable (Finite 64250)).
  { exists 64250%Q. split; [done|]. split; discriminate. }
  split; [exact H0|]. split; [exact H1|].
  split; [reflexivity|]. split; [reflexivity|]. split; [|split].
  - refine (eq_trans (proj1
      (@formatPrice_renders_clamped referenceHost (Finite 64250) noOptions H0)
      H1) _).
    vm_compute. reflexivity.
  - refine (eq_trans (proj1 (proj2
      (@formatPrice_renders_clamped referenceHost (Finite (-5)) noOptions H0))
      (or_intror eq_refl)) _).
    vm_compute. reflexivity.
  - refine (eq_trans (proj1 (proj2 (proj2
      (@formatPrice_renders_clamped referenceHost (Finite 250000) noOptions
         H0))) eq_refl) _).
    vm_compute. reflexivity.
Defined.

(** C8, as stated, fails: a snapshot whose four changes are all present
    Numbers, the 24h one being NaN, gets the 24h line N/A, which is no
    percentage. *)
Lemma nan_change_renders_not_available :
  priceChange24h nanSnapshot = value NaN
  ∧ priceChange30d nanSnapshot = value (Finite (-(12 # 10)))
  ∧ priceChange60d nanSnapshot = value (Finite 4)
  ∧ priceChange200d nanSnapshot = value (Finite (105 # 10))
  ∧ @marketDataLines referenceHost nanSnapshot !! 4
    = Some "24h price change: N/A"
  ∧ ¬ twoDecimalPercent (@pct referenceHost (priceChange24h nanSnapshot))
  ∧ drop 5 (@marketDataLines referenceHost nanSnapshot)
    = ["30d price change: -1.20%"; "60d price change: 4.00%";
       "200d price change: 10.50%"].
Proof.
  repeat split; try (vm_compute; reflexivity).
  apply not_available_is_no_percent.
Qed.

Lemma prompt_change_lines_witness :
  ordinary (priceChange30d nanSnapshot) (-(12 # 10))
  ∧ twoDecimalPercent (@pct referenceHost (priceChange30d nanSnapshot))
  ∧ @pct referenceHost (priceChange24h nanSnapshot) = "N/A".
Proof.
  assert (Hord : ordinary (priceChange30d nanSnapshot) (-(12 # 10))).
  { split; [reflexivity|]. vm_compute. reflexivity. }
  split; [exact Hord|]. split.
  - exact (proj1 (proj2 (proj2 (proj2
      (@prompt_change_lines referenceHost nanSnapshot)))) _ _ Hord).
  - exact (proj1 (proj2 (proj2
      (@prompt_change_lines referenceHost nanSnapshot))) _
      (or_intror (or_intror eq_refl))).
Defined.

End FormatExamples.

(** ** The live price poller *)

Section PollerFacts.
Import JS Api Reports.
Context `{Runtime}.

Lemma appendPoint_sliceLast (prev : list (gmap string cell)) point :
  appendPoint prev point = sliceLast MAX_DATA_POINTS (prev ++ [point]).
Proof.
  unfold appendPoint, sliceLast. case_decide; [done|].
  replace (length (prev ++ [point]) - MAX_DATA_POINTS) with 0 by lia.
  done.
Qed.

Lemma sliceLast_length {A} (n : nat) (l : list A) :
  length (sliceLast n l) = min n (length l).
Proof. unfold sliceLast. rewrite length_drop. lia. Qed.

Lemma sliceLast_snoc {A} (n : nat) (l : list A) (x : A) :
  0 < n → sliceLast n (sliceLast n l ++ [x]) = sliceLast n (l ++ [x]).
Proof.
  intros Hn. unfold sliceLast.
  rewrite !length_app, length_drop. simpl.
  destruct (decide (length l ≤ n)) as [Hle | Hgt].
  - replace (length l - n) with 0 by lia. simpl.
    by replace (length l - 0 + 1 - n) with (length l + 1 - n) by lia.
  - replace (length l - (length l - n) + 1 - n) with 1 by lia.
    replace (length l + 1 - n) with (S (length l - n)) by lia.
    rewrite !drop_app_le by (rewrite ?length_drop; lia).
    f_equal. rewrite drop_drop. f_equal. lia.
Qed.

Lemma sliceLast_short {A} (n : nat) (l : list A) :
  length l ≤ n → sliceLast n l = l.
Proof.
  intros Hle. unfold sliceLast. by replace (length l - n) with 0 by lia.
Qed.

Lemma runTick_history (st : ReportsState) (t : tick) :
  priceHistory (runTick st t)
  = match tickPoint t with
    | Some point => sliceLast MAX_DATA_POINTS (priceHistory st ++ [point])
    | None => priceHistory st
    end.
Proof.
  unfold runTick, fetchAndAppend, tickPoint.
  case_decide; [done|].
  destruct (fetchPricesUsdCryptoCompare _ _) as [err | prices]; simpl; [done|].
  apply appendPoint_sliceLast.
Qed.

Lemma runTicks_history (ts : list tick) (st : ReportsState) :
  length (priceHistory st) ≤ MAX_DATA_POINTS →
  priceHistory (runTicks st ts)
  = sliceLast MAX_DATA_POINTS (priceHistory st ++ omap tickPoint ts).
Proof.
  induction ts as [|t ts IH] using rev_ind; intros Hlen.
  - simpl. rewrite app_nil_r. by rewrite sliceLast_short.
  - unfold runTicks in *. rewrite foldl_app. simpl.
    rewrite runTick_history, IH by done.
    rewrite omap_app. simpl.
    destruct (tickPoint t) as [point|]; simpl.
    + rewrite app_assoc. apply sliceLast_snoc. unfold MAX_DATA_POINTS. lia.
    + by rewrite app_nil_r.
Qed.

Lemma succeeds_tickPoint (t : tick) :
  succeeds t → is_Some (tickPoint t).
Proof.
  intros [Hne [prices Hp]]. unfold tickPoint.
  rewrite decide_False by (destruct (tickFavorites t); simpl; done).
  rewrite Hp. eauto.
Qed.

Lemma omap_tickPoint_length (ts : list tick) :
  Forall succeeds ts → length (omap tickPoint ts) = length ts.
Proof.
  induction 1 as [|t ts Ht _ IH]; [done|].
  destruct (succeeds_tickPoint t Ht) as [point Hp].
  change (omap tickPoint (t :: ts))
    with (match tickPoint t with
          | Some y => y :: omap tickPoint ts
          | None => omap tickPoint ts
          end).
  rewrite Hp. simpl. by rewrite IH.
Qed.

Lemma sliceLast_last {A} (n : nat) (l : list A) (x : A) :
  0 < n → last (sliceLast n (l ++ [x])) = Some x.
Proof.
  intros Hn. unfold sliceLast. rewrite length_app. simpl.
  rewrite drop_app_le by lia. apply last_snoc.
Qed.

Lemma recordPrice_proto coins (prices : gmap string number)
    (point : gmap string cell) :
  recordPrice coins prices point "__proto__" = point.
Proof. reflexivity. Qed.

Lemma recordPrice_other coins (prices : gmap string number)
    (point : gmap string cell) (coinId : string) :
  coinId ≠ "__proto__" →
  recordPrice coins prices point coinId
  = <[coinId := Price (default zero (prices !! symbolOf coins coinId))]> point.
Proof.
  intros Hne. unfold recordPrice.
  by rewrite (proj2 (String.eqb_neq _ _) Hne).
Qed.

Lemma buildPoint_lookup (time : string) (favoriteIds : list string)
    (coins : list Coin) (prices : gmap string number) (coinId : string) :
  coinId ∈ favoriteIds → coinId ≠ "__proto__" →
  buildPoint time favoriteIds coins prices !! coinId
  = Some (Price (default zero (prices !! symbolOf coins coinId))).
Proof.
  unfold buildPoint.
  induction favoriteIds as [|x ids IH] using rev_ind; intros Hin Hproto.
  - by apply elem_of_nil in Hin.
  - rewrite foldl_app. simpl.
    destruct (decide (x = "__proto__")) as [-> | Hx].
    + rewrite recordPrice_proto. apply IH; [|done].
      apply elem_of_app in Hin as [Hin | Hin]; [done|].
      apply list_elem_of_singleton in Hin. congruence.
    + rewrite recordPrice_other by done.
      destruct (decide (x = coinId)) as [-> | Hne].
      * by rewrite lookup_insert_eq.
      * rewrite lookup_insert_ne by done. apply IH; [|done].
        apply elem_of_app in Hin as [Hin | Hin]; [done|].
        apply list_elem_of_singleton in Hin. congruence.
Qed.

Lemma buildPoint_proto (time : string) (favoriteIds : list string)
    (coins : list Coin) (prices : gmap string number) :
  buildPoint time favoriteIds coins prices !! "__proto__" = None.
Proof.
  unfold buildPoint.
  induction favoriteIds as [|x ids IH] using rev_ind; [done|].
  rewrite foldl_app. simpl.
  destruct (decide (x = "__proto__")) as [-> | Hx].
  - by rewrite recordPrice_proto.
  - rewrite recordPrice_other by done. by rewrite lookup_insert_ne.
Qed.

Lemma runTick_answered (st : ReportsState) (t : tick) prices :
  tickFavorites t ≠ [] →
  fetchPricesUsdCryptoCompare (tickServer t)
    (symbolOf (tickCoins t) <$> tickFavorites t) = inr prices →
  priceHistory (runTick st t)
  = sliceLast MAX_DATA_POINTS
      (priceHistory st
       ++ [buildPoint (tickTime t) (tickFavorites t) (tickCoins t) prices]).
Proof.
  intros Hne Hp. rewrite runTick_history. unfold tickPoint.
  rewrite decide_False by (destruct (tickFavorites t); simpl; done).
  by rewrite Hp.
Qed.

(** C5. A tick with favourites whose batched request is answered puts
    exactly one point at the end of the history and keeps the last 30
    points of the result, dropping from the old end; a tick whose request
    fails records the message and leaves the history as it was. After 31
    answered ticks from the empty history it holds exactly 30 points, the
    first one dropped. *)
Theorem poller_tick_history (st : ReportsState) (t : tick) :
  tickFavorites t ≠ [] →
  (∀ prices,
     fetchPricesUsdCryptoCompare (tickServer t)
       (symbolOf (tickCoins t) <$> tickFavorites t) = inr prices →
     let point :=
       buildPoint (tickTime t) (tickFavorites t) (tickCoins t) prices in
     (∃ dropped,
        priceHistory st ++ [point] = dropped ++ priceHistory (runTick st t))
     ∧ last (priceHistory (runTick st t)) = Some point
     ∧ length (priceHistory (runTick st t))
       = min 30 (length (priceHistory st) + 1)
     ∧ error (runTick st t) = None)
  ∧ (∀ err,
       fetchPricesUsdCryptoCompare (tickServer t)
         (symbolOf (tickCoins t) <$> tickFavorites t) = inl err →
       priceHistory (runTick st t) = priceHistory st
       ∧ error (runTick st t) = Some (thrownMessage err))
  ∧ (∀ ts, length ts = 31 → Forall succeeds ts →
       length (priceHistory (runTicks initialReports ts)) = 30
       ∧ priceHistory (runTicks initialReports ts)
         = drop 1 (omap tickPoint ts)).
Proof.
  intros Hne.
  assert (Hlen0 : length (tickFavorites t) ≠ 0)
    by (destruct (tickFavorites t); simpl; done).
  split; [|split].
  - intros prices Hp point.
    rewrite (runTick_answered st t prices Hne Hp). repeat split.
    + exists (take (length (priceHistory st ++ [point]) - MAX_DATA_POINTS)
                (priceHistory st ++ [point])).
      unfold sliceLast. by rewrite take_drop.
    + apply sliceLast_last. unfold MAX_DATA_POINTS. lia.
    + rewrite sliceLast_length, length_app. simpl. by unfold MAX_DATA_POINTS.
    + unfold runTick, fetchAndAppend. by rewrite decide_False, Hp by done.
  - intros err Hp. unfold runTick, fetchAndAppend.
    by rewrite decide_False, Hp by done.
  - intros ts Hlen Hall.
    assert (Hhist : priceHistory (runTicks initialReports ts)
                    = sliceLast MAX_DATA_POINTS (omap tickPoint ts)).
    { rewrite runTicks_history by (simpl; lia). done. }
    pose proof (omap_tickPoint_length ts Hall) as Hpoints.
    rewrite Hhist. split.
    + rewrite sliceLast_length, Hpoints, Hlen. by unfold MAX_DATA_POINTS.
    + unfold sliceLast. by rewrite Hpoints, Hlen.
Qed.

(** C10. The claim fails on the code for one identifier. A tick whose
    batched request is answered appends a point, and when the identifier
    [__proto__] is among the favourites the point has no entry for it,
    whatever the answer quotes: neither the price nor 0 is recorded. *)
Theorem proto_favourite_is_left_out
    (st : ReportsState) (t : tick) (prices : gmap string number) :
  fetchPricesUsdCryptoCompare (tickServer t)
    (symbolOf (tickCoins t) <$> tickFavorites t) = inr prices →
  "__proto__" ∈ tickFavorites t →
  ∃ point,
    last (priceHistory (runTick st t)) = Some point
    ∧ point !! "__proto__" = None.
Proof.
  intros Hp Hin.
  assert (Hne : tickFavorites t ≠ []).
  { intros Hnil. rewrite Hnil in Hin. by apply elem_of_nil in Hin. }
  eexists. split.
  { rewrite (runTick_answered st t prices Hne Hp).
    apply sliceLast_last. unfold MAX_DATA_POINTS. lia. }
  apply buildPoint_proto.
Qed.

End PollerFacts.

Module PollerExamples.
Import JS Api Reports.

#[local] Existing Instance referenceHost.

Lemma tickAt_bothQuoted_succeeds (time : string) :
  succeeds (tickAt bothQuoted time).
Proof.
  split; [done|].
  exists (foldl (collectQuote (H := referenceHost)) ∅
            [quoted "BTC" 50000; quoted "ETH" 3000]).
  vm_compute. reflexivity.
Qed.

Lemma poller_tick_history_witness :
  let t := tickAt bothQuoted "12:00:00" in
  tickFavorites t ≠ []
  ∧ (priceHistory (runTick initialReports t) !! 0%nat ≫= (.!! "btc")
       = Some (Price (Finite 50000))
     ∧ priceHistory (runTick initialReports t) !! 0%nat ≫= (.!! "eth")
       = Some (Price (Finite 3000))
     ∧ priceHistory (runTick initialReports t) !! 0%nat ≫= (.!! "time")
       = Some (Label "12:00:00"))
  ∧ length (priceHistory (runTick initialReports t)) = 1
  ∧ priceHistory (runTick initialReports (tickAt rateLimited "12:00:10")) = []
  ∧ error (runTick initialReports (tickAt rateLimited "12:00:10"))
    = Some "Too many requests (rate limit). Try again in a moment."
  ∧ length (priceHistory
      (runTicks initialReports (replicate 31 (tickAt bothQuoted "12:00:00"))))
    = 30.
Proof.
  intros t.
  assert (Hne : tickFavorites t ≠ []) by done.
  split; [exact Hne|].
  destruct (poller_tick_history initialReports t Hne) as (Hok & _ & Hrun).
  destruct (poller_tick_history initialReports
              (tickAt rateLimited "12:00:10") Hne) as (_ & Hfail & _).
  split; [|split; [|split; [|split]]].
  - repeat split; vm_compute; reflexivity.
  - destruct (tickAt_bothQuoted_succeeds "12:00:00") as [_ [prices Hp]].
    exact (proj1 (proj2 (proj2 (Hok prices Hp)))).
  - refine (proj1 (Hfail _ _)). vm_compute. reflexivity.
  - refine (proj2 (Hfail (PlainError _) _)). vm_compute. reflexivity.
  - refine (proj1 (Hrun (replicate 31 (tickAt bothQuoted "12:00:00")) _ _)).
    + by rewrite length_replicate.
    + apply Forall_replicate, tickAt_bothQuoted_succeeds.
Defined.

Lemma proto_favourite_is_left_out_witness :
  let t := {| tickFavorites := ["btc"; "__proto__"]; tickCoins := [];
              tickServer := onlyBtcQuoted; tickTime := "12:00:00" |} in
  "__proto__" ∈ tickFavorites t
  ∧ ∃ point,
      last (priceHistory (runTick initialReports t)) = Some point
      ∧ point !! "__proto__" = None.
Proof.
  intros t.
  assert (Hin : "__proto__" ∈ tickFavorites t).
  { apply (bool_decide_unpack _). vm_compute. exact I. }
  split; [exact Hin|].
  exact (proto_favourite_is_left_out initialReports t _ eq_refl Hin).
Defined.

End PollerExamples.

(** ** The market-data client *)

Section ApiFacts.
Import JS Api.
Local Open Scope Z_scope.
Context `{Runtime}.
Variable network : nat → N * reply.

(** *** What the passing of time changes *)

Lemma advance_now d w : now (advance d w) = now w + d.
Proof.
  unfold advance, runTimers. simpl.
  destruct (lockTimeoutId w) as [due|]; [|done].
  by destruct (due <=? now w + d).
Qed.

Lemma advance_requests d w : requests (advance d w) = requests w.
Proof.
  unfold advance, runTimers. simpl.
  destruct (lockTimeoutId w) as [due|]; [|done].
  by destruct (due <=? now w + d).
Qed.

Lemma advance_coinCache d w : coinCache (advance d w) = coinCache w.
Proof.
  unfold advance, runTimers. simpl.
  destruct (lockTimeoutId w) as [due|]; [|done].
  by destruct (due <=? now w + d).
Qed.

Lemma advance_lockEndTime d w : lockEndTime (advance d w) = lockEndTime w.
Proof.
  unfold advance, runTimers. simpl.
  destruct (lockTimeoutId w) as [due|]; [|done].
  by destruct (due <=? now w + d).
Qed.

Lemma advance_last d w :
  lastMoreInfoRequestTime (advance d w) = lastMoreInfoRequestTime w.
Proof.
  unfold advance, runTimers. simpl.
  destruct (lockTimeoutId w) as [due|]; [|done].
  by destruct (due <=? now w + d).
Qed.

Lemma advance_stays_unlocked d w :
  isApiLocked w = false → isApiLocked (advance d w) = false.
Proof.
  unfold advance, runTimers. simpl. intros Hw.
  destruct (lockTimeoutId w) as [due|]; [|done].
  by destruct (due <=? now w + d).
Qed.

Lemma advance_lock_inactive d w :
  0 ≤ d → lockActive w = false → lockActive (advance d w) = false.
Proof.
  intros Hd. unfold lockActive.
  rewrite advance_now, advance_lockEndTime.
  destruct (isApiLocked w) eqn:Hl; simpl.
  - intros Hlt. apply andb_false_iff. right.
    apply Z.ltb_ge. apply Z.ltb_ge in Hlt. lia.
  - intros _. by rewrite advance_stays_unlocked.
Qed.

(** While the cooldown timer is pending and not due, nothing changes but
    the clock. *)
Lemma advance_before_due d w due :
  lockTimeoutId w = Some due → now w + d < due →
  advance d w = setNow (now w + d) w.
Proof.
  intros Ht Hlt. unfold advance, runTimers. simpl. rewrite Ht.
  by rewrite (proj2 (Z.leb_gt _ _)).
Qed.

(** Once it is due, the timer callback has run. *)
Lemma advance_after_due d w due :
  lockTimeoutId w = Some due → due ≤ now w + d →
  advance d w = lockTimerCallback due (setNow (now w + d) w).
Proof.
  intros Ht Hle. unfold advance, runTimers. simpl. rewrite Ht.
  by rewrite (proj2 (Z.leb_le _ _)).
Qed.

Lemma throttleDelay_nonneg w : 0 ≤ throttleDelay w.
Proof.
  unfold throttleDelay, MORE_INFO_MIN_INTERVAL_MS.
  destruct (now w - lastMoreInfoRequestTime w <? 2000) eqn:Hlt; [|lia].
  apply Z.ltb_lt in Hlt. lia.
Qed.

Lemma ready_now w : now (ready w) = now w + throttleDelay w.
Proof.
  unfold ready, throttleDelay. simpl.
  destruct (_ <? _); [apply advance_now | lia].
Qed.

Lemma ready_requests w : requests (ready w) = requests w.
Proof.
  unfold ready. simpl. destruct (_ <? _); [apply advance_requests | done].
Qed.

Lemma ready_coinCache w : coinCache (ready w) = coinCache w.
Proof.
  unfold ready. simpl. destruct (_ <? _); [apply advance_coinCache | done].
Qed.

Lemma ready_lockEndTime w : lockEndTime (ready w) = lockEndTime w.
Proof.
  unfold ready. simpl. destruct (_ <? _); [apply advance_lockEndTime | done].
Qed.

Lemma ready_lock_inactive w :
  lockActive w = false → lockActive (ready w) = false.
Proof.
  intros Hw. unfold ready.
  destruct (_ <? _) eqn:Hlt; [|exact Hw].
  change (lockActive (advance (MORE_INFO_MIN_INTERVAL_MS
            - (now w - lastMoreInfoRequestTime w)) w) = false).
  apply advance_lock_inactive; [|done].
  apply Z.ltb_lt in Hlt. lia.
Qed.

Lemma answered_now req lat w :
  now (answered req lat w) = now w + Z.of_N lat.
Proof. unfold answered. by rewrite advance_now. Qed.

Lemma answered_requests req lat w :
  requests (answered req lat w) = requests w ++ [(now w, req)].
Proof. unfold answered. by rewrite advance_requests. Qed.

Lemma answered_coinCache req lat w :
  coinCache (answered req lat w) = coinCache w.
Proof. unfold answered. by rewrite advance_coinCache. Qed.

Lemma answered_lockEndTime req lat w :
  lockEndTime (answered req lat w) = lockEndTime w.
Proof. unfold answered. by rewrite advance_lockEndTime. Qed.

Lemma answered_lock_inactive req lat w :
  lockActive w = false → lockActive (answered req lat w) = false.
Proof.
  intros Hw. unfold answered. apply advance_lock_inactive; [lia | done].
Qed.

(** *** The steps of a fetch *)

Lemma fetch_steps (coinId : string) (w : World) :
  fetchMoreInfo network coinId w
  = match cacheLookup (normalize coinId) w with
    | Some cached => (inr cached, w)
    | None =>
        if lockActive w then (inl (PlainError BUSY_MESSAGE), w)
        else tryCatch (requestAndStore network (normalize coinId))
               (retryAfterFailure network (normalize coinId)) (ready w)
    end.
Proof.
  unfold fetchMoreInfo, normalize, bind, get. simpl.
  destruct (cacheLookup _ w); [done|].
  destruct (lockActive w); [done|].
  unfold throttle, bind, get, ready, sleep, modify, ret. simpl.
  by destruct (_ <? _).
Qed.

Lemma requestAndStore_steps (nid : string) (w : World) :
  requestAndStore network nid w
  = let w' := answered (moreInfoRequest nid) (network (length (requests w))).1 w in
    match (network (length (requests w))).2 with
    | Responded (Entries byId) =>
        (inr (readPrices byId nid),
         setCoinCache (<[nid := {| data := readPrices byId nid;
                                   fetchedAt := now w' |}]> (coinCache w')) w')
    | Responded NotAnObject =>
        (inl (PlainError "Invalid response from CoinGecko"), w')
    | Rejected e => (inl (Axios (interceptor (moreInfoRequest nid) e)), w')
    end.
Proof.
  unfold requestAndStore, doRequest, apiGet, bind, answered.
  destruct (network (length (requests w))) as [lat [[|byId]|e]]; done.
Qed.

Lemma hasStatus_withMessage msg e n :
  hasStatus (withMessage msg e) n = hasStatus e n.
Proof. reflexivity. Qed.

Lemma intercepted_retryable (nid : string) (e : AxiosError) :
  isRetryableError (Axios (interceptor (moreInfoRequest nid) e))
  = hasStatus e 429 || bool_decide (code e = Some "ERR_NETWORK").
Proof.
  unfold interceptor, isRetryableError. simpl.
  destruct (hasStatus e 429) eqn:H429.
  - by rewrite hasStatus_withMessage, H429.
  - destruct (isNetworkError e) eqn:Hnet.
    + rewrite hasStatus_withMessage, H429. reflexivity.
    + rewrite H429. simpl. unfold isNetworkError in *.
      by apply orb_false_iff in Hnet as [-> ->].
Qed.

Lemma intercepted_rateLimited (nid : string) (e : AxiosError) :
  isRateLimited (Axios (interceptor (moreInfoRequest nid) e))
  = hasStatus e 429.
Proof.
  unfold interceptor, isRateLimited. simpl.
  destruct (hasStatus e 429) eqn:H429.
  - by rewrite hasStatus_withMessage.
  - destruct (isNetworkError e); [by rewrite hasStatus_withMessage | done].
Qed.

Lemma cacheLookup_stored (nid : string) (d : Prices) (w : World) :
  cacheLookup nid
    (setCoinCache (<[nid := {| data := d; fetchedAt := now w |}]> (coinCache w)) w)
  = Some d.
Proof.
  unfold cacheLookup. simpl. rewrite lookup_insert_eq. simpl.
  by rewrite Z.sub_diag.
Qed.

Lemma retryAfterFailure_steps (nid : string) (err : thrown) (w : World) :
  retryAfterFailure network nid err w
  = if isRetryableError err then
      requestAndStore network nid
        (advance RETRY_WAIT_MS (if isRateLimited err then engageLock w else w))
    else (inl err, w).
Proof.
  unfold retryAfterFailure.
  destruct (isRetryableError err); [|done].
  unfold bind, sleep, modify, tryCatch, throw, setApiLocked, ret.
  destruct (isRateLimited err); simpl.
  all: by destruct (requestAndStore network nid _) as [[?|?] ?].
Qed.

(** A fetch that finds no cached value and no lock puts its first request
    on the wire once the throttle is served. *)
Lemma fetch_sends (coinId : string) (w : World) :
  cacheLookup (normalize coinId) w = None → lockActive w = false →
  ∃ rest,
    requests (fetchMoreInfo network coinId w).2
    = requests w
      ++ (now w + throttleDelay w, moreInfoRequest (normalize coinId)) :: rest.
Proof.
  intros Hcache Hlock. rewrite fetch_steps, Hcache, Hlock.
  unfold tryCatch. rewrite requestAndStore_steps.
  set (nid := normalize coinId). set (req := moreInfoRequest nid).
  set (w1 := answered req _ (ready w)).
  assert (Hreq1 : requests w1 = requests w ++ [(now w + throttleDelay w, req)]).
  { unfold w1. by rewrite answered_requests, ready_requests, ready_now. }
  destruct (network (length (requests (ready w)))).2 as [[|byId]|e]; simpl.
  - exists []. exact Hreq1.
  - exists []. exact Hreq1.
  - rewrite retryAfterFailure_steps.
    destruct (isRetryableError _); [|exists []; exact Hreq1].
    set (w3 := advance RETRY_WAIT_MS _).
    assert (Hreq3 : requests w3 = requests w1).
    { unfold w3. rewrite advance_requests. by destruct (isRateLimited _). }
    rewrite requestAndStore_steps. fold req.
    set (w4 := answered req _ w3).
    assert (Hreq4 : requests w4 = requests w1 ++ [(now w3, req)]).
    { unfold w4. by rewrite answered_requests, Hreq3. }
    exists [(now w3, req)].
    destruct (network (length (requests w3))).2 as [[|byId]|e2]; simpl;
      rewrite Hreq4, Hreq1, <- app_assoc; done.
Qed.

Lemma requestAndStore_reply (nid : string) (w : World) lat r :
  network (length (requests w)) = (lat, r) →
  requestAndStore network nid w
  = match r with
    | Responded (Entries byId) =>
        (inr (readPrices byId nid),
         setCoinCache
           (<[nid := {| data := readPrices byId nid;
                        fetchedAt := now (answered (moreInfoRequest nid) lat w) |}]>
              (coinCache (answered (moreInfoRequest nid) lat w)))
           (answered (moreInfoRequest nid) lat w))
    | Responded NotAnObject =>
        (inl (PlainError "Invalid response from CoinGecko"),
         answered (moreInfoRequest nid) lat w)
    | Rejected e =>
        (inl (Axios (interceptor (moreInfoRequest nid) e)),
         answered (moreInfoRequest nid) lat w)
    end.
Proof. intros Hnet. rewrite requestAndStore_steps, Hnet. done. Qed.

Lemma hasStatus_true e n : hasStatus e n = true ↔ status e = Some n.
Proof. unfold hasStatus. apply bool_decide_eq_true. Qed.

Lemma hasStatus_false e n : hasStatus e n = false ↔ status e ≠ Some n.
Proof. unfold hasStatus. apply bool_decide_eq_false. Qed.

(** What a fetch does once its first request has been rejected. *)
Lemma fetch_after_rejection (coinId : string) (w : World) lat1 e :
  cacheLookup (normalize coinId) w = None → lockActive w = false →
  network (length (requests w)) = (lat1, Rejected e) →
  fetchMoreInfo network coinId w
  = let w1 := answered (moreInfoRequest (normalize coinId)) lat1 (ready w) in
    if hasStatus e 429 || bool_decide (code e = Some "ERR_NETWORK") then
      requestAndStore network (normalize coinId)
        (advance RETRY_WAIT_MS (if hasStatus e 429 then engageLock w1 else w1))
    else (inl (Axios (interceptor (moreInfoRequest (normalize coinId)) e)), w1).
Proof.
  intros Hcache Hlock Hnet. rewrite fetch_steps, Hcache, Hlock.
  unfold tryCatch.
  rewrite (requestAndStore_reply _ (ready w) lat1 (Rejected e))
    by (by rewrite ready_requests).
  rewrite retryAfterFailure_steps, intercepted_retryable,
    intercepted_rateLimited.
  done.
Qed.

(** *** The cooldown *)

Lemma advance_cooling_before d w :
  cooling w → now w + d < lockEndTime w →
  cooling (advance d w) ∧ lockEndTime (advance d w) = lockEndTime w
  ∧ notified (advance d w) = notified w
  ∧ lockActive (advance d w) = true.
Proof.
  intros [Hl Ht] Hlt.
  rewrite (advance_before_due d w _ Ht Hlt).
  unfold cooling, lockActive. simpl. repeat split; try done.
  rewrite Hl. simpl. by apply Z.ltb_lt.
Qed.

Lemma advance_cooling_after d w :
  cooling w → lockEndTime w ≤ now w + d →
  isApiLocked (advance d w) = false
  ∧ lockTimeoutId (advance d w) = None
  ∧ notified (advance d w) = notified w ++ cooldownCalls w
  ∧ lockActive (advance d w) = false.
Proof.
  intros [Hl Ht] Hle.
  rewrite (advance_after_due d w _ Ht Hle).
  unfold lockActive. simpl. done.
Qed.

Lemma requestAndStore_world (nid : string) (w : World) :
  ∃ cache,
    (requestAndStore network nid w).2
    = setCoinCache cache
        (answered (moreInfoRequest nid) (network (length (requests w))).1 w).
Proof.
  rewrite requestAndStore_steps. cbv zeta.
  set (w' := answered _ _ w).
  destruct (network (length (requests w))).2 as [[|byId]|e]; simpl.
  - exists (coinCache w'). by destruct w'.
  - eauto.
  - exists (coinCache w'). by destruct w'.
Qed.


Lemma cooling_logRequest req w : cooling w → cooling (logRequest req w).
Proof. by intros [? ?]. Qed.

Lemma cooling_setCoinCache cache w : cooling w → cooling (setCoinCache cache w).
Proof. by intros [? ?]. Qed.

Lemma lockActive_setCoinCache cache w :
  lockActive (setCoinCache cache w) = lockActive w.
Proof. reflexivity. Qed.

Lemma lockEndTime_setCoinCache cache w :
  lockEndTime (setCoinCache cache w) = lockEndTime w.
Proof. reflexivity. Qed.

Lemma now_setCoinCache cache w : now (setCoinCache cache w) = now w.
Proof. reflexivity. Qed.

Lemma isApiLocked_setCoinCache cache w :
  isApiLocked (setCoinCache cache w) = isApiLocked w.
Proof. reflexivity. Qed.

Lemma requests_setCoinCache cache w :
  requests (setCoinCache cache w) = requests w.
Proof. reflexivity. Qed.

Lemma answered_cooling req lat w :
  cooling w →
  (now w + Z.of_N lat < lockEndTime w →
     cooling (answered req lat w) ∧ lockActive (answered req lat w) = true)
  ∧ (lockEndTime w ≤ now w + Z.of_N lat →
       isApiLocked (answered req lat w) = false).
Proof.
  intros Hcool. apply (cooling_logRequest req) in Hcool.
  unfold answered. split.
  - intros Hlt.
    by destruct (advance_cooling_before (Z.of_N lat) _ Hcool Hlt)
      as (? & _ & _ & ?).
  - intros Hle.
    by destruct (advance_cooling_after (Z.of_N lat) _ Hcool Hle) as (? & _).
Qed.

(** The world in which the retry after a status 429 goes out. *)
Lemma retry_world_cooling (w1 : World) :
  cooling (advance RETRY_WAIT_MS (engageLock w1))
  ∧ lockEndTime (advance RETRY_WAIT_MS (engageLock w1))
    = now w1 + LOCK_DURATION_MS
  ∧ now (advance RETRY_WAIT_MS (engageLock w1)) = now w1 + RETRY_WAIT_MS.
Proof.
  assert (Hcool : cooling (engageLock w1)) by (split; reflexivity).
  destruct (advance_cooling_before RETRY_WAIT_MS _ Hcool) as (Hc & He & _).
  { simpl. unfold RETRY_WAIT_MS, LOCK_DURATION_MS. lia. }
  split; [exact Hc|]. split; [by rewrite He|]. by rewrite advance_now.
Qed.

Lemma lock_set_by_429 (coinId : string) (w : World) lat1 e :
  let nid := normalize coinId in
  let run := fetchMoreInfo network coinId w in
  let lockedAt := now w + throttleDelay w + Z.of_N lat1 in
  cacheLookup nid w = None → lockActive w = false →
  network (length (requests w)) = (lat1, Rejected e) →
  tooManyRequests e →
  lockEndTime run.2 = lockedAt + LOCK_DURATION_MS
  ∧ (now run.2 < lockedAt + LOCK_DURATION_MS →
       cooling run.2 ∧ lockActive run.2 = true)
  ∧ (lockedAt + LOCK_DURATION_MS ≤ now run.2 → isApiLocked run.2 = false).
Proof.
  intros nid run lockedAt Hcache Hlock Hnet H429.
  unfold run.
  rewrite (fetch_after_rejection coinId w lat1 e Hcache Hlock Hnet).
  cbv zeta. apply hasStatus_true in H429. rewrite H429, orb_true_l.
  fold nid.
  remember (answered (moreInfoRequest nid) lat1 (ready w)) as w1 eqn:Hw1.
  assert (Hnow1 : now w1 = lockedAt).
  { subst w1. unfold lockedAt. by rewrite answered_now, ready_now. }
  clear Hw1. clearbody lockedAt.
  destruct (retry_world_cooling w1) as (Hcool3 & Hend3 & Hnow3).
  rewrite Hnow1 in Hend3, Hnow3.
  remember (advance RETRY_WAIT_MS (engageLock w1)) as w3 eqn:Hw3.
  clear Hw3.
  destruct (requestAndStore_world nid w3) as [cache ->].
  remember (network (length (requests w3))).1 as lat2 eqn:Hlat2.
  clear Hlat2.
  destruct (answered_cooling (moreInfoRequest nid) lat2 w3 Hcool3)
    as [Hbefore Hafter].
  rewrite Hend3, Hnow3 in Hbefore, Hafter.
  pose proof (answered_lockEndTime (moreInfoRequest nid) lat2 w3) as Hend4.
  pose proof (answered_now (moreInfoRequest nid) lat2 w3) as Hnow4.
  rewrite Hend3 in Hend4. rewrite Hnow3 in Hnow4.
  remember (answered (moreInfoRequest nid) lat2 w3) as w4 eqn:Hw4.
  clear Hw4.
  rewrite lockEndTime_setCoinCache, now_setCoinCache,
    lockActive_setCoinCache, isApiLocked_setCoinCache.
  rewrite Hnow4. split; [exact Hend4|]. split.
  - intros Hlt. destruct Hbefore as [Hc Ha]; [lia|].
    split; [by apply cooling_setCoinCache | exact Ha].
  - intros Hle. apply Hafter. lia.
Qed.

Lemma lock_gate (coinId : string) (w : World) :
  let nid := normalize coinId in
  let run := fetchMoreInfo network coinId w in
  lockActive w = true →
  (cacheLookup nid w = None → run = (inl (PlainError BUSY_MESSAGE), w))
  ∧ (∀ cached, cacheLookup nid w = Some cached → run = (inr cached, w)).
Proof.
  intros nid run.
  intros Hactive. unfold run. rewrite fetch_steps. fold nid.
  split.
  + intros ->. by rewrite Hactive.
  + by intros cached ->.
Qed.

Lemma cooldown_ends (w : World) (d : Z) :
  cooling w →
  (now w + d < lockEndTime w → lockActive (advance d w) = true)
  ∧ (lockEndTime w ≤ now w + d →
       isApiLocked (advance d w) = false
       ∧ notified (advance d w) = notified w ++ cooldownCalls w
       ∧ ∀ coinId',
           cacheLookup (normalize coinId') (advance d w) = None →
           ∃ rest,
             requests (fetchMoreInfo network coinId' (advance d w)).2
             = requests w
               ++ (now w + d + throttleDelay (advance d w),
                   moreInfoRequest (normalize coinId')) :: rest).
Proof.
  intros Hcool. split.
  + intros Hlt. by destruct (advance_cooling_before d w Hcool Hlt) as (_ & _ & _ & ?).
  + intros Hle.
    destruct (advance_cooling_after d w Hcool Hle) as (Hu & _ & Hn & Hina).
    split; [done|]. split; [done|].
    intros coinId' Hcache.
    destruct (fetch_sends coinId' (advance d w) Hcache Hina) as [rest Hreq].
    exists rest. by rewrite Hreq, advance_requests, advance_now.
Qed.

(** C2, amended. A status 429 on the first request of a fetch sets the lock
    for ten seconds from that moment, and the lock is still set when the
    fetch ends unless the ten seconds are over by then. While the lock is
    active a fetch for an identifier without a valid cache entry fails at
    once with the busy message, and one with a valid entry returns it;
    neither sends a request or lets time pass. Until the ten seconds are
    over the lock stays active; once they are, the lock is cleared, every
    registered listener has been called, and a fetch without a valid cache
    entry sends its request. *)
Theorem rate_limit_lock (coinId : string) (w : World) :
  let nid := normalize coinId in
  let run := fetchMoreInfo network coinId w in
  (cacheLookup nid w = None → lockActive w = false →
   ∀ lat1 e, network (length (requests w)) = (lat1, Rejected e) →
     tooManyRequests e →
     let lockedAt := now w + throttleDelay w + Z.of_N lat1 in
     lockEndTime run.2 = lockedAt + LOCK_DURATION_MS
     ∧ (now run.2 < lockedAt + LOCK_DURATION_MS →
          cooling run.2 ∧ lockActive run.2 = true)
     ∧ (lockedAt + LOCK_DURATION_MS ≤ now run.2 →
          isApiLocked run.2 = false))
  ∧ (lockActive w = true →
       (cacheLookup nid w = None → run = (inl (PlainError BUSY_MESSAGE), w))
       ∧ (∀ cached, cacheLookup nid w = Some cached → run = (inr cached, w)))
  ∧ (cooling w →
     ∀ d,
       (now w + d < lockEndTime w → lockActive (advance d w) = true)
       ∧ (lockEndTime w ≤ now w + d →
            isApiLocked (advance d w) = false
            ∧ notified (advance d w) = notified w ++ cooldownCalls w
            ∧ ∀ coinId',
                cacheLookup (normalize coinId') (advance d w) = None →
                ∃ rest,
                  requests (fetchMoreInfo network coinId' (advance d w)).2
                  = requests w
                    ++ (now w + d + throttleDelay (advance d w),
                        moreInfoRequest (normalize coinId')) :: rest)).
Proof.
  intros nid run. split; [|split].
  - intros Hcache Hlock lat1 e Hnet H429.
    exact (lock_set_by_429 coinId w lat1 e Hcache Hlock Hnet H429).
  - exact (lock_gate coinId w).
  - intros Hcool d. exact (cooldown_ends w d Hcool).
Qed.

(** What a fetch does once its first request has been answered. *)
Lemma fetch_after_answer (coinId : string) (w : World) lat byId :
  cacheLookup (normalize coinId) w = None → lockActive w = false →
  network (length (requests w)) = (lat, Responded (Entries byId)) →
  fetchMoreInfo network coinId w
  = let w1 := answered (moreInfoRequest (normalize coinId)) lat (ready w) in
    (inr (readPrices byId (normalize coinId)),
     setCoinCache
       (<[normalize coinId := {| data := readPrices byId (normalize coinId);
                                 fetchedAt := now w1 |}]> (coinCache w1)) w1).
Proof.
  intros Hcache Hlock Hnet. rewrite fetch_steps, Hcache, Hlock.
  unfold tryCatch.
  by rewrite (requestAndStore_reply _ (ready w) lat (Responded (Entries byId)))
    by (by rewrite ready_requests).
Qed.

Lemma cacheLookup_aged (nid : string) (prices : Prices) (w1 : World)
    cache (d : Z) :
  cache !! nid = Some {| data := prices; fetchedAt := now w1 |} →
  cacheLookup nid (advance d (setCoinCache cache w1))
  = if d <? COIN_CACHE_TTL_MS then Some prices else None.
Proof.
  intros Hentry. unfold cacheLookup.
  rewrite advance_coinCache, advance_now. simpl. rewrite Hentry. simpl.
  by replace (now w1 + d - now w1) with d by lia.
Qed.

(** C4. A fetch that finds no valid cache entry and whose request is
    answered sends exactly one request and returns the three prices; a
    fetch for the same normalized identifier that starts less than two
    minutes after it returns the same prices without sending anything and
    without changing the state; one that starts two minutes after it or
    later finds no valid entry and sends a new request. *)
Theorem cache_serves_for_two_minutes
    (coinId coinId' : string) (w : World) (lat : N)
    (byId : gmap string (nullable RawPrices)) (d : Z) :
  let nid := normalize coinId in
  let first := fetchMoreInfo network coinId w in
  let later := advance d first.2 in
  let second := fetchMoreInfo network coinId' later in
  cacheLookup nid w = None → lockActive w = false →
  network (length (requests w)) = (lat, Responded (Entries byId)) →
  normalize coinId' = nid → 0 ≤ d →
  first.1 = inr (readPrices byId nid)
  ∧ requests first.2
    = requests w ++ [(now w + throttleDelay w, moreInfoRequest nid)]
  ∧ (d < COIN_CACHE_TTL_MS →
       second = (inr (readPrices byId nid), later)
       ∧ requests second.2 = requests first.2)
  ∧ (COIN_CACHE_TTL_MS ≤ d →
       cacheLookup nid later = None
       ∧ ∃ rest,
           requests second.2
           = requests first.2
             ++ (now later + throttleDelay later, moreInfoRequest nid) :: rest).
Proof.
  intros nid first later second Hcache Hlock Hnet Hsame Hd.
  unfold second, later, first.
  rewrite (fetch_after_answer coinId w lat byId Hcache Hlock Hnet).
  cbv zeta. cbn [fst snd]. fold nid.
  assert (Hinactive :
    lockActive (answered (moreInfoRequest nid) lat (ready w)) = false).
  { by apply answered_lock_inactive, ready_lock_inactive. }
  assert (Hreq1 : requests (answered (moreInfoRequest nid) lat (ready w))
                  = requests w ++ [(now w + throttleDelay w, moreInfoRequest nid)]).
  { by rewrite answered_requests, ready_requests, ready_now. }
  remember (answered (moreInfoRequest nid) lat (ready w)) as w1 eqn:Hw1.
  clear Hw1.
  remember (readPrices byId nid) as prices eqn:Hprices. clear Hprices.
  remember (<[nid := {| data := prices; fetchedAt := now w1 |}]> (coinCache w1))
    as cache eqn:Hc.
  assert (Hentry : cache !! nid = Some {| data := prices; fetchedAt := now w1 |}).
  { subst cache. apply lookup_insert_eq. }
  clear Hc.
  pose proof (cacheLookup_aged nid prices w1 cache d Hentry) as Hlookup.
  assert (Hinactive' : lockActive (advance d (setCoinCache cache w1)) = false).
  { apply advance_lock_inactive; [done|]. by rewrite lockActive_setCoinCache. }
  assert (Hreq2 : requests (advance d (setCoinCache cache w1)) = requests w1).
  { by rewrite advance_requests. }
  remember (advance d (setCoinCache cache w1)) as w2 eqn:Hw2. clear Hw2.
  rewrite requests_setCoinCache.
  split; [done|]. split; [exact Hreq1|]. split.
  - intros Hlt. apply Z.ltb_lt in Hlt. rewrite Hlt in Hlookup.
    assert (Hsecond : fetchMoreInfo network coinId' w2 = (inr prices, w2)).
    { by rewrite fetch_steps, Hsame, Hlookup. }
    split; [exact Hsecond|]. by rewrite Hsecond.
  - intros Hge. apply Z.ltb_ge in Hge. rewrite Hge in Hlookup.
    split; [exact Hlookup|].
    rewrite <- Hsame in Hlookup.
    destruct (fetch_sends coinId' w2 Hlookup Hinactive') as [rest Hsent].
    exists rest. by rewrite Hsent, Hsame, Hreq2.
Qed.

End ApiFacts.

Module ApiExamples.
Import JS Api.
Local Open Scope Z_scope.

#[local] Existing Instance referenceHost.

(** C2, as stated, fails: while the lock set by the 429 for ethereum is
    active, a fetch for bitcoin, whose prices were cached five seconds
    earlier, returns them and not the busy error. A fetch for solana, of
    which nothing is cached, gets the busy error. *)
Lemma cached_fetch_passes_active_lock :
  lockActive afterEthereum = true
  ∧ (fetchMoreInfo busyServer " Bitcoin" afterEthereum).1
    = inr {| usd := Finite 64000; eur := Finite 59000; ils := zero |}
  ∧ (fetchMoreInfo busyServer "solana" afterEthereum).1
    = inl (PlainError BUSY_MESSAGE).
Proof. repeat split; vm_compute; reflexivity. Qed.

Lemma rate_limit_lock_witness :
  (cacheLookup (normalize "ethereum") afterBitcoin = None
   ∧ lockActive afterBitcoin = false
   ∧ busyServer (length (requests afterBitcoin)) = (200%N, Rejected status429)
   ∧ tooManyRequests status429
   ∧ lockEndTime afterEthereum = 1012200
   ∧ now afterEthereum = 1005400)
  ∧ (lockActive afterEthereum = true
     ∧ cacheLookup (normalize "solana") afterEthereum = None
     ∧ fetchMoreInfo busyServer "solana" afterEthereum
       = (inl (PlainError BUSY_MESSAGE), afterEthereum))
  ∧ (cooling afterEthereum
     ∧ lockActive (advance 6000 afterEthereum) = true
     ∧ isApiLocked (advance 7000 afterEthereum) = false).
Proof.
  assert (H1 : cacheLookup (normalize "ethereum") afterBitcoin = None)
    by (vm_compute; reflexivity).
  assert (H2 : lockActive afterBitcoin = false) by (vm_compute; reflexivity).
  assert (H3 : busyServer (length (requests afterBitcoin))
               = (200%N, Rejected status429)) by (vm_compute; reflexivity).
  assert (H4 : tooManyRequests status429) by reflexivity.
  assert (H5 : lockActive afterEthereum = true) by (vm_compute; reflexivity).
  assert (H6 : cacheLookup (normalize "solana") afterEthereum = None)
    by (vm_compute; reflexivity).
  assert (H7 : cooling afterEthereum) by (split; vm_compute; reflexivity).
  pose proof (rate_limit_lock busyServer "ethereum" afterBitcoin)
    as (Hset & _ & _).
  pose proof (rate_limit_lock busyServer "solana" afterEthereum)
    as (_ & Hgate & Hcool).
  split; [|split].
  - split; [exact H1|]. split; [exact H2|]. split; [exact H3|].
    split; [exact H4|]. split.
    + refine (eq_trans (proj1 (Hset H1 H2 _ _ H3 H4)) _).
      vm_compute. reflexivity.
    + vm_compute. reflexivity.
  - split; [exact H5|]. split; [exact H6|].
    exact (proj1 (Hgate H5) H6).
  - split; [exact H7|]. split.
    + apply (proj1 (Hcool H7 6000)). vm_compute. reflexivity.
    + apply (proj2 (Hcool H7 7000)). vm_compute. discriminate.
Defined.


Lemma cache_serves_for_two_minutes_witness :
  let w := freshWorld 1000000 in
  let first := fetchMoreInfo busyServer "bitcoin" w in
  let prices := {| usd := Finite 64000; eur := Finite 59000; ils := zero |} in
  (cacheLookup (normalize "bitcoin") w = None
   ∧ lockActive w = false
   ∧ busyServer (length (requests w))
     = (100%N, Responded (Entries {[ "bitcoin" := value bitcoinPrices ]}))
   ∧ normalize " Bitcoin " = normalize "bitcoin")
  ∧ first.1 = inr prices
  ∧ length (requests first.2) = 1%nat
  ∧ (fetchMoreInfo busyServer " Bitcoin " (advance 119999 first.2)).1
    = inr prices
  ∧ requests (fetchMoreInfo busyServer " Bitcoin " (advance 119999 first.2)).2
    = requests first.2
  ∧ length (requests
      (fetchMoreInfo busyServer " Bitcoin " (advance 120000 first.2)).2)
    = 3%nat.
Proof.
  intros w first prices.
  assert (H1 : cacheLookup (normalize "bitcoin") w = None)
    by (vm_compute; reflexivity).
  assert (H2 : lockActive w = false) by (vm_compute; reflexivity).
  assert (H3 : busyServer (length (requests w))
     = (100%N, Responded (Entries {[ "bitcoin" := value bitcoinPrices ]})))
    by reflexivity.
  assert (H4 : normalize " Bitcoin " = normalize "bitcoin")
    by (vm_compute; reflexivity).
  pose proof (cache_serves_for_two_minutes busyServer "bitcoin" " Bitcoin "
                w 100 _ 119999 H1 H2 H3 H4 ltac:(lia))
    as (Hfirst & Hone & Hwithin & _).
  pose proof (cache_serves_for_two_minutes busyServer "bitcoin" " Bitcoin "
                w 100 _ 120000 H1 H2 H3 H4 ltac:(lia))
    as (_ & _ & _ & Hafter).
  destruct Hwithin as [Hsecond Hsame];
    [unfold COIN_CACHE_TTL_MS; lia|].
  destruct Hafter as [_ [rest Hsent]]; [unfold COIN_CACHE_TTL_MS; lia|].
  split; [done|]. split.
  { refine (eq_trans Hfirst _). vm_compute. reflexivity. }
  split.
  { refine (eq_trans (f_equal length Hone) _). vm_compute. reflexivity. }
  split.
  { refine (eq_trans (f_equal fst Hsecond) _). vm_compute. reflexivity. }
  split; [exact Hsame|].
  vm_compute. reflexivity.
Defined.

End ApiExamples.

(** ** More on the favourites store and the handlers of the home page *)

Section FavoritesMore.
Import Favorites Home.

Lemma without_member_length coinId (ids : list string) :
  NoDup ids → coinId ∈ ids → S (length (without coinId ids)) = length ids.
Proof.
  induction 1 as [|x ids Hx Hnd IH]; intros Hin.
  - by apply elem_of_nil in Hin.
  - destruct (decide (x = coinId)) as [-> | Hne].
    + unfold without. rewrite filter_cons_False by (intros ?; done).
      fold (without coinId ids). by rewrite without_absent.
    + rewrite without_cons_keep by done. simpl. f_equal. apply IH.
      apply elem_of_cons in Hin as [-> | Hin]; done.
Qed.

Lemma without_self_absent coinId (ids : list string) :
  coinId ∉ without coinId ids.
Proof. rewrite elem_of_without. by intros [? _]. Qed.

(** X1. Toggling an identifier twice: one that was absent, with room left,
    is added and removed again, which gives the list back; one that was a
    member is removed and added again, which moves it to the end. *)
Theorem toggle_twice (coinId : string) (s : FavoritesState) :
  (coinId ∉ selectedIds s → length (selectedIds s) < 5 →
     toggleFavorite coinId (toggleFavorite coinId s) = s)
  ∧ (wellFormed s → coinId ∈ selectedIds s →
       selectedIds (toggleFavorite coinId (toggleFavorite coinId s))
       = without coinId (selectedIds s) ++ [coinId]).
Proof.
  split.
  - intros Hnot Hlen. unfold toggleFavorite at 2.
    rewrite (proj2 (includes_false _ _) Hnot).
    rewrite decide_True by (by unfold MAX_FAVORITES).
    unfold toggleFavorite. simpl.
    assert (Hin : includes (selectedIds s ++ [coinId]) coinId = true).
    { apply includes_true. set_solver. }
    rewrite Hin, without_app, (without_absent _ _ Hnot).
    unfold without. rewrite filter_cons_False by (intros ?; done).
    rewrite filter_nil, app_nil_r. by destruct s.
  - intros [Hlen Hnd] Hin. unfold toggleFavorite at 2.
    rewrite (proj2 (includes_true _ _) Hin).
    unfold toggleFavorite. simpl.
    rewrite (proj2 (includes_false _ _) (without_self_absent _ _)).
    pose proof (without_member_length coinId _ Hnd Hin) as Hone.
    rewrite decide_True by (unfold MAX_FAVORITES in *; lia).
    done.
Qed.

Lemma toggle_twice_witness :
  let s := {| selectedIds := ["btc"; "eth"; "sol"] |} in
  ((¬ ("ada" ∈ selectedIds s)) ∧ length (selectedIds s) < 5
   ∧ toggleFavorite "ada" (toggleFavorite "ada" s) = s)
  ∧ (wellFormed s ∧ "btc" ∈ selectedIds s
     ∧ selectedIds (toggleFavorite "btc" (toggleFavorite "btc" s))
       = ["eth"; "sol"; "btc"]).
Proof.
  intros s.
  assert (H1 : "ada" ∉ selectedIds s)
    by (apply (bool_decide_unpack _); vm_compute; exact I).
  assert (H2 : length (selectedIds s) < 5) by (simpl; lia).
  assert (H3 : wellFormed s).
  { split; [simpl; unfold MAX_FAVORITES; lia|].
    apply (bool_decide_unpack _). vm_compute. exact I. }
  assert (H4 : "btc" ∈ selectedIds s)
    by (apply (bool_decide_unpack _); vm_compute; exact I).
  split.
  - split; [exact H1|]. split; [exact H2|].
    exact (proj1 (toggle_twice "ada" s) H1 H2).
  - split; [exact H3|]. split; [exact H4|].
    exact (proj2 (toggle_twice "btc" s) H3 H4).
Defined.

(** X2. A toggle changes the membership of no other identifier; its own
    identifier is a member afterwards exactly when it was not one and the
    list had room, so at five identifiers an absent one is not added and
    the state is returned as it is. *)
Theorem toggle_touches_one_id (coinId : string) (s : FavoritesState) :
  (∀ x, x ≠ coinId →
     x ∈ selectedIds (toggleFavorite coinId s) ↔ x ∈ selectedIds s)
  ∧ (coinId ∈ selectedIds (toggleFavorite coinId s)
     ↔ ¬ (coinId ∈ selectedIds s) ∧ length (selectedIds s) < 5)
  ∧ (coinId ∉ selectedIds s → 5 ≤ length (selectedIds s) →
       toggleFavorite coinId s = s).
Proof.
  unfold toggleFavorite.
  destruct (includes (selectedIds s) coinId) eqn:Hin.
  - apply includes_true in Hin. simpl. split; [|split].
    + intros x Hx. rewrite elem_of_without. tauto.
    + split; [|tauto]. intros Habs. by apply without_self_absent in Habs.
    + tauto.
  - apply includes_false in Hin. case_decide as Hlen; simpl.
    + unfold MAX_FAVORITES in Hlen. split; [|split].
      * intros x Hx. rewrite elem_of_app, list_elem_of_singleton. tauto.
      * split; [tauto|]. intros _. set_solver.
      * lia.
    + unfold MAX_FAVORITES in Hlen. split; [|split]; [tauto| |done].
      split; [tauto|]. intros [_ ?]. lia.
Qed.

Lemma toggle_touches_one_id_witness :
  let s := {| selectedIds := ["a"; "b"; "c"; "d"; "e"] |} in
  (¬ ("f" ∈ selectedIds s)) ∧ 5 ≤ length (selectedIds s)
  ∧ toggleFavorite "f" s = s.
Proof.
  intros s.
  assert (H1 : "f" ∉ selectedIds s)
    by (apply (bool_decide_unpack _); vm_compute; exact I).
  assert (H2 : 5 ≤ length (selectedIds s)) by (simpl; lia).
  split; [exact H1|]. split; [exact H2|].
  exact (proj2 (proj2 (toggle_touches_one_id "f" s)) H1 H2).
Defined.

Lemma replaceFavorite_full (removeId addId : string) (s : FavoritesState) :
  wellFormed s → length (selectedIds s) = 5 →
  removeId ∈ selectedIds s → addId ∉ selectedIds s →
  selectedIds (replaceFavorite removeId addId s)
  = without removeId (selectedIds s) ++ [addId].
Proof.
  intros [Hlen Hnd] Hfull Hin Hnot.
  pose proof (without_member_length removeId _ Hnd Hin) as Hone.
  assert (Hadd : addId ∉ without removeId (selectedIds s)).
  { rewrite elem_of_without. tauto. }
  unfold replaceFavorite. simpl.
  rewrite (proj2 (includes_false _ _) Hadd). simpl.
  by rewrite bool_decide_eq_true_2 by (unfold MAX_FAVORITES; lia).
Qed.

(** X3. On a full list of five distinct identifiers, replacing a member by
    an identifier that is not one gives the other four in their order and
    the new one last: still five, no duplicate, the old one gone. *)
Theorem replace_swaps_when_full (removeId addId : string) (s : FavoritesState) :
  wellFormed s → length (selectedIds s) = 5 →
  removeId ∈ selectedIds s → addId ∉ selectedIds s →
  let s' := replaceFavorite removeId addId s in
  selectedIds s' = without removeId (selectedIds s) ++ [addId]
  ∧ length (selectedIds s') = 5
  ∧ NoDup (selectedIds s')
  ∧ (¬ (removeId ∈ selectedIds s'))
  ∧ ∀ x, x ∈ selectedIds s'
         ↔ (x ∈ selectedIds s ∧ x ≠ removeId) ∨ x = addId.
Proof.
  intros [Hlen Hnd] Hfull Hin Hnot s'.
  pose proof (without_member_length removeId _ Hnd Hin) as Hone.
  assert (Hadd : addId ∉ without removeId (selectedIds s)).
  { rewrite elem_of_without. tauto. }
  assert (Heq : selectedIds s' = without removeId (selectedIds s) ++ [addId])
    by (by apply replaceFavorite_full).
  rewrite Heq. split; [done|]. split.
  { rewrite length_app. simpl. lia. }
  split.
  { apply NoDup_app. split; [by apply without_NoDup|].
    split; [|apply NoDup_singleton].
    intros y Hy Hy'. apply list_elem_of_singleton in Hy'. by subst. }
  split.
  { rewrite elem_of_app, list_elem_of_singleton.
    intros [Habs | ->]; [by apply without_self_absent in Habs | done]. }
  intros x. rewrite elem_of_app, list_elem_of_singleton, elem_of_without.
  tauto.
Qed.

Lemma replace_swaps_when_full_witness :
  let s := {| selectedIds := ["a"; "b"; "c"; "d"; "e"] |} in
  wellFormed s ∧ length (selectedIds s) = 5
  ∧ "b" ∈ selectedIds s ∧ (¬ ("f" ∈ selectedIds s))
  ∧ selectedIds (replaceFavorite "b" "f" s) = ["a"; "c"; "d"; "e"; "f"].
Proof.
  intros s.
  assert (H1 : wellFormed s).
  { split; [simpl; unfold MAX_FAVORITES; lia|].
    apply (bool_decide_unpack _). vm_compute. exact I. }
  assert (H2 : "b" ∈ selectedIds s)
    by (apply (bool_decide_unpack _); vm_compute; exact I).
  assert (H3 : "f" ∉ selectedIds s)
    by (apply (bool_decide_unpack _); vm_compute; exact I).
  split; [exact H1|]. split; [reflexivity|]. split; [exact H2|].
  split; [exact H3|].
  exact (proj1 (replace_swaps_when_full "b" "f" s H1 eq_refl H2 H3)).
Defined.

Lemma handle_wellFormed (st : HomeState) (ev : event) :
  wellFormed (favorites st) → wellFormed (favorites (handle st ev)).
Proof.
  intros Hwf. destruct ev as [coinId confirmed | removeCoinId |]; simpl.
  - unfold handleToggle.
    destruct (includes _ coinId); [destruct confirmed; simpl; [|done]|].
    + by apply (reducer_wellFormed _ (ToggleFavorite coinId)).
    + case_decide; simpl; [done|].
      by apply (reducer_wellFormed _ (ToggleFavorite coinId)).
  - unfold handleReplace. destruct (pendingCoinId st) as [pending|]; [|done].
    case_decide; simpl; [done|].
    by apply (reducer_wellFormed _ (ReplaceFavorite removeCoinId pending)).
  - done.
Qed.

(** X4. Whatever the user does on the home page (toggles with either
    answer to the confirmation, replacements from the dialog, closing the
    dialog), the favourites stay at most five distinct identifiers.
    Closing the dialog changes no favourite and forgets the pending coin,
    so a replacement after it does nothing; in particular a toggle of a
    sixth coin followed by closing the dialog leaves the favourites as
    they were. *)
Theorem home_never_adds_a_sixth (st : HomeState) (evs : list event) :
  wellFormed (favorites st) →
  wellFormed (favorites (handleAll st evs))
  ∧ favorites (handleCloseModal st) = favorites st
  ∧ (∀ removeCoinId,
       handleReplace removeCoinId (handleCloseModal st) = handleCloseModal st)
  ∧ (∀ coinId confirmed,
       coinId ∉ selectedIds (favorites st) →
       length (selectedIds (favorites st)) = 5 →
       favorites (handleAll st [Toggle coinId confirmed; CloseModal])
       = favorites st).
Proof.
  intros Hwf. split; [|split; [done|split; [done|]]].
  - revert st Hwf. induction evs as [|ev evs IH]; intros st Hwf; [done|].
    simpl. apply IH. by apply handle_wellFormed.
  - intros coinId confirmed Hnot Hfull. simpl. unfold handleToggle.
    rewrite (proj2 (includes_false _ _) Hnot).
    rewrite decide_True by (unfold MAX_FAVORITES; lia). done.
Qed.

Lemma home_never_adds_a_sixth_witness :
  let st := {| favorites := {| selectedIds := ["a"; "b"; "c"; "d"; "e"] |};
               pendingCoinId := None; isModalOpen := false |} in
  wellFormed (favorites st)
  ∧ (¬ ("f" ∈ selectedIds (favorites st)))
  ∧ length (selectedIds (favorites st)) = 5
  ∧ favorites (handleAll st [Toggle "f" true; CloseModal]) = favorites st
  ∧ wellFormed (favorites (handleAll st
      [Toggle "f" true; Replace "a"; Toggle "g" false; Toggle "b" true])).
Proof.
  intros st.
  assert (H1 : wellFormed (favorites st)).
  { split; [simpl; unfold MAX_FAVORITES; lia|].
    apply (bool_decide_unpack _). vm_compute. exact I. }
  assert (H2 : "f" ∉ selectedIds (favorites st))
    by (apply (bool_decide_unpack _); vm_compute; exact I).
  split; [exact H1|]. split; [exact H2|]. split; [reflexivity|]. split.
  - exact (proj2 (proj2 (proj2 (home_never_adds_a_sixth st [] H1)))
             "f" true H2 eq_refl).
  - exact (proj1 (home_never_adds_a_sixth st _ H1)).
Defined.

(** X5. The replacement flow: with five distinct favourites, toggling a
    coin that is not among them changes nothing but opens the dialog with
    that coin pending; choosing a favourite to replace then swaps the two,
    closes the dialog and clears the pending coin. A pending coin whose
    identifier is the empty string is treated as none: the replacement
    does nothing. *)
Theorem home_replace_flow
    (st : HomeState) (coinId removeCoinId : string) (confirmed : bool) :
  wellFormed (favorites st) →
  length (selectedIds (favorites st)) = 5 →
  coinId ∉ selectedIds (favorites st) →
  removeCoinId ∈ selectedIds (favorites st) →
  let opened := handleToggle coinId confirmed st in
  let replaced := handleReplace removeCoinId opened in
  favorites opened = favorites st
  ∧ pendingCoinId opened = Some coinId ∧ isModalOpen opened = true
  ∧ (coinId ≠ "" →
       selectedIds (favorites replaced)
       = without removeCoinId (selectedIds (favorites st)) ++ [coinId]
       ∧ pendingCoinId replaced = None ∧ isModalOpen replaced = false)
  ∧ (coinId = "" → replaced = opened).
Proof.
  intros Hwf Hfull Hnot Hin opened replaced.
  assert (Hopened : opened
    = {| favorites := favorites st; pendingCoinId := Some coinId;
         isModalOpen := true |}).
  { unfold opened, handleToggle.
    rewrite (proj2 (includes_false _ _) Hnot).
    by rewrite decide_True by (unfold MAX_FAVORITES; lia). }
  unfold replaced. rewrite Hopened. unfold handleReplace. simpl.
  split; [done|]. split; [done|]. split; [done|]. split.
  - intros Hne. rewrite decide_False by done. simpl.
    split; [|done].
    by apply replaceFavorite_full.
  - intros ->. by rewrite decide_True.
Qed.

Lemma home_replace_flow_witness :
  let st := {| favorites := {| selectedIds := ["a"; "b"; "c"; "d"; "e"] |};
               pendingCoinId := None; isModalOpen := false |} in
  wellFormed (favorites st)
  ∧ length (selectedIds (favorites st)) = 5
  ∧ (¬ ("f" ∈ selectedIds (favorites st)))
  ∧ "c" ∈ selectedIds (favorites st)
  ∧ selectedIds (favorites (handleReplace "c" (handleToggle "f" false st)))
    = ["a"; "b"; "d"; "e"; "f"].
Proof.
  intros st.
  assert (H1 : wellFormed (favorites st)).
  { split; [simpl; unfold MAX_FAVORITES; lia|].
    apply (bool_decide_unpack _). vm_compute. exact I. }
  assert (H2 : "f" ∉ selectedIds (favorites st))
    by (apply (bool_decide_unpack _); vm_compute; exact I).
  assert (H3 : "c" ∈ selectedIds (favorites st))
    by (apply (bool_decide_unpack _); vm_compute; exact I).
  split; [exact H1|]. split; [reflexivity|]. split; [exact H2|].
  split; [exact H3|].
  exact (proj1 (proj1 (proj2 (proj2 (proj2
    (home_replace_flow st "f" "c" false H1 eq_refl H2 H3))))
    ltac:(discriminate))).
Defined.

End FavoritesMore.

(** ** Saving and loading the favourites *)

Section PersistFacts.
Import Favorites Store Persist.

(** X6. What the store subscriber writes is what the next start reads: if
    the parser of the host reads the serialized list back as the array of
    its strings, loading after a save gives the first five identifiers of
    the state, which for a list within the limit is the list itself. A save
    that fails on the quota leaves the stored items as they were, and with
    no access to the storage nothing is saved and the empty list loads. *)
Theorem save_then_load
    (key : string) (stringify : list string → string)
    (parse : string → option json)
    (state : FavoritesState) (items : gmap string string) :
  parse (stringify (selectedIds state))
    = Some (JArray (JString <$> selectedIds state)) →
  loadPersistedFavorites key parse
    (saveFavorites key stringify false state (Some items))
  = take 5 (selectedIds state)
  ∧ (length (selectedIds state) ≤ 5 →
       loadPersistedFavorites key parse
         (saveFavorites key stringify false state (Some items))
       = selectedIds state)
  ∧ saveFavorites key stringify true state (Some items) = Some items
  ∧ loadPersistedFavorites key parse
      (saveFavorites key stringify false state None) = [].
Proof.
  intros Hparse.
  assert (Hload : loadPersistedFavorites key parse
            (saveFavorites key stringify false state (Some items))
          = take 5 (selectedIds state)).
  { unfold loadPersistedFavorites, saveFavorites.
    rewrite lookup_insert_eq, Hparse.
    by rewrite omap_asString_all_strings. }
  split; [exact Hload|]. split; [|done].
  intros Hlen. rewrite Hload. by apply take_ge.
Qed.

Lemma save_then_load_witness :
  let state := {| selectedIds := ["btc"; "eth"] |} in
  parseBtcEth (commaJoin (selectedIds state))
    = Some (JArray (JString <$> selectedIds state))
  ∧ loadPersistedFavorites "favorites" parseBtcEth
      (saveFavorites "favorites" commaJoin false state (Some ∅))
    = ["btc"; "eth"].
Proof.
  intros state.
  assert (H1 : parseBtcEth (commaJoin (selectedIds state))
               = Some (JArray (JString <$> selectedIds state)))
    by reflexivity.
  split; [exact H1|].
  exact (proj1 (proj2 (save_then_load "favorites" commaJoin parseBtcEth
                         state ∅ H1)) ltac:(simpl; lia)).
Defined.

End PersistFacts.

(** ** More on the market-data client *)

Section ApiMore.
Import JS Api FetchPaths.
Local Open Scope Z_scope.
Context `{Runtime}.
Variable network : nat → N * reply.

Lemma last_setCoinCache cache w :
  lastMoreInfoRequestTime (setCoinCache cache w) = lastMoreInfoRequestTime w.
Proof. reflexivity. Qed.

Lemma coinCache_setCoinCache cache w : coinCache (setCoinCache cache w) = cache.
Proof. reflexivity. Qed.

Lemma answered_last req lat w :
  lastMoreInfoRequestTime (answered req lat w) = lastMoreInfoRequestTime w.
Proof. unfold answered. by rewrite advance_last. Qed.

Lemma ready_last w : lastMoreInfoRequestTime (ready w) = now (ready w).
Proof. reflexivity. Qed.

Lemma retryWorld_facts err w :
  requests (retryWorld err w) = requests w
  ∧ coinCache (retryWorld err w) = coinCache w
  ∧ lastMoreInfoRequestTime (retryWorld err w) = lastMoreInfoRequestTime w
  ∧ now (retryWorld err w) = now w + RETRY_WAIT_MS.
Proof.
  unfold retryWorld.
  rewrite advance_requests, advance_coinCache, advance_last, advance_now.
  by destruct (isRateLimited err).
Qed.

(** What one request leaves behind, whatever the answer. *)
Lemma requestAndStore_facts (nid : string) (w : World) :
  let run := requestAndStore network nid w in
  requests run.2 = requests w ++ [(now w, moreInfoRequest nid)]
  ∧ lastMoreInfoRequestTime run.2 = lastMoreInfoRequestTime w
  ∧ now w ≤ now run.2
  ∧ match run.1 with
    | inr d =>
        coinCache run.2
        = <[nid := {| data := d; fetchedAt := now run.2 |}]> (coinCache w)
    | inl _ => coinCache run.2 = coinCache w
    end.
Proof.
  intros run. unfold run. rewrite requestAndStore_steps. cbv zeta.
  pose proof (answered_requests (moreInfoRequest nid)
                (network (length (requests w))).1 w) as Hreq.
  pose proof (answered_last (moreInfoRequest nid)
                (network (length (requests w))).1 w) as Hlast.
  pose proof (answered_now (moreInfoRequest nid)
                (network (length (requests w))).1 w) as Hnow.
  pose proof (answered_coinCache (moreInfoRequest nid)
                (network (length (requests w))).1 w) as Hcache.
  remember (answered (moreInfoRequest nid)
              (network (length (requests w))).1 w) as w' eqn:Hw'.
  clear Hw'.
  assert (Hle : now w ≤ now w') by lia.
  destruct (network (length (requests w))).2 as [[|byId]|e]; cbn [fst snd].
  - done.
  - rewrite requests_setCoinCache, last_setCoinCache, now_setCoinCache,
      coinCache_setCoinCache, Hcache. done.
  - done.
Qed.

Lemma fetch_shape (coinId : string) (w : World) :
  fetchShape network coinId w (fetchMoreInfo network coinId w).
Proof.
  rewrite fetch_steps.
  destruct (cacheLookup (normalize coinId) w) as [cached|] eqn:Hcache.
  { by constructor. }
  destruct (lockActive w) eqn:Hlock.
  { by constructor. }
  unfold tryCatch.
  destruct (requestAndStore network (normalize coinId) (ready w))
    as [[err|d] w1] eqn:Hfirst.
  - rewrite retryAfterFailure_steps.
    destruct (isRetryableError err) eqn:Hretry.
    + pose proof (ShapeTwice network coinId w err Hcache Hlock) as Hshape.
      rewrite Hfirst in Hshape. by apply Hshape.
    + rewrite <- Hfirst. apply ShapeOnce; try done.
      rewrite Hfirst. simpl. by intros ? [= <-].
  - rewrite <- Hfirst. apply ShapeOnce; try done.
    rewrite Hfirst. simpl. by intros ? [=].
Qed.

Lemma ready_after w : now w ≤ now (ready w).
Proof. rewrite ready_now. pose proof (throttleDelay_nonneg w). lia. Qed.

Lemma throttleDelay_spacing w :
  lastMoreInfoRequestTime w + MORE_INFO_MIN_INTERVAL_MS
  ≤ now w + throttleDelay w.
Proof.
  unfold throttleDelay.
  destruct (now w - lastMoreInfoRequestTime w <? MORE_INFO_MIN_INTERVAL_MS)
    eqn:Hlt; [lia|].
  apply Z.ltb_ge in Hlt. lia.
Qed.

(** What a fetch that goes to the network leaves behind. *)
Lemma fetch_network_facts (coinId : string) (w : World) :
  cacheLookup (normalize coinId) w = None → lockActive w = false →
  let run := fetchMoreInfo network coinId w in
  let sentAt := now w + throttleDelay w in
  let req := moreInfoRequest (normalize coinId) in
  lastMoreInfoRequestTime run.2 = sentAt
  ∧ sentAt ≤ now run.2
  ∧ (requests run.2 = requests w ++ [(sentAt, req)]
     ∨ ∃ t, sentAt + RETRY_WAIT_MS ≤ t
            ∧ requests run.2 = requests w ++ [(sentAt, req); (t, req)])
  ∧ match run.1 with
    | inr d =>
        coinCache run.2
        = <[normalize coinId := {| data := d; fetchedAt := now run.2 |}]>
            (coinCache w)
    | inl _ => coinCache run.2 = coinCache w
    end.
Proof.
  intros Hcache Hlock run sentAt req.
  pose proof (fetch_shape coinId w) as Hshape. fold run in Hshape.
  pose proof (ready_now w) as Hnow0. fold sentAt in Hnow0.
  pose proof (ready_requests w) as Hreq0.
  pose proof (ready_coinCache w) as Hcache0.
  pose proof (ready_last w) as Hlast0.
  clearbody run sentAt.
  destruct Hshape as [cached Hc | Hc Hl | _ _ Hno | err _ _ Hfirst Hretry];
    try congruence.
  - destruct (requestAndStore_facts (normalize coinId) (ready w))
      as (Hreq & Hlast & Hle & Hcc).
    rewrite Hreq, Hlast, Hreq0, Hlast0, Hnow0.
    split; [done|]. split; [lia|]. split; [by left|].
    destruct (requestAndStore network (normalize coinId) (ready w)).1;
      by rewrite Hcc, Hcache0.
  - destruct (requestAndStore_facts (normalize coinId) (ready w))
      as (Hreq1 & Hlast1 & Hle1 & Hcc1).
    rewrite Hfirst in Hcc1.
    remember (requestAndStore network (normalize coinId) (ready w)).2 as w1 eqn:Hw1.
    clear Hw1 Hfirst.
    destruct (retryWorld_facts err w1) as (Hreq2 & Hcc2 & Hlast2 & Hnow2).
    remember (retryWorld err w1) as w2 eqn:Hw2. clear Hw2.
    destruct (requestAndStore_facts (normalize coinId) w2)
      as (Hreq3 & Hlast3 & Hle3 & Hcc3).
    rewrite Hreq3, Hlast3, Hreq2, Hlast2, Hreq1, Hlast1, Hreq0, Hlast0, Hnow0.
    split; [done|]. split; [unfold RETRY_WAIT_MS in *; lia|]. split.
    + right. exists (now w2). split; [lia|]. by rewrite <- app_assoc.
    + destruct (requestAndStore network (normalize coinId) w2).1;
        by rewrite Hcc3, Hcc2, Hcc1, Hcache0.
Qed.

(** X7. The throttle: the first request of a fetch goes out no earlier
    than two seconds after the first request of the fetch before it, at
    once when that long has passed already, and never before the fetch
    starts. The fetch records that moment, and idle time does not change
    it, so the same holds for the fetch after it. A fetch served from the
    cache or refused by the lock records nothing. *)
Theorem throttle_keeps_requests_apart (coinId : string) (w : World) (d : Z) :
  let nid := normalize coinId in
  let run := fetchMoreInfo network coinId w in
  let sentAt := now w + throttleDelay w in
  (cacheLookup nid w = None → lockActive w = false →
     lastMoreInfoRequestTime w + MORE_INFO_MIN_INTERVAL_MS ≤ sentAt
     ∧ now w ≤ sentAt
     ∧ (lastMoreInfoRequestTime w + MORE_INFO_MIN_INTERVAL_MS ≤ now w →
          sentAt = now w)
     ∧ lastMoreInfoRequestTime run.2 = sentAt
     ∧ sentAt + MORE_INFO_MIN_INTERVAL_MS
       ≤ now (advance d run.2) + throttleDelay (advance d run.2))
  ∧ (cacheLookup nid w ≠ None ∨ lockActive w = true → run.2 = w).
Proof.
  intros nid run sentAt. split.
  - intros Hcache Hlock.
    destruct (fetch_network_facts coinId w Hcache Hlock) as (Hlast & _).
    fold run sentAt in Hlast.
    pose proof (throttleDelay_spacing w) as Hsp.
    pose proof (throttleDelay_nonneg w) as Hnn.
    pose proof (throttleDelay_spacing (advance d run.2)) as Hsp2.
    rewrite advance_last, Hlast in Hsp2.
    split; [exact Hsp|]. split; [unfold sentAt; lia|]. split.
    + intros Hpassed. unfold sentAt, throttleDelay.
      rewrite (proj2 (Z.ltb_ge _ _)) by lia. lia.
    + split; [exact Hlast | exact Hsp2].
  - intros Hserved. unfold run. rewrite fetch_steps. fold nid.
    destruct (cacheLookup nid w) as [cached|]; [done|].
    destruct Hserved as [Habs | Hlock]; [done|]. by rewrite Hlock.
Qed.

(** X8. A fetch puts at most two requests on the wire, both for its own
    normalized identifier: none, or one when the throttle is served, or
    that one and a second at least three seconds later. The clock never
    runs backwards over a fetch. *)
Theorem fetch_sends_at_most_twice (coinId : string) (w : World) :
  let run := fetchMoreInfo network coinId w in
  let sentAt := now w + throttleDelay w in
  let req := moreInfoRequest (normalize coinId) in
  now w ≤ now run.2
  ∧ (requests run.2 = requests w
     ∨ requests run.2 = requests w ++ [(sentAt, req)]
     ∨ ∃ t, sentAt + RETRY_WAIT_MS ≤ t
            ∧ requests run.2 = requests w ++ [(sentAt, req); (t, req)]).
Proof.
  intros run sentAt req.
  destruct (cacheLookup (normalize coinId) w) as [cached|] eqn:Hcache.
  { unfold run. rewrite fetch_steps, Hcache. simpl. split; [lia | by left]. }
  destruct (lockActive w) eqn:Hlock.
  { unfold run. rewrite fetch_steps, Hcache, Hlock. simpl.
    split; [lia | by left]. }
  destruct (fetch_network_facts coinId w Hcache Hlock)
    as (_ & Hle & Hreqs & _).
  fold run sentAt req in Hle, Hreqs.
  pose proof (throttleDelay_nonneg w).
  split; [unfold sentAt in Hle; lia|]. by right.
Qed.

(** X9. A fetch that fails leaves the cache as it was. A fetch that
    returns prices leaves them as the valid entry of its normalized
    identifier and leaves the entries of every other identifier as they
    were. *)
Theorem cache_written_only_on_success (coinId : string) (w : World) :
  let nid := normalize coinId in
  let run := fetchMoreInfo network coinId w in
  (∀ err, run.1 = inl err → coinCache run.2 = coinCache w)
  ∧ (∀ prices, run.1 = inr prices →
       cacheLookup nid run.2 = Some prices
       ∧ ∀ other, other ≠ nid →
           coinCache run.2 !! other = coinCache w !! other).
Proof.
  intros nid run.
  destruct (cacheLookup nid w) as [cached|] eqn:Hcache.
  { unfold run. rewrite fetch_steps. fold nid. rewrite Hcache. simpl.
    split; [done|]. intros prices [= <-]. done. }
  destruct (lockActive w) eqn:Hlock.
  { unfold run. rewrite fetch_steps. fold nid. rewrite Hcache, Hlock. simpl.
    split; [done|]. by intros prices [=]. }
  destruct (fetch_network_facts coinId w Hcache Hlock) as (_ & _ & _ & Hcc).
  fold run nid in Hcc. clearbody run.
  destruct run as [[err|prices] w']; simpl in *.
  - split; [done|]. by intros ? [=].
  - split; [by intros ? [=]|]. intros ? [= <-]. split.
    + unfold cacheLookup. rewrite Hcc, lookup_insert_eq. simpl.
      by rewrite Z.sub_diag.
    + intros other Hne. by rewrite Hcc, lookup_insert_ne.
Qed.

(** X10. A sparse answer is not a failure: when the answer holds no record
    for the identifier, the fetch returns zero for the three currencies,
    and it caches them, so that for the next two minutes a fetch for the
    identifier returns the zeros without asking again. *)
Theorem missing_record_reads_as_zero
    (coinId coinId' : string) (w : World) (lat : N)
    (byId : gmap string (nullable RawPrices)) (d : Z) :
  let nid := normalize coinId in
  let run := fetchMoreInfo network coinId w in
  let zeros := {| usd := zero; eur := zero; ils := zero |} in
  cacheLookup nid w = None → lockActive w = false →
  network (length (requests w)) = (lat, Responded (Entries byId)) →
  byId !! nid = None →
  run.1 = inr zeros
  ∧ cacheLookup nid run.2 = Some zeros
  ∧ (normalize coinId' = nid → 0 ≤ d → d < COIN_CACHE_TTL_MS →
       fetchMoreInfo network coinId' (advance d run.2)
       = (inr zeros, advance d run.2)).
Proof.
  intros nid run zeros Hcache Hlock Hnet Hnone.
  unfold run. rewrite (fetch_after_answer network coinId w lat byId Hcache Hlock Hnet).
  cbv zeta. cbn [fst snd]. fold nid.
  assert (Hzero : readPrices byId nid = zeros).
  { unfold readPrices. by rewrite Hnone. }
  rewrite Hzero.
  remember (answered (moreInfoRequest nid) lat (ready w)) as w1 eqn:Hw1.
  clear Hw1.
  split; [done|]. split; [apply cacheLookup_stored|].
  intros Hsame Hd Hlt.
  rewrite fetch_steps, Hsame.
  rewrite (cacheLookup_aged nid zeros w1 _ d) by apply lookup_insert_eq.
  by rewrite (proj2 (Z.ltb_lt _ _) Hlt).
Qed.

(** X11. An answer whose body is no object is a failure of its own: the
    fetch ends with the invalid-response error when the answer arrives,
    after one request, with no wait and no retry, the cache and the lock
    as they were. *)
Theorem invalid_body_fails_at_once (coinId : string) (w : World) (lat : N) :
  let nid := normalize coinId in
  let run := fetchMoreInfo network coinId w in
  let sentAt := now w + throttleDelay w in
  cacheLookup nid w = None → lockActive w = false →
  network (length (requests w)) = (lat, Responded NotAnObject) →
  run.1 = inl (PlainError "Invalid response from CoinGecko")
  ∧ requests run.2 = requests w ++ [(sentAt, moreInfoRequest nid)]
  ∧ now run.2 = sentAt + Z.of_N lat
  ∧ coinCache run.2 = coinCache w
  ∧ lockEndTime run.2 = lockEndTime w.
Proof.
  intros nid run sentAt Hcache Hlock Hnet.
  unfold run. rewrite fetch_steps. fold nid. rewrite Hcache, Hlock.
  unfold tryCatch.
  rewrite (requestAndStore_reply network nid (ready w) lat
             (Responded NotAnObject)) by (by rewrite ready_requests).
  rewrite retryAfterFailure_steps. cbn [isRetryableError fst snd].
  rewrite answered_requests, answered_now, answered_coinCache,
    answered_lockEndTime, ready_requests, ready_now, ready_coinCache,
    ready_lockEndTime.
  done.
Qed.

(** X12. What the page is told about the lock: nothing to wait for when the
    lock is not set, and never a negative wait. Once the lock is set it
    reports ten seconds, after [d] milliseconds it reports what is left of
    them, and from ten seconds on it reports the lock as gone. *)
Theorem lock_state_counts_down (w : World) (d : Z) :
  0 ≤ (getMoreInfoLockState w).2
  ∧ (isApiLocked w = false → getMoreInfoLockState w = (false, 0))
  ∧ getMoreInfoLockState (engageLock w) = (true, LOCK_DURATION_MS)
  ∧ (0 ≤ d → d < LOCK_DURATION_MS →
       getMoreInfoLockState (advance d (engageLock w))
       = (true, LOCK_DURATION_MS - d))
  ∧ (LOCK_DURATION_MS ≤ d →
       getMoreInfoLockState (advance d (engageLock w)) = (false, 0)).
Proof.
  split; [|split; [|split; [|split]]].
  - unfold getMoreInfoLockState. destruct (isApiLocked w); simpl; lia.
  - intros Hl. unfold getMoreInfoLockState. by rewrite Hl.
  - unfold getMoreInfoLockState, engageLock. simpl.
    f_equal. unfold LOCK_DURATION_MS. lia.
  - intros Hd Hlt.
    rewrite (advance_before_due d (engageLock w) (now w + LOCK_DURATION_MS))
      by (simpl; done || lia).
    unfold getMoreInfoLockState. simpl. f_equal. lia.
  - intros Hge.
    rewrite (advance_after_due d (engageLock w) (now w + LOCK_DURATION_MS))
      by (simpl; done || lia).
    reflexivity.
Qed.

Lemma removeFirst_last (listener : nat) (ls : list nat) :
  listener ∉ ls → removeFirst listener (ls ++ [listener]) = ls.
Proof.
  induction ls as [|l ls IH]; intros Hnot; simpl.
  - by rewrite decide_True.
  - apply not_elem_of_cons in Hnot as [Hne Hnot].
    rewrite decide_False by done. by rewrite IH.
Qed.

(** X13. A listener that subscribes and unsubscribes leaves the list of
    listeners as it was. When the cooldown ends, the listeners subscribed
    at that moment are called once each in the order they subscribed: one
    that subscribed during the cooldown is called last, one that has
    unsubscribed is not called. *)
Theorem unsubscribed_listener_is_not_called
    (listener : nat) (w : World) (d : Z) :
  listener ∉ lockListeners w →
  lockListeners (unsubscribe listener (subscribeToMoreInfoLock listener w))
  = lockListeners w
  ∧ (cooling w → lockEndTime w ≤ now w + d →
       notified (advance d (subscribeToMoreInfoLock listener w))
       = notified w ++ cooldownCalls w ++ [(lockEndTime w, listener)]
       ∧ notified (advance d
           (unsubscribe listener (subscribeToMoreInfoLock listener w)))
         = notified w ++ cooldownCalls w).
Proof.
  intros Hnot.
  assert (Hback : lockListeners
            (unsubscribe listener (subscribeToMoreInfoLock listener w))
          = lockListeners w).
  { unfold unsubscribe, subscribeToMoreInfoLock. simpl.
    by apply removeFirst_last. }
  split; [exact Hback|].
  intros Hcool Hle. split.
  - destruct (advance_cooling_after d (subscribeToMoreInfoLock listener w))
      as (_ & _ & Hn & _); [exact Hcool | exact Hle |].
    rewrite Hn. unfold cooldownCalls, subscribeToMoreInfoLock. simpl.
    by rewrite fmap_app.
  - destruct (advance_cooling_after d
                (unsubscribe listener (subscribeToMoreInfoLock listener w)))
      as (_ & _ & Hn & _); [exact Hcool | exact Hle |].
    rewrite Hn. unfold cooldownCalls. by rewrite Hback.
Qed.

(** X14. Setting the lock again while it is set restarts the ten seconds
    and replaces the timer: the lock stays active past the moment the
    first cooldown would have ended, nobody is called at that moment, and
    every listener is called once, when the second cooldown ends. *)
Theorem relock_restarts_the_cooldown (w : World) (d0 d : Z) :
  0 ≤ d0 → d0 < LOCK_DURATION_MS →
  let relocked := engageLock (advance d0 (engageLock w)) in
  lockEndTime relocked = now w + d0 + LOCK_DURATION_MS
  ∧ notified relocked = notified w
  ∧ (d < LOCK_DURATION_MS →
       lockActive (advance d relocked) = true
       ∧ notified (advance d relocked) = notified w)
  ∧ (LOCK_DURATION_MS ≤ d →
       isApiLocked (advance d relocked) = false
       ∧ notified (advance d relocked)
         = notified w
           ++ ((λ l, (now w + d0 + LOCK_DURATION_MS, l)) <$> lockListeners w)).
Proof.
  intros Hd0 Hlt relocked.
  assert (Hfirst : advance d0 (engageLock w)
                   = setNow (now w + d0) (engageLock w)).
  { apply (advance_before_due d0 (engageLock w) (now w + LOCK_DURATION_MS));
      [done | simpl; lia]. }
  assert (Hcool : cooling relocked) by (split; reflexivity).
  assert (Hend : lockEndTime relocked = now w + d0 + LOCK_DURATION_MS).
  { unfold relocked. rewrite Hfirst. reflexivity. }
  assert (Hnow : now relocked = now w + d0).
  { unfold relocked. rewrite Hfirst. reflexivity. }
  assert (Hnot : notified relocked = notified w).
  { unfold relocked. rewrite Hfirst. reflexivity. }
  assert (Hls : lockListeners relocked = lockListeners w).
  { unfold relocked. rewrite Hfirst. reflexivity. }
  clearbody relocked. clear Hfirst.
  split; [exact Hend|]. split; [exact Hnot|]. split.
  - intros Hd.
    destruct (advance_cooling_before d relocked Hcool) as (_ & _ & Hn & Ha);
      [lia|].
    split; [exact Ha | by rewrite Hn].
  - intros Hd.
    destruct (advance_cooling_after d relocked Hcool) as (Hu & _ & Hn & _);
      [lia|].
    split; [exact Hu|]. rewrite Hn, Hnot. unfold cooldownCalls.
    by rewrite Hend, Hls.
Qed.

(** X15. The interceptor keeps the status and the code of an error and
    touches nothing but the message, and only for the price request of
    the detail fetch: status 429 gets the high-demand text and a network
    error gets the check-your-connection text. As the retry test runs on
    the error the interceptor returns, its test on the message never
    holds, and the request is retried exactly on status 429 or code
    ERR_NETWORK. *)
Theorem interceptor_decides_the_retry (nid : string) (e : AxiosError) :
  let req := moreInfoRequest nid in
  status (interceptor req e) = status e
  ∧ code (interceptor req e) = code e
  ∧ (∀ other, isMoreInfoRequest other = false → interceptor other e = e)
  ∧ (status e = Some 429 → message (interceptor req e) = RATE_LIMIT_MESSAGE)
  ∧ (status e ≠ Some 429 → isNetworkError e = true →
       message (interceptor req e) = NETWORK_MESSAGE)
  ∧ (isRetryableError (Axios e) = true
     ↔ status e = Some 429 ∨ message e = "Network Error"
       ∨ code e = Some "ERR_NETWORK")
  ∧ (isRetryableError (Axios (interceptor req e)) = true
     ↔ status e = Some 429 ∨ code e = Some "ERR_NETWORK").
Proof.
  intros req.
  assert (Hfields : status (interceptor req e) = status e
                    ∧ code (interceptor req e) = code e).
  { unfold interceptor. simpl.
    destruct (hasStatus e 429); [done|]. by destruct (isNetworkError e). }
  split; [apply Hfields|]. split; [apply Hfields|]. split.
  { intros other Hother. unfold interceptor. by rewrite Hother. }
  split.
  { intros H429. unfold interceptor. simpl.
    by rewrite (proj2 (hasStatus_true e 429) H429). }
  split.
  { intros Hn Hnet. unfold interceptor. simpl.
    by rewrite (proj2 (hasStatus_false e 429) Hn), Hnet. }
  split.
  - unfold isRetryableError, isNetworkError.
    rewrite !orb_true_iff, hasStatus_true, String.eqb_eq,
      bool_decide_eq_true. tauto.
  - unfold req. rewrite intercepted_retryable.
    by rewrite orb_true_iff, hasStatus_true, bool_decide_eq_true.
Qed.

End ApiMore.

Module ApiMoreExamples.
Import JS Api FetchPaths Sessions.
Local Open Scope Z_scope.

#[local] Existing Instance referenceHost.

Lemma throttle_keeps_requests_apart_witness :
  cacheLookup (normalize "ethereum") afterBitcoin = None
  ∧ lockActive afterBitcoin = false
  ∧ now afterBitcoin = 1000100
  ∧ lastMoreInfoRequestTime afterBitcoin = 1000000
  ∧ lastMoreInfoRequestTime afterEthereum = 1002000.
Proof.
  assert (H1 : cacheLookup (normalize "ethereum") afterBitcoin = None)
    by (vm_compute; reflexivity).
  assert (H2 : lockActive afterBitcoin = false) by (vm_compute; reflexivity).
  split; [exact H1|]. split; [exact H2|].
  split; [vm_compute; reflexivity|]. split; [vm_compute; reflexivity|].
  refine (eq_trans (proj1 (proj2 (proj2 (proj2
    (proj1 (throttle_keeps_requests_apart busyServer "ethereum"
              afterBitcoin 0) H1 H2))))) _).
  vm_compute. reflexivity.
Defined.

Lemma cache_written_only_on_success_witness :
  let run := fetchMoreInfo brokenServer "ethereum" afterBitcoin in
  run.1 = inl (Axios status500)
  ∧ coinCache run.2 = coinCache afterBitcoin
  ∧ (fetchMoreInfo busyServer "bitcoin" (freshWorld 1000000)).1
    = inr (readPrices {[ "bitcoin" := value bitcoinPrices ]} "bitcoin")
  ∧ cacheLookup (normalize "bitcoin") afterBitcoin
    = Some (readPrices {[ "bitcoin" := value bitcoinPrices ]} "bitcoin").
Proof.
  intros run.
  assert (H1 : run.1 = inl (Axios status500)) by (vm_compute; reflexivity).
  assert (H2 : (fetchMoreInfo busyServer "bitcoin" (freshWorld 1000000)).1
    = inr (readPrices {[ "bitcoin" := value bitcoinPrices ]} "bitcoin"))
    by (vm_compute; reflexivity).
  split; [exact H1|]. split.
  - exact (proj1 (cache_written_only_on_success brokenServer "ethereum"
                    afterBitcoin) _ H1).
  - split; [exact H2|].
    exact (proj1 (proj2 (cache_written_only_on_success busyServer "bitcoin"
                           (freshWorld 1000000)) _ H2)).
Defined.

Lemma missing_record_reads_as_zero_witness :
  let w := freshWorld 1000000 in
  let run := fetchMoreInfo sparseServer "Dogecoin" w in
  let zeros := {| usd := zero; eur := zero; ils := zero |} in
  cacheLookup (normalize "Dogecoin") w = None
  ∧ lockActive w = false
  ∧ sparseServer (length (requests w)) = (100%N, Responded (Entries ∅))
  ∧ (∅ : gmap string (nullable RawPrices)) !! normalize "Dogecoin" = None
  ∧ run.1 = inr zeros
  ∧ fetchMoreInfo sparseServer "dogecoin" (advance 60000 run.2)
    = (inr zeros, advance 60000 run.2).
Proof.
  intros w run zeros.
  assert (H1 : cacheLookup (normalize "Dogecoin") w = None)
    by (vm_compute; reflexivity).
  assert (H2 : lockActive w = false) by (vm_compute; reflexivity).
  assert (H3 : sparseServer (length (requests w))
               = (100%N, Responded (Entries ∅))) by reflexivity.
  assert (H4 : (∅ : gmap string (nullable RawPrices)) !! normalize "Dogecoin"
               = None) by apply lookup_empty.
  pose proof (missing_record_reads_as_zero sparseServer "Dogecoin" "dogecoin"
                w 100 ∅ 60000 H1 H2 H3 H4) as (Hres & _ & Hlater).
  split; [exact H1|]. split; [exact H2|]. split; [exact H3|].
  split; [exact H4|]. split; [exact Hres|].
  apply Hlater; [vm_compute; reflexivity | lia | unfold COIN_CACHE_TTL_MS; lia].
Defined.

Lemma invalid_body_fails_at_once_witness :
  let w := freshWorld 1000000 in
  let run := fetchMoreInfo garbledServer "bitcoin" w in
  cacheLookup (normalize "bitcoin") w = None
  ∧ lockActive w = false
  ∧ garbledServer (length (requests w)) = (100%N, Responded NotAnObject)
  ∧ run.1 = inl (PlainError "Invalid response from CoinGecko")
  ∧ now run.2 = 1000100.
Proof.
  intros w run.
  assert (H1 : cacheLookup (normalize "bitcoin") w = None)
    by (vm_compute; reflexivity).
  assert (H2 : lockActive w = false) by (vm_compute; reflexivity).
  assert (H3 : garbledServer (length (requests w))
               = (100%N, Responded NotAnObject)) by reflexivity.
  pose proof (invalid_body_fails_at_once garbledServer "bitcoin" w 100
                H1 H2 H3) as (Hres & _ & Hnow & _).
  split; [exact H1|]. split; [exact H2|]. split; [exact H3|].
  split; [exact Hres|].
  refine (eq_trans Hnow _). vm_compute. reflexivity.
Defined.

Lemma lock_state_counts_down_witness :
  getMoreInfoLockState (advance 4000 (engageLock (freshWorld 1000000)))
  = (true, 6000)
  ∧ getMoreInfoLockState (advance 10000 (engageLock (freshWorld 1000000)))
    = (false, 0).
Proof.
  pose proof (lock_state_counts_down (freshWorld 1000000) 4000)
    as (_ & _ & _ & Hleft & _).
  pose proof (lock_state_counts_down (freshWorld 1000000) 10000)
    as (_ & _ & _ & _ & Hgone).
  split.
  - refine (eq_trans (Hleft _ _) _);
      [lia | unfold LOCK_DURATION_MS; lia | reflexivity].
  - apply Hgone. unfold LOCK_DURATION_MS. lia.
Defined.

Lemma unsubscribed_listener_is_not_called_witness :
  (2%nat ∉ lockListeners lockedWithListener)
  ∧ cooling lockedWithListener
  ∧ lockEndTime lockedWithListener ≤ now lockedWithListener + 10000
  ∧ notified (advance 10000 (subscribeToMoreInfoLock 2 lockedWithListener))
    = [(1010000, 1%nat); (1010000, 2%nat)]
  ∧ notified (advance 10000
      (unsubscribe 2 (subscribeToMoreInfoLock 2 lockedWithListener)))
    = [(1010000, 1%nat)].
Proof.
  assert (H1 : 2%nat ∉ lockListeners lockedWithListener)
    by (apply (bool_decide_unpack _); vm_compute; exact I).
  assert (H2 : cooling lockedWithListener) by (split; reflexivity).
  assert (H3 : lockEndTime lockedWithListener
               ≤ now lockedWithListener + 10000) by (vm_compute; discriminate).
  destruct (proj2 (unsubscribed_listener_is_not_called 2 lockedWithListener
                     10000 H1) H2 H3) as [Hcalled Hnot].
  split; [exact H1|]. split; [exact H2|]. split; [exact H3|]. split.
  - refine (eq_trans Hcalled _). vm_compute. reflexivity.
  - refine (eq_trans Hnot _). vm_compute. reflexivity.
Defined.

Lemma relock_restarts_the_cooldown_witness :
  let relocked := engageLock (advance 4000 lockedWithListener) in
  lockEndTime relocked = now lockedWithListener + 4000 + LOCK_DURATION_MS
  ∧ lockActive (advance 9000 relocked) = true
  ∧ notified (advance 9000 relocked) = []
  ∧ notified (advance 10000 relocked) = [(1014000, 1%nat)].
Proof.
  intros relocked.
  pose proof (relock_restarts_the_cooldown
                (subscribeToMoreInfoLock 1 (freshWorld 1000000)) 4000 9000
                ltac:(lia) ltac:(unfold LOCK_DURATION_MS; lia))
    as (Hend & _ & Hbefore & _).
  pose proof (relock_restarts_the_cooldown
                (subscribeToMoreInfoLock 1 (freshWorld 1000000)) 4000 10000
                ltac:(lia) ltac:(unfold LOCK_DURATION_MS; lia))
    as (_ & _ & _ & Hafter).
  destruct Hbefore as [Hactive Hquiet]; [unfold LOCK_DURATION_MS; lia|].
  destruct Hafter as [_ Hcalls]; [unfold LOCK_DURATION_MS; lia|].
  split; [exact Hend|]. split; [exact Hactive|]. split; [exact Hquiet|].
  refine (eq_trans Hcalls _). vm_compute. reflexivity.
Defined.

Lemma interceptor_decides_the_retry_witness :
  let e := messageOnlyNetworkError in
  status e ≠ Some 429 ∧ isNetworkError e = true
  ∧ message (interceptor (moreInfoRequest "bitcoin") e) = NETWORK_MESSAGE
  ∧ isRetryableError (Axios e) = true
  ∧ isRetryableError (Axios (interceptor (moreInfoRequest "bitcoin") e))
    = false
  ∧ interceptor CoinsMarkets e = e.
Proof.
  intros e.
  assert (H1 : status e ≠ Some 429) by discriminate.
  assert (H2 : isNetworkError e = true) by reflexivity.
  pose proof (interceptor_decides_the_retry "bitcoin" e)
    as (_ & _ & Hother & _ & Hmsg & _ & _).
  split; [exact H1|]. split; [exact H2|]. split; [exact (Hmsg H1 H2)|].
  split; [reflexivity|]. split; [reflexivity|].
  exact (Hother CoinsMarkets eq_refl).
Defined.

End ApiMoreExamples.

(** ** More on the batched quote and the poller *)

Section PollerMore.
Import JS Api Reports.
Context `{Runtime}.

Lemma collected_quotes_sound (entries : list (string * nullable Quote))
    (k : string) (p : number) :
  foldl collectQuote ∅ entries !! k = Some p →
  ∃ sym, (sym, value {| USD := value p |}) ∈ entries ∧ k = toUpperCase sym.
Proof.
  induction entries as [|entry entries IH] using rev_ind.
  - simpl. by rewrite lookup_empty.
  - rewrite foldl_app. simpl. intros Hk.
    assert (Hold : foldl collectQuote ∅ entries !! k = Some p →
                   ∃ sym, (sym, value {| USD := value p |}) ∈ entries ++ [entry]
                          ∧ k = toUpperCase sym).
    { intros Hin. destruct (IH Hin) as (sym & ? & ?).
      exists sym. split; [|done]. apply elem_of_app. by left. }
    destruct entry as [sym [| |[[| |q]]]]; simpl in Hk; try by apply Hold.
    destruct (decide (toUpperCase sym = k)) as [<- | Hne].
    + rewrite lookup_insert_eq in Hk. injection Hk as <-.
      exists sym. split; [|done]. apply elem_of_app. right.
      apply list_elem_of_singleton. done.
    + rewrite lookup_insert_ne in Hk by done. by apply Hold.
Qed.

(** X16. The batched quote: without symbols nothing is asked and the
    result is empty. With symbols there is one request, for the
    upper-cased symbols joined by commas, and every price of the result is
    the USD price of an entry of the answer, filed under the upper-cased
    symbol of that entry: nothing is made up for a symbol the answer does
    not quote. *)
Theorem quotes_come_from_the_answer
    (quoteServer : string → quoteReply) (symbols : list string) :
  fetchPricesUsdCryptoCompare quoteServer [] = inr ∅
  ∧ ∀ entries,
      symbols ≠ [] →
      quoteServer (String.concat comma (toUpperCase <$> symbols))
        = QuoteResponded entries →
      ∃ out,
        fetchPricesUsdCryptoCompare quoteServer symbols = inr out
        ∧ ∀ k p, out !! k = Some p →
            ∃ sym, (sym, value {| USD := value p |}) ∈ entries
                   ∧ k = toUpperCase sym.
Proof.
  split; [done|]. intros entries Hne Hreply.
  exists (foldl collectQuote ∅ entries). split.
  - unfold fetchPricesUsdCryptoCompare.
    rewrite decide_False by (destruct symbols; simpl; done).
    by rewrite Hreply.
  - intros k p. apply collected_quotes_sound.
Qed.

(** X17. What the poller shows when the batched request fails: the
    rate-limit text on status 429, the connection text on a network error,
    and the message of the error itself otherwise. The history is as it
    was and the loading flag is off. *)
Theorem poller_shows_the_failure
    (st : ReportsState) (t : tick) (e : AxiosError) :
  tickFavorites t ≠ [] →
  tickServer t (String.concat comma
                  (toUpperCase <$> (symbolOf (tickCoins t) <$> tickFavorites t)))
    = QuoteRejected e →
  let st' := runTick st t in
  priceHistory st' = priceHistory st ∧ loading st' = false
  ∧ (status e = Some 429%Z →
       error st'
       = Some "Too many requests (rate limit). Try again in a moment.")
  ∧ (status e ≠ Some 429%Z →
     code e = Some "ERR_NETWORK" ∨ message e = "Network Error" →
       error st'
       = Some "Network error. Check your connection or try again later.")
  ∧ (status e ≠ Some 429%Z → code e ≠ Some "ERR_NETWORK" →
     message e ≠ "Network Error" →
       error st' = Some (message e)).
Proof.
  intros Hne Hreply st'.
  assert (Hrun : st'
    = {| priceHistory := priceHistory st; loading := false;
         error := Some (thrownMessage
           (if hasStatus e 429 then
              PlainError "Too many requests (rate limit). Try again in a moment."
            else if bool_decide (code e = Some "ERR_NETWORK")
                    || String.eqb (message e) "Network Error" then
              PlainError "Network error. Check your connection or try again later."
            else Axios e)) |}).
  { unfold st', runTick, fetchAndAppend, fetchPricesUsdCryptoCompare.
    rewrite decide_False by (destruct (tickFavorites t); simpl; done).
    rewrite decide_False
      by (rewrite length_fmap; destruct (tickFavorites t); simpl; done).
    rewrite Hreply.
    destruct (hasStatus e 429); [done|]. by destruct (_ || _). }
  rewrite Hrun. simpl. split; [done|]. split; [done|]. split; [|split].
  - intros H429. by rewrite (proj2 (hasStatus_true e 429) H429).
  - intros Hn Hnet. rewrite (proj2 (hasStatus_false e 429) Hn).
    assert (Hyes : bool_decide (code e = Some "ERR_NETWORK")
                   || String.eqb (message e) "Network Error" = true).
    { apply orb_true_iff. destruct Hnet as [Hc | Hm].
      - left. by apply bool_decide_eq_true.
      - right. by apply String.eqb_eq. }
    by rewrite Hyes.
  - intros Hn Hc Hm. rewrite (proj2 (hasStatus_false e 429) Hn).
    assert (Hno : bool_decide (code e = Some "ERR_NETWORK")
                  || String.eqb (message e) "Network Error" = false).
    { apply orb_false_iff. split.
      - by apply bool_decide_eq_false.
      - by apply String.eqb_neq. }
    by rewrite Hno.
Qed.

(** X18. Over any run of ticks, answered or not, the history is the last
    30 of the points it started with followed by the points of the
    answered ticks, in the order of the ticks: a tick without favourites
    or with a failed request adds nothing and removes nothing. *)
Theorem history_is_the_last_thirty (st : ReportsState) (ts : list tick) :
  length (priceHistory st) ≤ 30 →
  priceHistory (runTicks st ts)
  = sliceLast 30 (priceHistory st ++ omap tickPoint ts)
  ∧ length (priceHistory (runTicks st ts)) ≤ 30
  ∧ (Forall (λ t, tickPoint t = None) ts →
       priceHistory (runTicks st ts) = priceHistory st).
Proof.
  intros Hlen.
  pose proof (runTicks_history ts st Hlen) as Hhist.
  unfold MAX_DATA_POINTS in Hhist.
  split; [exact Hhist|]. split.
  - rewrite Hhist, sliceLast_length. lia.
  - intros Hnone.
    assert (Hno : omap tickPoint ts = []).
    { clear Hhist. induction Hnone as [|t ts' Ht _ IH]; [done|].
      change (omap tickPoint (t :: ts'))
        with (match tickPoint t with
              | Some y => y :: omap tickPoint ts'
              | None => omap tickPoint ts'
              end).
      by rewrite Ht. }
    rewrite Hhist, Hno, app_nil_r. by apply sliceLast_short.
Qed.

Lemma findCoin_first (coins front back : list Coin) (coin : Coin)
    (coinId : string) :
  coins = front ++ coin :: back → id coin = coinId →
  (∀ c, c ∈ front → id c ≠ coinId) →
  findCoin coins coinId = Some coin.
Proof.
  intros -> Hid Hfront. unfold findCoin.
  induction front as [|c front IH]; simpl.
  - by rewrite (proj2 (String.eqb_eq _ _) Hid).
  - rewrite (proj2 (String.eqb_neq _ _) (Hfront c (list_elem_of_here _ _))).
    apply IH. intros c' Hc'. apply Hfront. by apply list_elem_of_further.
Qed.

Lemma findCoin_none (coins : list Coin) (coinId : string) :
  (∀ c, c ∈ coins → id c ≠ coinId) → findCoin coins coinId = None.
Proof.
  intros Hnone. unfold findCoin.
  induction coins as [|c coins IH]; [done|]. simpl.
  rewrite (proj2 (String.eqb_neq _ _) (Hnone c (list_elem_of_here _ _))).
  apply IH. intros c' Hc'. apply Hnone. by apply list_elem_of_further.
Qed.

(** X19. The keys of a point are the key of the time label and the
    favourites other than [__proto__], and no other. The label is there
    unless a favourite is itself called time. A favourite other than
    [__proto__] holds the price quoted for the upper-cased symbol of the
    first coin of the list that has its identifier, or for its own
    upper-cased identifier when the list has no such coin, and 0 when
    there is no such quote. *)
Theorem point_has_the_favourites_and_the_time
    (time : string) (favoriteIds : list string) (coins : list Coin)
    (prices : gmap string number) :
  let point := buildPoint time favoriteIds coins prices in
  dom point = {["time"]} ∪ (list_to_set favoriteIds ∖ {["__proto__"]})
  ∧ ("time" ∉ favoriteIds → point !! "time" = Some (Label time))
  ∧ (∀ coinId, coinId ∈ favoriteIds → coinId ≠ "__proto__" →
       (∀ front coin back,
          coins = front ++ coin :: back → id coin = coinId →
          (∀ c, c ∈ front → id c ≠ coinId) →
          point !! coinId
          = Some (Price (default zero (prices !! toUpperCase (symbol coin)))))
       ∧ ((∀ c, c ∈ coins → id c ≠ coinId) →
          point !! coinId
          = Some (Price (default zero (prices !! toUpperCase coinId))))).
Proof.
  intros point. split; [|split].
  - unfold point, buildPoint.
    induction favoriteIds as [|x ids IH] using rev_ind.
    + simpl. rewrite dom_singleton_L. set_solver.
    + rewrite foldl_app. simpl.
      destruct (decide (x = "__proto__")) as [-> | Hx].
      * rewrite recordPrice_proto, IH, list_to_set_app_L. simpl.
        apply set_eq. intros k. set_unfold. tauto.
      * rewrite recordPrice_other by done.
        rewrite dom_insert_L, IH, list_to_set_app_L. simpl.
        apply set_eq. intros k. set_unfold.
        destruct (decide (k = x)) as [-> | Hk]; tauto.
  - unfold point, buildPoint.
    induction favoriteIds as [|x ids IH] using rev_ind; intros Hnot.
    + simpl. by rewrite lookup_singleton_eq.
    + rewrite foldl_app. simpl.
      apply not_elem_of_app in Hnot as [Hnot Hx].
      destruct (decide (x = "__proto__")) as [-> | Hproto].
      * rewrite recordPrice_proto. by apply IH.
      * rewrite recordPrice_other by done.
        rewrite lookup_insert_ne by set_solver. by apply IH.
  - intros coinId Hin Hproto.
    pose proof (buildPoint_lookup time favoriteIds coins prices coinId
                  Hin Hproto) as Hlook.
    fold point in Hlook. unfold symbolOf in Hlook. split.
    + intros front coin back Hcoins Hid Hfront.
      by rewrite (findCoin_first coins front back coin coinId) in Hlook.
    + intros Hnone. by rewrite findCoin_none in Hlook.
Qed.

End PollerMore.

Module PollerMoreExamples.
Import JS Api Reports.

#[local] Existing Instance referenceHost.

Lemma quotes_come_from_the_answer_witness :
  ["btc"; "eth"] ≠ ([] : list string)
  ∧ bothQuoted (String.concat comma (toUpperCase <$> ["btc"; "eth"]))
    = QuoteResponded [quoted "BTC" 50000; quoted "ETH" 3000]
  ∧ ∃ out,
      fetchPricesUsdCryptoCompare bothQuoted ["btc"; "eth"] = inr out
      ∧ ∀ k p, out !! k = Some p →
          ∃ sym, (sym, value {| USD := value p |})
                   ∈ [quoted "BTC" 50000; quoted "ETH" 3000]
                 ∧ k = toUpperCase sym.
Proof.
  assert (H1 : ["btc"; "eth"] ≠ ([] : list string)) by discriminate.
  assert (H2 : bothQuoted (String.concat comma (toUpperCase <$> ["btc"; "eth"]))
               = QuoteResponded [quoted "BTC" 50000; quoted "ETH" 3000])
    by (vm_compute; reflexivity).
  split; [exact H1|]. split; [exact H2|].
  exact (proj2 (quotes_come_from_the_answer bothQuoted ["btc"; "eth"])
           _ H1 H2).
Defined.

Lemma poller_shows_the_failure_witness :
  let t := tickAt rateLimited "12:00:10" in
  let e := {| status := Some 429%Z;
              message := "Request failed with status code 429";
              code := Some "ERR_BAD_REQUEST" |} in
  tickFavorites t ≠ []
  ∧ status e = Some 429%Z
  ∧ error (runTick initialReports t)
    = Some "Too many requests (rate limit). Try again in a moment."
  ∧ priceHistory (runTick initialReports t) = [].
Proof.
  intros t e.
  assert (H1 : tickFavorites t ≠ []) by discriminate.
  assert (H2 : status e = Some 429%Z) by reflexivity.
  pose proof (poller_shows_the_failure initialReports t e H1 eq_refl)
    as (Hhist & _ & H429 & _).
  split; [exact H1|]. split; [exact H2|]. split; [exact (H429 H2)|].
  exact Hhist.
Defined.

Lemma history_is_the_last_thirty_witness :
  let ts := [tickAt bothQuoted "12:00:00"; tickAt rateLimited "12:00:10";
             tickAt onlyBtcQuoted "12:00:20"] in
  length (priceHistory initialReports) ≤ 30
  ∧ length (priceHistory (runTicks initialReports ts)) ≤ 30
  ∧ length (priceHistory (runTicks initialReports ts)) = 2
  ∧ Forall (λ t, tickPoint t = None) [tickAt rateLimited "12:00:10"]
  ∧ priceHistory (runTicks initialReports [tickAt rateLimited "12:00:10"])
    = [].
Proof.
  intros ts.
  assert (H1 : length (priceHistory initialReports) ≤ 30) by (simpl; lia).
  assert (H2 : Forall (λ t, tickPoint t = None)
                 [tickAt rateLimited "12:00:10"]).
  { constructor; [vm_compute; reflexivity | constructor]. }
  split; [exact H1|]. split.
  - exact (proj1 (proj2 (history_is_the_last_thirty initialReports ts H1))).
  - split; [vm_compute; reflexivity|]. split; [exact H2|].
    exact (proj2 (proj2 (history_is_the_last_thirty initialReports _ H1)) H2).
Defined.

Lemma point_has_the_favourites_and_the_time_witness :
  ("time" ∉ ["btc"; "eth"])
  ∧ buildPoint "12:00:00" ["btc"; "eth"] [] ∅ !! "time"
    = Some (Label "12:00:00")
  ∧ "time" ∈ ["btc"; "time"]
  ∧ buildPoint "12:00:00" ["btc"; "time"] [] ∅ !! "time" = Some (Price zero).
Proof.
  assert (H1 : "time" ∉ ["btc"; "eth"])
    by (apply (bool_decide_unpack _); vm_compute; exact I).
  assert (H2 : "time" ∈ ["btc"; "time"])
    by (apply (bool_decide_unpack _); vm_compute; exact I).
  assert (H3 : "time" ≠ "__proto__") by discriminate.
  assert (H4 : ∀ c : Coin, c ∈ ([] : list Coin) → id c ≠ "time")
    by (intros c Hc; by apply elem_of_nil in Hc).
  split; [exact H1|]. split.
  - exact (proj1 (proj2 (point_has_the_favourites_and_the_time
             "12:00:00" ["btc"; "eth"] [] ∅)) H1).
  - split; [exact H2|].
    exact (proj2 (proj2 (proj2 (point_has_the_favourites_and_the_time
             "12:00:00" ["btc"; "time"] [] ∅)) "time" H2 H3) H4).
Defined.

End PollerMoreExamples.

(** ** More on the display clamp, the market data and the recommendation *)

Section RecommendationFacts.
Import JS Validation AiService MarketData Recommendation.
Context `{Runtime}.

(** X20. The display clamp leaves every finite value from 0 to 100,000 as
    it is, and clamping twice is clamping once. *)
Theorem clamp_settles (v : number) :
  clampPriceForDisplay (clampPriceForDisplay v) = clampPriceForDisplay v
  ∧ (displayable v → clampPriceForDisplay v = v).
Proof.
  assert (Hfix : ∀ x, displayable x → clampPriceForDisplay x = x).
  { intros x (q & -> & H0 & H1).
    unfold clampPriceForDisplay, gt, MAX_PRICE_DISPLAY, zero. simpl.
    unfold Qltb.
    rewrite (proj2 (Qle_bool_iff 0 q) H0), (proj2 (Qle_bool_iff q 100000) H1).
    reflexivity. }
  split; [|apply Hfix]. apply Hfix, clamp_displayable.
Qed.

Lemma changeOf_defined (raw : change) :
  orNull (changeOf raw) = changeOf raw ∧ changeOf raw ≠ undefined.
Proof. destruct raw as [| | n | [[| | n]]]; simpl; done. Qed.

(** X21. Reading the market data of a coin: a percent change given as a
    bare number and one given under the usd key read as the same number,
    and one that is null, absent or without a usd value reads as null,
    never as undefined. Without market data the three money figures are 0
    and the four changes null. The symbol is upper-cased, three question
    marks when it is absent, and the name falls back to the identifier. *)
Theorem market_data_reads_both_forms
    (coinId : string) (responseData : CoinDetailResponse) :
  let out := fetchCoinMarketData coinId responseData in
  (∀ md n, market_data responseData = value md →
     (price_change_percentage_30d_in_currency md = ChangeNumber n
      ∨ price_change_percentage_30d_in_currency md
        = ChangeNested {| usdOf := value n |} →
      inPriceChange30d out = value n)
     ∧ (price_change_percentage_60d_in_currency md = ChangeNumber n
        ∨ price_change_percentage_60d_in_currency md
          = ChangeNested {| usdOf := value n |} →
        inPriceChange60d out = value n)
     ∧ (price_change_percentage_200d_in_currency md = ChangeNumber n
        ∨ price_change_percentage_200d_in_currency md
          = ChangeNested {| usdOf := value n |} →
        inPriceChange200d out = value n))
  ∧ (inPriceChange24h out ≠ undefined ∧ inPriceChange30d out ≠ undefined
     ∧ inPriceChange60d out ≠ undefined ∧ inPriceChange200d out ≠ undefined)
  ∧ (market_data responseData = null ∨ market_data responseData = undefined →
       inCurrentPriceUsd out = zero ∧ inTotalVolume out = zero
       ∧ inMarketCap out = zero
       ∧ inPriceChange24h out = null ∧ inPriceChange30d out = null
       ∧ inPriceChange60d out = null ∧ inPriceChange200d out = null)
  ∧ inSymbol out = toUpperCase (orElse (responseSymbol responseData) "???")
  ∧ (responseName responseData = null ∨ responseName responseData = undefined →
       inName out = coinId).
Proof.
  intros out. split; [|split; [|split; [|split]]].
  - intros md n Hmd. unfold out, fetchCoinMarketData. rewrite Hmd. simpl.
    repeat split; intros [-> | ->]; reflexivity.
  - unfold out, fetchCoinMarketData. simpl.
    repeat split;
      try (rewrite (proj1 (changeOf_defined _)); apply changeOf_defined).
    by destruct (price_change_percentage_24h _).
  - intros Hmd. unfold out, fetchCoinMarketData.
    destruct Hmd as [-> | ->]; simpl; done.
  - done.
  - intros Hname. unfold out, fetchCoinMarketData.
    destruct Hname as [-> | ->]; done.
Qed.




End RecommendationFacts.

Module RecommendationExamples.
Import JS Validation AiService MarketData Recommendation.

Lemma clamp_settles_witness :
  displayable (Finite 64250)
  ∧ clampPriceForDisplay (Finite 64250) = Finite 64250.
Proof.
  assert (H1 : displayable (Finite 64250)).
  { exists 64250%Q. split; [done|]. split; discriminate. }
  split; [exact H1|]. exact (proj2 (clamp_settles (Finite 64250)) H1).
Defined.



Lemma market_data_reads_both_forms_witness :
  let out := @fetchCoinMarketData referenceHost "bitcoin" exampleDetail in
  inPriceChange30d out = value (Finite (-(12 # 10)))
  ∧ inPriceChange60d out = value (Finite 4)
  ∧ inPriceChange200d out = null
  ∧ inSymbol out = "BTC".
Proof.
  intros out.
  pose proof (@market_data_reads_both_forms referenceHost "bitcoin"
                exampleDetail) as (Hforms & _ & _ & Hsym & _).
  split; [|split; [|split]].
  - exact (proj1 (Hforms _ (Finite (-(12 # 10))) eq_refl) (or_introl eq_refl)).
  - exact (proj1 (proj2 (Hforms _ (Finite 4) eq_refl)) (or_intror eq_refl)).
  - reflexivity.
  - exact Hsym.
Defined.


End RecommendationExamples.

(** ** The configuration *)

Section ConfigFacts.
Import JS Env.
Context `{Runtime}.

Lemma blank_is_unconfigured (v : option string) :
  trim "" = "" →
  blank v = negb (match v with
                  | Some s => (0 <? String.length (trim s))%nat
                  | None => false
                  end).
Proof.
  intros Htrim. destruct v as [s|]; [|done]. simpl.
  destruct s as [|c s]; simpl.
  - by rewrite Htrim.
  - by destruct (String.length (trim (String c s))).
Qed.

Lemma key_missing_is_unconfigured (env : gmap string envValue) :
  let openAiKey := getOpenAiApiKey env in
  (String.length openAiKey =? 0)%nat
  || (String.length (trim openAiKey) =? 0)%nat
  || isPlaceholder (trim openAiKey)
  = negb (isOpenAiKeyConfigured env).
Proof.
  intros openAiKey. unfold isOpenAiKeyConfigured. fold openAiKey.
  destruct openAiKey as [|c s] eqn:Hkey; [done|].
  rewrite <- Hkey. assert (Hlen : (String.length openAiKey =? 0)%nat = false)
    by by rewrite Hkey.
  assert (Hpos : (0 <? String.length openAiKey)%nat = true) by by rewrite Hkey.
  rewrite Hlen, Hpos. simpl. rewrite negb_involutive.
  destruct (trim openAiKey) as [|c' s'] eqn:Htrim; [done|]. done.
Qed.

(** X25. The start-up check agrees with the three predicates of the
    configuration, on a host whose trim leaves the empty string empty:
    it lists, in the order URL, key, model and each at most once, exactly
    the variables whose predicate says they are not configured, and the
    configuration is valid exactly when all three predicates hold. *)
Theorem validateEnv_agrees_with_the_predicates (env : gmap string envValue) :
  trim "" = "" →
  missing (validateEnv env)
  = (if isCoinGeckoUrlConfigured env then [] else [COINGECKO_API_URL])
    ++ (if isOpenAiKeyConfigured env then [] else [OPENAI_API_KEY])
    ++ (if isAiModelConfigured env then [] else [AI_MODEL])
  ∧ (valid (validateEnv env) = true
     ↔ isCoinGeckoUrlConfigured env = true
       ∧ isOpenAiKeyConfigured env = true
       ∧ isAiModelConfigured env = true).
Proof.
  intros Htrim.
  assert (Hmissing : missing (validateEnv env)
    = (if isCoinGeckoUrlConfigured env then [] else [COINGECKO_API_URL])
      ++ (if isOpenAiKeyConfigured env then [] else [OPENAI_API_KEY])
      ++ (if isAiModelConfigured env then [] else [AI_MODEL])).
  { unfold validateEnv. cbv zeta. cbn [missing].
    rewrite key_missing_is_unconfigured, !blank_is_unconfigured by done.
    unfold isCoinGeckoUrlConfigured, isAiModelConfigured.
    destruct (getEnv env COINGECKO_API_URL) as [url|];
      [destruct (0 <? String.length (trim url))%nat|];
      destruct (isOpenAiKeyConfigured env);
      (destruct (getEnv env AI_MODEL) as [model|];
        [destruct (0 <? String.length (trim model))%nat|]); reflexivity. }
  split; [exact Hmissing|].
  assert (Hvalid : valid (validateEnv env)
                   = (length (missing (validateEnv env)) =? 0)%nat) by done.
  rewrite Hvalid, Hmissing.
  destruct (isCoinGeckoUrlConfigured env), (isOpenAiKeyConfigured env),
    (isAiModelConfigured env); simpl; split; try done; by intros (? & ? & ?).
Qed.

End ConfigFacts.

Module ConfigExamples.
Import JS Env.

Lemma validateEnv_agrees_with_the_predicates_witness :
  missing (@validateEnv referenceHost exampleEnv) = [OPENAI_API_KEY]
  ∧ valid (@validateEnv referenceHost exampleEnv) = false.
Proof.
  assert (H1 : @trim referenceHost "" = "") by reflexivity.
  pose proof (@validateEnv_agrees_with_the_predicates referenceHost
                exampleEnv H1) as [Hmissing _].
  split.
  - refine (eq_trans Hmissing _). vm_compute. reflexivity.
  - vm_compute. reflexivity.
Defined.

End ConfigExamples.

(** ** The coins slice and the card *)

Section CoinsFacts.
Import JS Api CoinsSlice.
Context `{Runtime}.
Variable network : nat → N * reply.

Lemma dispatchFetchCoinPrices_proto (sw : CoinsState * World) :
  dispatchFetchCoinPrices network "__proto__" sw = sw.
Proof. reflexivity. Qed.

Lemma dispatchFetchCoinPrices_entry (coinId : string)
    (sw : CoinsState * World) :
  coinId ≠ "__proto__" →
  let out := dispatchFetchCoinPrices network coinId sw in
  let run := fetchMoreInfo network coinId sw.2 in
  out.2 = run.2
  ∧ moreInfo out.1 !! coinId
    = Some (match run.1 with
            | inr details =>
                {| loading := false; error := None; data := Some details |}
            | inl err =>
                {| loading := false; error := Some (thrownMessage err);
                   data := None |}
            end)
  ∧ ∀ other, other ≠ coinId →
      moreInfo out.1 !! other = moreInfo sw.1 !! other.
Proof.
  intros Hproto out run. unfold out, dispatchFetchCoinPrices. fold run.
  unfold coinPricesPending, coinPricesFulfilled, coinPricesRejected, reduce,
    assignMoreInfo.
  rewrite (proj2 (String.eqb_neq _ _) Hproto).
  destruct run as [[err|details] w']; simpl;
    (split; [done|]; split;
      [by rewrite lookup_insert_eq
      |intros other Hother; by rewrite !lookup_insert_ne]).
Qed.

(** X26. Loading the list of the top coins ends with the loading flag
    down and leaves the search term and the price entries alone. An answer
    replaces the list and leaves no error; a rejection keeps the list that
    was there and shows the message of the error as axios made it, also
    for status 429 and for a network error: the interceptor rewrites
    messages only for the price request of a card. *)
Theorem top_coins_load (r : listReply) (st : CoinsState) :
  let st' := dispatchFetchTopCoins r st in
  listLoading st' = false
  ∧ searchTerm st' = searchTerm st
  ∧ moreInfo st' = moreInfo st
  ∧ (∀ coins, r = ListResponded coins →
       items st' = coins ∧ listError st' = None)
  ∧ (∀ e, r = ListRejected e →
       items st' = items st ∧ listError st' = Some (message e)).
Proof.
  intros st'. unfold st', dispatchFetchTopCoins.
  destruct r as [coins | e]; simpl;
    (split; [done|]; split; [done|]; split; [done|]; split);
    intros x Heq; try discriminate; by injection Heq as <-.
Qed.

(** X27. Asking for the prices of a coin leaves the entries of all other
    coins as they were. For the identifier [__proto__] the reducers throw:
    nothing is settled and nothing is asked for. For any other identifier
    the entry of the coin is settled with the loading flag down, keyed by
    the identifier as it was given, and holds either prices and no error or
    an error and no prices; with the prices of the coin fresh in the cache
    the entry gets them and nothing is sent; otherwise, during a cooldown,
    the entry gets the busy message, the prices it showed are dropped, and
    nothing is sent. *)
Theorem price_fetch_settles_one_entry (coinId : string)
    (sw : CoinsState * World) :
  let out := dispatchFetchCoinPrices network coinId sw in
  (∀ other, other ≠ coinId →
     moreInfo out.1 !! other = moreInfo sw.1 !! other)
  ∧ (coinId = "__proto__" → out = sw)
  ∧ (coinId ≠ "__proto__" →
       (∃ entry, moreInfo out.1 !! coinId = Some entry
                 ∧ loading entry = false
                 ∧ (is_Some (data entry) ↔ error entry = None))
       ∧ (∀ cached, cacheLookup (normalize coinId) sw.2 = Some cached →
            out.2 = sw.2
            ∧ moreInfo out.1 !! coinId
              = Some {| loading := false; error := None;
                        data := Some cached |})
       ∧ (cacheLookup (normalize coinId) sw.2 = None →
          lockActive sw.2 = true →
            out.2 = sw.2
            ∧ moreInfo out.1 !! coinId
              = Some {| loading := false; error := Some BUSY_MESSAGE;
                        data := None |})).
Proof.
  intros out.
  destruct (decide (coinId = "__proto__")) as [-> | Hproto].
  { unfold out. rewrite dispatchFetchCoinPrices_proto.
    split; [done|]. split; [done|]. done. }
  destruct (dispatchFetchCoinPrices_entry coinId sw Hproto)
    as (Hw & Hentry & Hother).
  fold out in Hw, Hentry, Hother.
  split; [exact Hother|]. split; [done|]. intros _. split; [|split].
  - eexists. split; [exact Hentry|].
    destruct (fetchMoreInfo network coinId sw.2).1 as [err|details]; simpl.
    + split; [done|]. split; [by intros [? [=]] | done].
    + split; [done|]. split; [done | eauto].
  - intros cached Hcache. rewrite Hw, Hentry, fetch_steps, Hcache. done.
  - intros Hcache Hlock. rewrite Hw, Hentry, fetch_steps, Hcache, Hlock. done.
Qed.


End CoinsFacts.

Module CoinsExamples.
Import JS Api CoinsSlice Sessions.

Lemma price_fetch_settles_one_entry_witness :
  let out := @dispatchFetchCoinPrices referenceHost busyServer "Solana"
               (initialState, afterEthereum) in
  out.2 = (initialState, afterEthereum).2
  ∧ moreInfo out.1 !! "Solana"
    = Some {| loading := false; error := Some BUSY_MESSAGE; data := None |}.
Proof.
  assert (H0 : "Solana" ≠ "__proto__") by discriminate.
  assert (H1 : cacheLookup (@normalize referenceHost "Solana")
                 (initialState, afterEthereum).2 = None)
    by (vm_compute; reflexivity).
  assert (H2 : lockActive (initialState, afterEthereum).2 = true)
    by (vm_compute; reflexivity).
  exact (proj2 (proj2 (proj2 (proj2 (@price_fetch_settles_one_entry
                                       referenceHost busyServer "Solana"
                                       (initialState, afterEthereum))) H0))
           H1 H2).
Defined.


End CoinsExamples.

(** ** The coins in view *)

Section ViewFacts.
Import JS Reports HomeView.
Context `{Runtime}.
Variable sortCoins : list Coin → list Coin.

Lemma filter_split (favorites : list string) (l : list Coin) :
  List.filter (isFavorite favorites) l
  ++ List.filter (λ c, negb (isFavorite favorites c)) l ≡ₚ l.
Proof.
  induction l as [|c l IH]; [done|]. simpl.
  destruct (isFavorite favorites c); simpl.
  - by rewrite IH.
  - rewrite <- Permutation_middle. by rewrite IH.
Qed.

(** X29. The coins the home page shows, whatever the chosen order, as long
    as sorting only rearranges: they are the coins that match the search,
    each as often as the list has it; the favourites among them come
    first, before every other coin; the flag for pinned coins is up
    exactly when a favourite is in view; and a search term that trims and
    lower-cases to nothing shows every coin of the list. *)
Theorem favourites_are_pinned_first
    (items : list Coin) (searchTerm : string) (favorites : list string) :
  (∀ l, sortCoins l ≡ₚ l) →
  let view := filteredCoins sortCoins items searchTerm favorites in
  view ≡ₚ filtered items searchTerm
  ∧ (∃ n, (∀ c, c ∈ take n view → id c ∈ favorites)
          ∧ (∀ c, c ∈ drop n view → id c ∉ favorites))
  ∧ (hasPinnedInView items searchTerm favorites = true
     ↔ ∃ c, c ∈ view ∧ id c ∈ favorites)
  ∧ (toLowerCase (trim searchTerm) = "" → view ≡ₚ items).
Proof.
  intros Hsort view.
  assert (Hview : view ≡ₚ filtered items searchTerm).
  { unfold view, filteredCoins, pinned, rest.
    rewrite !Hsort. apply filter_split. }
  assert (Hpinned : ∀ c, c ∈ pinned items searchTerm favorites
                         → id c ∈ favorites).
  { intros c Hc. unfold pinned in Hc.
    apply list_elem_of_In, List.filter_In in Hc as [_ Hc].
    by apply bool_decide_eq_true_1 in Hc. }
  assert (Hrest : ∀ c, c ∈ rest items searchTerm favorites
                       → id c ∉ favorites).
  { intros c Hc. unfold rest in Hc.
    apply list_elem_of_In, List.filter_In in Hc as [_ Hc].
    apply negb_true_iff in Hc. by apply bool_decide_eq_false_1 in Hc. }
  split; [exact Hview|]. split; [|split].
  - exists (length (sortCoins (pinned items searchTerm favorites))).
    unfold view, filteredCoins. rewrite take_app_length, drop_app_length.
    split; intros c Hc; rewrite Hsort in Hc; auto.
  - unfold hasPinnedInView. rewrite bool_decide_eq_true. split.
    + intros Hlen.
      destruct (pinned items searchTerm favorites) as [|c l] eqn:Hp;
        [simpl in Hlen; lia|].
      exists c. split.
      * unfold view, filteredCoins. rewrite ?Hp, elem_of_app, Hsort.
        left. apply list_elem_of_here.
      * apply Hpinned. rewrite ?Hp. apply list_elem_of_here.
    + intros (c & Hc & Hfav).
      unfold view, filteredCoins in Hc.
      rewrite elem_of_app, !Hsort in Hc. destruct Hc as [Hc | Hc].
      * destruct (pinned items searchTerm favorites); [|simpl; lia].
        by apply elem_of_nil in Hc.
      * by apply Hrest in Hc.
  - intros Hterm. rewrite Hview. unfold filtered. by rewrite Hterm.
Qed.

(** X30. The coins the recommendation page offers are coins of the list,
    in the order of the favourites, each with the identifier of a
    favourite; a favourite that is not in the list is left out, so there
    are never more of them than favourites. *)
Theorem offered_coins_follow_the_favourites
    (coins : list Coin) (favoriteIds : list string) :
  id <$> selectedCoins coins favoriteIds
  = List.filter (λ coinId, bool_decide (is_Some (findCoin coins coinId)))
      favoriteIds
  ∧ (∀ c, c ∈ selectedCoins coins favoriteIds → c ∈ coins)
  ∧ length (selectedCoins coins favoriteIds) ≤ length favoriteIds.
Proof.
  unfold selectedCoins. split; [|split].
  - induction favoriteIds as [|coinId ids IH]; [done|].
    change (omap (findCoin coins) (coinId :: ids))
      with (match findCoin coins coinId with
            | Some c => c :: omap (findCoin coins) ids
            | None => omap (findCoin coins) ids
            end).
    simpl List.filter.
    destruct (findCoin coins coinId) as [c|] eqn:Hfind.
    + rewrite bool_decide_eq_true_2 by eauto. rewrite fmap_cons, IH.
      f_equal. unfold findCoin in Hfind.
      apply List.find_some in Hfind as [_ Hid]. by apply String.eqb_eq in Hid.
    + rewrite bool_decide_eq_false_2 by (by intros [? [=]]). exact IH.
  - intros c Hc. apply list_elem_of_omap in Hc as (coinId & _ & Hfind).
    unfold findCoin in Hfind. apply List.find_some in Hfind as [Hin _].
    by apply list_elem_of_In.
  - induction favoriteIds as [|coinId ids IH]; [done|].
    change (omap (findCoin coins) (coinId :: ids))
      with (match findCoin coins coinId with
            | Some c => c :: omap (findCoin coins) ids
            | None => omap (findCoin coins) ids
            end).
    destruct (findCoin coins coinId); simpl; lia.
Qed.

End ViewFacts.

Module ViewExamples.
Import JS Reports HomeView.

Lemma favourites_are_pinned_first_witness :
  @filteredCoins referenceHost (λ l, l) exampleCoins " BIT " ["bitcoin-cash"]
  ≡ₚ @filtered referenceHost exampleCoins " BIT ".
Proof.
  assert (H1 : ∀ l : list Coin, (λ l, l) l ≡ₚ l) by done.
  exact (proj1 (@favourites_are_pinned_first referenceHost (λ l, l)
                  exampleCoins " BIT " ["bitcoin-cash"] H1)).
Defined.

End ViewExamples.
